(** * i2pkeys-converter: the key-format engine of package [i2pkeys]

    A shallow embedding of [src/main.go] (package [i2pkeys]) together with
    the parts of Go's standard library it calls: [encoding/base64] (the
    padded, non-strict [Encoding] built by [base64.NewEncoding]),
    [strings.TrimSpace], [strings.Split] and the rune iteration of
    [for _, r := range s].

    Go's [string] and [[]byte] are both byte sequences and the conversions
    [string(data)] and [[]byte(s)] copy the bytes unchanged, so both are
    [list byte] here. *)

From Stdlib Require Import ZArith List Lia String.
From Stdlib.Strings Require Import Byte.
From stdpp Require Import base list gmap strings.
Import ListNotations.
Open Scope Z_scope.

(** ** Bytes and Go strings *)

Abbreviation gostring := (list byte).

(** A Go string literal. *)
Definition go (s : string) : gostring := list_byte_of_string s.

(** [uint(b)], [rune(b)], [int(b)]: the value of a byte. *)
Definition u8 (b : byte) : Z := Z.of_N (Byte.to_N b).

(** [byte(v)]: conversion of an unsigned integer to a byte keeps the low
    eight bits. *)
Definition byte_of (v : Z) : byte :=
  match Byte.of_N (Z.to_N (Z.land v 255)) with
  | Some b => b
  | None => x00
  end.

(** [len(s)] as an [int]. *)
Definition len {A} (s : list A) : Z := Z.of_nat (length s).

(** ** Package [encoding/base64] *)

Module base64.

(** [type CorruptInputError int64] *)
Inductive CorruptInputError := CorruptInput (offset : Z).

(** [StdPadding] *)
Definition StdPadding : byte := "="%byte.

(** [type Encoding struct]: the padding character and the strict flag are
    left at what [NewEncoding] sets ([StdPadding], [false]); nothing in
    the package under study changes them. *)
Record Encoding := {
  encode : list byte;      (* [64]byte *)
  decodeMap : list byte;   (* [256]uint8, 0xff marks an invalid symbol *)
}.

(** [NewEncoding]: every entry of the decode map starts as [0xff], then
    [decodeMap[encoder[i]] = uint8(i)] for [i] from 0 upwards. *)
Fixpoint fillDecodeMap (encoder : list byte) (i : Z) (m : list byte) : list byte :=
  match encoder with
  | [] => m
  | c :: encoder' =>
      fillDecodeMap encoder' (i + 1) (<[Byte.to_nat c := byte_of i]> m)
  end.

Definition NewEncoding (encoder : gostring) : Encoding :=
  {| encode := encoder;
     decodeMap := fillDecodeMap encoder 0 (replicate 256 xff) |}.

Section Codec.
Variable enc : Encoding.

(** [enc.encode[i]] *)
Definition symbol (i : Z) : byte := nth (Z.to_nat i) (encode enc) x00.

(** [enc.decodeMap[c]] *)
Definition sextet (c : byte) : byte := nth (Byte.to_nat c) (decodeMap enc) xff.

(** [EncodedLen] for a padded encoding. *)
Definition EncodedLen (n : Z) : Z := (n + 2) / 3 * 4.

(** [Encode]: full groups of three bytes become four symbols; a final
    group of one or two bytes becomes two or three symbols and is padded
    to four. *)
Fixpoint Encode (src : list byte) : list byte :=
  match src with
  | [] => []
  | [a] =>
      let val := Z.shiftl (u8 a) 16 in
      [ symbol (Z.land (Z.shiftr val 18) 63);
        symbol (Z.land (Z.shiftr val 12) 63);
        StdPadding; StdPadding ]
  | [a; b] =>
      let val := Z.lor (Z.shiftl (u8 a) 16) (Z.shiftl (u8 b) 8) in
      [ symbol (Z.land (Z.shiftr val 18) 63);
        symbol (Z.land (Z.shiftr val 12) 63);
        symbol (Z.land (Z.shiftr val 6) 63);
        StdPadding ]
  | a :: b :: c :: rest =>
      let val := Z.lor (Z.lor (Z.shiftl (u8 a) 16) (Z.shiftl (u8 b) 8)) (u8 c) in
      symbol (Z.land (Z.shiftr val 18) 63)
      :: symbol (Z.land (Z.shiftr val 12) 63)
      :: symbol (Z.land (Z.shiftr val 6) 63)
      :: symbol (Z.land val 63)
      :: Encode rest
  end.

Definition EncodeToString (src : list byte) : gostring := Encode src.

(** What one call of [decodeQuantum] hands back: the unread input
    [src[nsi:]], the index [nsi], the bytes written and the error. *)
Record quantum := {
  q_rest : list byte;
  q_nsi : Z;
  q_out : list byte;
  q_err : option CorruptInputError;
}.

Definition isNewline (c : byte) : bool :=
  Byte.eqb c x0a || Byte.eqb c x0d.

(** [for si < len(src) && (src[si] == '\n' || src[si] == '\r') { si++ }] *)
Fixpoint skipNewlines (src : list byte) (si : Z) : list byte * Z :=
  match src with
  | c :: src' => if isNewline c then skipNewlines src' (si + 1) else (src, si)
  | [] => ([], si)
  end.

(** The tail of [decodeQuantum]: the [dlen] sextets collected in [dbuf]
    (missing ones are zero) are packed into 24 bits, of which the first
    [dlen - 1] bytes are written. The encoding is not strict, so the
    unused low bits are not inspected. *)
Definition unpack (dbuf : list byte) (dlen : nat) : list byte :=
  let d i := u8 (nth i dbuf x00) in
  let val := Z.lor (Z.lor (Z.lor (Z.shiftl (d 0%nat) 18) (Z.shiftl (d 1%nat) 12))
                          (Z.shiftl (d 2%nat) 6)) (d 3%nat) in
  take (dlen - 1)
    [byte_of (Z.shiftr val 16); byte_of (Z.shiftr val 8); byte_of (Z.shiftr val 0)].

Definition failed (si : Z) (off : Z) : quantum :=
  {| q_rest := []; q_nsi := si; q_out := []; q_err := Some (CorruptInput off) |}.

(** After the padding of a final group: newlines are skipped and
    anything left is trailing garbage; the bytes of the group are
    written either way. *)
Definition afterPadding (src : list byte) (si : Z) (dbuf : list byte) (j : nat)
  : quantum :=
  let '(src1, si1) := skipNewlines src si in
  {| q_rest := src1; q_nsi := si1; q_out := unpack dbuf j;
     q_err := match src1 with
              | [] => None
              | _ :: _ => Some (CorruptInput si1)
              end |}.

(** [decodeQuantum], as the loop [for j := 0; j < 4; j++]. [src] is
    [src[si:]], [n] is [len(src)] of the whole input and [dbuf] holds
    the [j] sextets read so far. *)
Fixpoint decodeQuantumFrom (n : Z) (src : list byte) (si : Z) (j : nat)
         (dbuf : list byte) {struct src} : quantum :=
  if (4 <=? j)%nat then
    {| q_rest := src; q_nsi := si; q_out := unpack dbuf 4; q_err := None |}
  else
    match src with
    | [] =>
        match j with
        | O => {| q_rest := []; q_nsi := si; q_out := []; q_err := None |}
        | _ => failed si (si - Z.of_nat j)
        end
    | c :: src' =>
        let si := si + 1 in
        let out := sextet c in
        if negb (Byte.eqb out xff) then
          decodeQuantumFrom n src' si (S j) (dbuf ++ [out])
        else if isNewline c then
          decodeQuantumFrom n src' si j dbuf
        else if negb (Byte.eqb c StdPadding) then
          failed si (si - 1)
        else
          match j with
          | 0%nat | 1%nat => failed si (si - 1)
          | 2%nat =>
              let '(src2, si2) := skipNewlines src' si in
              match src2 with
              | [] => failed si2 n
              | c2 :: src3 =>
                  if negb (Byte.eqb c2 StdPadding) then failed si2 (si2 - 1)
                  else afterPadding src3 (si2 + 1) dbuf j
              end
          | _ => afterPadding src' si dbuf j
          end
    end.

Definition decodeQuantum (n : Z) (src : list byte) (si : Z) : quantum :=
  decodeQuantumFrom n src si 0 [].

(** [Decode]: [for si < len(src) { si, ninc, err = decodeQuantum(...);
    n += ninc; if err != nil { return n, err } }]. The two unrolled loops
    before it, which take eight and four valid symbols at a time, write
    what [decodeQuantum] writes for the same symbols and hand over to it
    at the first other byte. Every call consumes input, so [fuel] equal
    to the length of the input is never used up ([DecodeFrom_fuel]). *)
Fixpoint DecodeFrom (fuel : nat) (n : Z) (src : list byte) (si : Z)
  : list byte * option CorruptInputError :=
  match src, fuel with
  | [], _ | _, O => ([], None)
  | _ :: _, S fuel' =>
      let q := decodeQuantum n src si in
      match q_err q with
      | Some err => (q_out q, Some err)
      | None =>
          let '(out, err) := DecodeFrom fuel' n (q_rest q) (q_nsi q) in
          (q_out q ++ out, err)
      end
  end.

(** [DecodeString]: the decoded bytes [dbuf[:n]] and the error. *)
Definition DecodeString (s : gostring) : list byte * option CorruptInputError :=
  DecodeFrom (length s) (len s) s 0.

End Codec.

End base64.

(** ** Package [unicode/utf8] *)

Module utf8.

Definition RuneError : Z := 0xFFFD.
Definition RuneSelf : Z := 0x80.
Definition UTFMax : Z := 4.

(** The table [first]: what the first byte of a sequence says about it.
    [0xF0] is ASCII and [0xF1] invalid; otherwise the low three bits are
    the size of the sequence and the high four bits index [acceptRanges]. *)
Definition first (b : byte) : Z :=
  let c := u8 b in
  if c <? 0x80 then 0xF0
  else if c <? 0xC2 then 0xF1
  else if c <? 0xE0 then 0x02
  else if c =? 0xE0 then 0x13
  else if c <? 0xED then 0x03
  else if c =? 0xED then 0x23
  else if c <? 0xF0 then 0x03
  else if c =? 0xF0 then 0x34
  else if c <? 0xF4 then 0x04
  else if c =? 0xF4 then 0x44
  else 0xF1.

(** [acceptRanges]: the range allowed for the second byte. *)
Definition acceptRanges (i : Z) : Z * Z :=
  match i with
  | 0 => (0x80, 0xBF)
  | 1 => (0xA0, 0xBF)
  | 2 => (0x80, 0x9F)
  | 3 => (0x90, 0xBF)
  | 4 => (0x80, 0x8F)
  | _ => (0, 0)
  end.

Definition outside (lo hi : Z) (b : byte) : bool := (u8 b <? lo) || (hi <? u8 b).

(** [DecodeRuneInString]: the first rune of [s] and its width in bytes;
    [(RuneError, 0)] for the empty string and [(RuneError, 1)] for an
    invalid encoding. *)
Definition DecodeRuneInString (s : gostring) : Z * nat :=
  match s with
  | [] => (RuneError, 0%nat)
  | s0 :: s' =>
      let x := first s0 in
      if 0xF0 <=? x then
        (if Z.odd x then RuneError else u8 s0, 1%nat)
      else
        let sz := Z.land x 7 in
        let '(lo, hi) := acceptRanges (Z.shiftr x 4) in
        if len s <? sz then (RuneError, 1%nat)
        else
          match s' with
          | [] => (RuneError, 1%nat)
          | s1 :: s'' =>
              if outside lo hi s1 then (RuneError, 1%nat)
              else if sz <=? 2 then
                (Z.lor (Z.shiftl (Z.land (u8 s0) 0x1F) 6) (Z.land (u8 s1) 0x3F), 2%nat)
              else
                match s'' with
                | [] => (RuneError, 1%nat)
                | s2 :: s''' =>
                    if outside 0x80 0xBF s2 then (RuneError, 1%nat)
                    else if sz <=? 3 then
                      (Z.lor (Z.lor (Z.shiftl (Z.land (u8 s0) 0x0F) 12)
                                    (Z.shiftl (Z.land (u8 s1) 0x3F) 6))
                             (Z.land (u8 s2) 0x3F), 3%nat)
                    else
                      match s''' with
                      | [] => (RuneError, 1%nat)
                      | s3 :: _ =>
                          if outside 0x80 0xBF s3 then (RuneError, 1%nat)
                          else
                            (Z.lor (Z.lor (Z.lor (Z.shiftl (Z.land (u8 s0) 0x07) 18)
                                                 (Z.shiftl (Z.land (u8 s1) 0x3F) 12))
                                          (Z.shiftl (Z.land (u8 s2) 0x3F) 6))
                                   (Z.land (u8 s3) 0x3F), 4%nat)
                      end
                end
          end
  end.

(** [RuneStart]: the byte is not a continuation byte. *)
Definition RuneStart (b : byte) : bool := negb (Z.land (u8 b) 0xC0 =? 0x80).

(** [for start--; start >= lim; start-- { if RuneStart(s[start]) { break } }] *)
Fixpoint backToStart (fuel : nat) (s : gostring) (start lim : Z) : Z :=
  match fuel with
  | O => start
  | S fuel' =>
      if start <? lim then start
      else if RuneStart (nth (Z.to_nat start) s x00) then start
      else backToStart fuel' s (start - 1) lim
  end.

(** [DecodeLastRuneInString]: the last rune of [s] and its width. The
    search for its first byte goes back at most [UTFMax] bytes. *)
Definition DecodeLastRuneInString (s : gostring) : Z * nat :=
  let end_ := len s in
  if end_ =? 0 then (RuneError, 0%nat)
  else
    let start := end_ - 1 in
    let r := u8 (nth (Z.to_nat start) s x00) in
    if r <? RuneSelf then (r, 1%nat)
    else
      let lim := Z.max 0 (end_ - UTFMax) in
      let start := backToStart 4 s (start - 1) lim in
      let start := Z.max 0 start in
      let '(r, size) := DecodeRuneInString (drop (Z.to_nat start) s) in
      if negb (start + Z.of_nat size =? end_) then (RuneError, 1%nat)
      else (r, size).

(** [for _, r := range s { if !p(r) { return false } }; return true]:
    the loop decodes one rune at a time and moves on by its width, which
    is at least one byte, so [fuel] equal to the length of [s] is never
    used up. *)
Fixpoint rangeAll (fuel : nat) (p : Z -> bool) (s : gostring) : bool :=
  match s, fuel with
  | [], _ | _, O => true
  | _ :: _, S fuel' =>
      let '(r, size) := DecodeRuneInString s in
      if p r then rangeAll fuel' p (drop size s) else false
  end.

(** [AppendRune]: the UTF-8 encoding of [r] appended to [p]; one byte for
    ASCII, and the encoding of [RuneError] for a surrogate or a value past
    [MaxRune]. Runes are not negative here. *)
Definition AppendRune (p : list byte) (r : Z) : list byte :=
  if r <=? 0x7F then p ++ [byte_of r]
  else if r <=? 0x7FF then
    p ++ [byte_of (Z.lor 0xC0 (Z.shiftr r 6));
          byte_of (Z.lor 0x80 (Z.land r 0x3F))]
  else
    let surrogate := (0xD800 <=? r) && (r <=? 0xDFFF) in
    if (0x10FFFF <? r) || surrogate || (r <=? 0xFFFF) then
      let r := if (0x10FFFF <? r) || surrogate then RuneError else r in
      p ++ [byte_of (Z.lor 0xE0 (Z.shiftr r 12));
            byte_of (Z.lor 0x80 (Z.land (Z.shiftr r 6) 0x3F));
            byte_of (Z.lor 0x80 (Z.land r 0x3F))]
    else
      p ++ [byte_of (Z.lor 0xF0 (Z.shiftr r 18));
            byte_of (Z.lor 0x80 (Z.land (Z.shiftr r 12) 0x3F));
            byte_of (Z.lor 0x80 (Z.land (Z.shiftr r 6) 0x3F));
            byte_of (Z.lor 0x80 (Z.land r 0x3F))].

End utf8.

(** ** Package [unicode] *)

Module unicode.

(** [IsSpace]: the Latin-1 spaces, then the rest of the Unicode property
    [White_Space]. *)
Definition IsSpace (r : Z) : bool :=
  if r <=? 0xFF then
    (r =? 0x09) || (r =? 0x0A) || (r =? 0x0B) || (r =? 0x0C) || (r =? 0x0D)
    || (r =? 0x20) || (r =? 0x85) || (r =? 0xA0)
  else
    (r =? 0x1680) || ((0x2000 <=? r) && (r <=? 0x200A))
    || (r =? 0x2028) || (r =? 0x2029) || (r =? 0x202F) || (r =? 0x205F)
    || (r =? 0x3000).

End unicode.

(** ** Package [strings] *)

Module strings.

(** [asciiSpace] *)
Definition asciiSpace (c : byte) : bool :=
  Byte.eqb c x09 || Byte.eqb c x0a || Byte.eqb c x0b || Byte.eqb c x0c
  || Byte.eqb c x0d || Byte.eqb c x20.

(** [TrimLeftFunc(s, unicode.IsSpace)]: [s] from its first rune that is
    not a space, or the empty string. A rune is at least one byte wide, so
    [fuel] equal to the length of [s] is enough ([TrimLeftSpace_fuel]). *)
Fixpoint TrimLeftSpace (fuel : nat) (s : gostring) : gostring :=
  match s, fuel with
  | [], _ | _, O => []
  | _ :: _, S fuel' =>
      let '(r, size) := utf8.DecodeRuneInString s in
      if unicode.IsSpace r then TrimLeftSpace fuel' (drop size s) else s
  end.

(** [lastIndexFunc(s, unicode.IsSpace, false)]: the index of the last
    rune that is not a space, or [-1] ([lastIndexNotSpace_fuel] for the
    fuel). *)
Fixpoint lastIndexNotSpace (fuel : nat) (s : gostring) : Z :=
  match s, fuel with
  | [], _ | _, O => -1
  | _ :: _, S fuel' =>
      let '(r, size) := utf8.DecodeLastRuneInString s in
      let i := len s - Z.of_nat size in
      if negb (unicode.IsSpace r) then i
      else lastIndexNotSpace fuel' (take (Z.to_nat i) s)
  end.

(** [TrimRightFunc(s, unicode.IsSpace)] *)
Definition TrimRightSpace (s : gostring) : gostring :=
  let i := lastIndexNotSpace (length s) s in
  let i :=
    if (0 <=? i) && (utf8.RuneSelf <=? u8 (nth (Z.to_nat i) s x00)) then
      i + Z.of_nat (snd (utf8.DecodeRuneInString (drop (Z.to_nat i) s)))
    else i + 1 in
  take (Z.to_nat i) s.

(** The second loop of [TrimSpace], on [s[start:stop]]: ASCII spaces are
    dropped from the end; at a byte that is not ASCII the rest is left to
    [TrimRightFunc] ([trimRight_fuel] for the fuel). *)
Fixpoint trimRight (fuel : nat) (s : gostring) : gostring :=
  match fuel with
  | O => s
  | S fuel' =>
      match last s with
      | None => []
      | Some c =>
          if utf8.RuneSelf <=? u8 c then TrimRightSpace s
          else if asciiSpace c then trimRight fuel' (removelast s)
          else s
      end
  end.

(** The first loop of [TrimSpace], on [s[start:]]: ASCII spaces are
    dropped from the front; at a byte that is not ASCII the rest is left
    to [TrimFunc]. *)
Fixpoint trimLeft (s : gostring) : gostring :=
  match s with
  | [] => []
  | c :: s' =>
      if utf8.RuneSelf <=? u8 c then TrimRightSpace (TrimLeftSpace (length s) s)
      else if asciiSpace c then trimLeft s'
      else trimRight (length s) s
  end.

(** [TrimSpace] *)
Definition TrimSpace (s : gostring) : gostring := trimLeft s.

(** [Split(s, sep)] for a separator of one byte: the pieces of [s]
    between the occurrences of [sep]; one piece, [s] itself, when there is
    none. *)
Fixpoint Split (s : gostring) (sep : byte) : list gostring :=
  match s with
  | [] => [[]]
  | c :: s' =>
      if Byte.eqb c sep then [] :: Split s' sep
      else
        match Split s' sep with
        | piece :: pieces => (c :: piece) :: pieces
        | [] => [[c]]
        end
  end.

End strings.

(** ** Errors, packages [os] and [path/filepath] *)

(** The [error] values that occur: [errors.New(msg)],
    [fmt.Errorf(msg + ": %w", err)] and the [*fs.PathError] of package
    [os]. *)
Inductive error :=
  | errorString (msg : string)
  | wrapError (msg : string) (err : error)
  | PathError (op path : string).

Module filepath.

(** The part of [path] before its last separator, if it has one. *)
Fixpoint beforeLastSeparator (path : string) : option string :=
  match path with
  | EmptyString => None
  | String c path' =>
      match beforeLastSeparator path' with
      | Some dir => Some (String c dir)
      | None => if Ascii.eqb c (Ascii.ascii_of_byte "/") then Some EmptyString else None
      end
  end.

(** [Dir]: all but the last element of [path]; ["."] when there is no
    separator and ["/"] for a file in the root. The cleaning of the result
    ([Clean]) is left out. *)
Definition Dir (path : string) : string :=
  match beforeLastSeparator path with
  | None => "."
  | Some EmptyString => "/"
  | Some dir => dir
  end.

End filepath.

Module os.

(** The file system, as far as the program sees it: the contents of the
    files by path, and the paths at which nothing can be created or written
    (a directory that cannot be made, a file that cannot be opened for
    writing). *)
Record FileSystem := {
  files : gmap string (list byte);
  readOnly : gset string;
}.

(** The file system once [data] is the content of the file [name]. *)
Definition withFile (fs : FileSystem) (name : string) (data : list byte) : FileSystem :=
  {| files := <[name := data]> (files fs); readOnly := readOnly fs |}.

Definition ReadFile (fs : FileSystem) (name : string) : list byte + error :=
  match files fs !! name with
  | Some data => inl data
  | None => inr (PathError "open" name)
  end.

Definition MkdirAll (fs : FileSystem) (path : string) : option error * FileSystem :=
  if bool_decide (path ∈ readOnly fs) then (Some (PathError "mkdir" path), fs)
  else (None, fs).

Definition WriteFile (fs : FileSystem) (name : string) (data : list byte)
  : option error * FileSystem :=
  if bool_decide (name ∈ readOnly fs) then (Some (PathError "open" name), fs)
  else (None, withFile fs name data).

(** [Stat], as far as its error goes: it fails for a path with no file. *)
Definition Stat (fs : FileSystem) (name : string) : option error :=
  match files fs !! name with
  | Some _ => None
  | None => Some (PathError "stat" name)
  end.

(** [IsNotExist]: of the errors of this file system, the one [Stat]
    returns says that the file does not exist. *)
Definition IsNotExist (err : option error) : bool :=
  match err with
  | Some (PathError op _) => String.eqb op "stat"
  | _ => false
  end.

End os.

(** ** Package [i2pkeys] *)

(** [var i2pB64Encoding = base64.NewEncoding("ABC...789-~")] *)
Definition i2pB64Encoding : base64.Encoding :=
  base64.NewEncoding
    (go "ABCDEFGHIJKLMNOPQRSTUVWXYZabcdefghijklmnopqrstuvwxyz0123456789-~").

(** [toI2PBase64] *)
Definition toI2PBase64 (data : list byte) : gostring :=
  base64.EncodeToString i2pB64Encoding data.

(** [fromI2PBase64] *)
Definition fromI2PBase64 (i2pBase64 : gostring)
  : list byte * option base64.CorruptInputError :=
  base64.DecodeString i2pB64Encoding i2pBase64.

(** The character test of [isI2PBase64Format] and [cleanI2PBase64]. *)
Definition isI2PBase64Rune (r : Z) : bool :=
  ((u8 "A" <=? r) && (r <=? u8 "Z"))
  || ((u8 "a" <=? r) && (r <=? u8 "z"))
  || ((u8 "0" <=? r) && (r <=? u8 "9"))
  || (r =? u8 "-") || (r =? u8 "~") || (r =? u8 "=").

(** [isI2PBase64Format] *)
Definition isI2PBase64Format (data : gostring) : bool :=
  let data := strings.TrimSpace data in
  match data with
  | [] => false
  | _ :: _ =>
      if negb (utf8.rangeAll (length data) isI2PBase64Rune data) then false
      else
        let '(_, err) := fromI2PBase64 data in
        match err with
        | None => true
        | Some _ => false
        end
  end.

(** [IsCorrectFormat] *)
Definition IsCorrectFormat (data : gostring) : bool :=
  let lines := strings.Split (strings.TrimSpace data) x0a in
  if negb (length lines =? 2)%nat then false
  else isI2PBase64Format (nth 0 lines []) && isI2PBase64Format (nth 1 lines []).

Definition errTooShort : error :=
  errorString "key data too short to extract public key portion".

(** [ConvertKeyFile]: the error returned and the file system it leaves.
    [formattedOutput] is the text the three branches assign, or the error
    two of them return at once. *)
Definition ConvertKeyFile (fs : os.FileSystem) (inputPath outputPath : string)
  : option error * os.FileSystem :=
  match os.ReadFile fs inputPath with
  | inr err => (Some (wrapError "failed to read key file" err), fs)
  | inl data =>
      if IsCorrectFormat data then
        let outputDir := filepath.Dir outputPath in
        match os.MkdirAll fs outputDir with
        | (Some err, fs) => (Some (wrapError "failed to create output directory" err), fs)
        | (None, fs) =>
            match os.WriteFile fs outputPath data with
            | (Some err, fs) => (Some (wrapError "failed to write output file" err), fs)
            | (None, fs) => (None, fs)
            end
        end
      else
        let keyData := data in
        let formattedOutput : gostring + error :=
          if isI2PBase64Format keyData then
            let lines := strings.Split keyData x0a in
            let completeKey := nth 0 lines [] in
            if 516 <=? len completeKey then
              let publicPart := take 516 completeKey in
              inl (publicPart ++ [x0a] ++ completeKey)
            else
              let completeKey := toI2PBase64 data in
              if 516 <=? len completeKey then
                let publicPart := take 516 completeKey in
                inl (publicPart ++ [x0a] ++ completeKey)
              else inr errTooShort
          else
            let completeKey := toI2PBase64 data in
            if 516 <=? len completeKey then
              let publicPart := take 516 completeKey in
              inl (publicPart ++ [x0a] ++ completeKey)
            else inr errTooShort in
        match formattedOutput with
        | inr err => (Some err, fs)
        | inl formattedOutput =>
            let outputDir := filepath.Dir outputPath in
            match os.MkdirAll fs outputDir with
            | (Some err, fs) =>
                (Some (wrapError "failed to create output directory" err), fs)
            | (None, fs) =>
                match os.WriteFile fs outputPath formattedOutput with
                | (Some err, fs) =>
                    (Some (wrapError "failed to write output file" err), fs)
                | (None, fs) => (None, fs)
                end
            end
        end
  end.

(** ** Notions of the specification *)

(** The 64 symbols of the custom alphabet: [A-Z], [a-z], [0-9], [-], [~]. *)
Definition inAlphabet (c : byte) : bool :=
  ((u8 "A" <=? u8 c) && (u8 c <=? u8 "Z"))
  || ((u8 "a" <=? u8 c) && (u8 c <=? u8 "z"))
  || ((u8 "0" <=? u8 c) && (u8 c <=? u8 "9"))
  || Byte.eqb c "-" || Byte.eqb c "~".

Definition isPadding (c : byte) : bool := Byte.eqb c "=".

(** The accepted set of the specification: the alphabet plus [=]. *)
Definition codecSymbol (c : byte) : bool := inAlphabet c || isPadding c.

(** "contains no symbol outside the alphabet plus [=]" *)
Definition onlyCodecSymbols (text : gostring) : bool := forallb codecSymbol text.

(** "has a valid padded length": whole groups of four symbols. *)
Definition validPaddedLength (text : gostring) : bool :=
  (length text mod 4 =? 0)%nat.

(** The text from its first [=] on. *)
Fixpoint fromFirstPadding (text : gostring) : gostring :=
  match text with
  | [] => []
  | c :: text' => if isPadding c then text else fromFirstPadding text'
  end.

(** "padding is positioned at the end": from the first [=] on there is
    nothing but [=], one or two of them. *)
Definition paddingAtEnd (text : gostring) : bool :=
  forallb isPadding (fromFirstPadding text)
  && (length (fromFirstPadding text) <=? 2)%nat.

(** The three conditions of the specification's [decode] together. *)
Definition wellFormedText (text : gostring) : bool :=
  onlyCodecSymbols text && validPaddedLength text && paddingAtEnd text.

(** The text without its carriage returns and line feeds. *)
Definition stripNewlines (text : gostring) : gostring :=
  List.filter (fun c => negb (base64.isNewline c)) text.

(** [wellFormedText] for the rest of a text of which [j] symbols of the
    current group of four have been read. *)
Definition wellFormedFrom (j : nat) (text : gostring) : bool :=
  onlyCodecSymbols text && ((j + length text) mod 4 =? 0)%nat && paddingAtEnd text.

(** Whether the byte [c] occurs in [text]. *)
Definition occurs (c : byte) (text : gostring) : bool := existsb (Byte.eqb c) text.

(** A segment passes the Format Classifier: after its own trimming it is
    not empty, holds only codec symbols and decodes. *)
Definition validSegment (segment : gostring) : Prop :=
  let text := strings.TrimSpace segment in
  text <> [] /\ onlyCodecSymbols text = true /\ snd (fromI2PBase64 text) = None.

(** The first line of a text, as [ConvertKeyFile] takes it:
    [strings.Split(keyData, "\n")[0]]. *)
Definition firstLine (keyData : gostring) : gostring :=
  nth 0 (strings.Split keyData x0a) [].

(** The output file can be written: neither its directory nor the file
    itself is read-only. *)
Definition writable (fs : os.FileSystem) (outputPath : string) : bool :=
  negb (bool_decide (filepath.Dir outputPath ∈ os.readOnly fs))
  && negb (bool_decide (outputPath ∈ os.readOnly fs)).

(** The text the binary path of [ConvertKeyFile] derives from [data]: the
    whole input is encoded and split after 516 characters, or the key is
    too short. *)
Definition reencoded (data : list byte) : gostring + error :=
  let completeKey := toI2PBase64 data in
  if 516 <=? len completeKey then inl (take 516 completeKey ++ [x0a] ++ completeKey)
  else inr errTooShort.

(** What [ConvertKeyFile] makes of the bytes it has read: the text to
    write, or the error. *)
Definition formatted (data : list byte) : gostring + error :=
  if IsCorrectFormat data then inl data
  else if isI2PBase64Format data && (516 <=? len (firstLine data)) then
    inl (take 516 (firstLine data) ++ [x0a] ++ firstLine data)
  else reencoded data.

(** The end of [ConvertKeyFile]: the directory of the output is made and
    the text is written. *)
Definition store (fs : os.FileSystem) (outputPath : string) (text : gostring)
  : option error * os.FileSystem :=
  match os.MkdirAll fs (filepath.Dir outputPath) with
  | (Some err, fs) => (Some (wrapError "failed to create output directory" err), fs)
  | (None, fs) =>
      match os.WriteFile fs outputPath text with
      | (Some err, fs) => (Some (wrapError "failed to write output file" err), fs)
      | (None, fs) => (None, fs)
      end
  end.

(** ** Sample key files *)

(** Two valid encoded lines, the first longer than the second. *)
Definition twoLines : gostring := go "QUJDREVG" ++ [x0a] ++ go "QUJD".

(** One encoded line of 700 characters, no newline. *)
Definition line700 : gostring := replicate 700 "A"%byte.

(** Valid encoded text, but only 400 characters of it. *)
Definition line400 : gostring := replicate 400 "A"%byte.

(** Raw keys of 100, 385 and 387 bytes. *)
Definition raw100 : list byte := replicate 100 x00.
Definition raw385 : list byte := replicate 385 x00.
Definition raw387 : list byte := replicate 387 xff.

(** A file system holding one key file, with nothing read-only. *)
Definition onlyFile (data : list byte) : os.FileSystem :=
  {| os.files := {[ "keys.dat"%string := data ]}; os.readOnly := ∅ |}.

(** ** The rest of package [i2pkeys] *)

(** The test of [cleanI2PBase64]: the characters of [isI2PBase64Format],
    and the newline. *)
Definition keptRune (r : Z) : bool := isI2PBase64Rune r || (r =? u8 x0a).

(** The loop of [cleanI2PBase64]:
    [for _, r := range data { if ... { cleaned.WriteRune(r) } }], where
    [WriteRune] appends the encoding of [r] to the buffer [cleaned]. The
    fuel is the length of [data], as for [utf8.rangeAll]. *)
Fixpoint cleanLoop (fuel : nat) (data : gostring) (cleaned : list byte) : list byte :=
  match data, fuel with
  | [], _ | _, O => cleaned
  | _ :: _, S fuel' =>
      let '(r, size) := utf8.DecodeRuneInString data in
      cleanLoop fuel' (drop size data)
        (if keptRune r then utf8.AppendRune cleaned r else cleaned)
  end.

(** [cleanI2PBase64] *)
Definition cleanI2PBase64 (data : gostring) : gostring :=
  let data := strings.TrimSpace data in
  cleanLoop (length data) data [].

Definition errTooShortToFormat : error :=
  errorString "key data too short to format correctly".

(** [for _, line := range lines { if strings.TrimSpace(line) != "" {
    completeKey = line; break } }], with [completeKey] empty at first. *)
Fixpoint firstNonEmptyLine (lines : list gostring) : gostring :=
  match lines with
  | [] => []
  | line :: lines' =>
      match strings.TrimSpace line with
      | _ :: _ => line
      | [] => firstNonEmptyLine lines'
      end
  end.

(** [FormatKeysFile]: the error returned and the file system it leaves. *)
Definition FormatKeysFile (fs : os.FileSystem) (inputPath outputPath : string)
  : option error * os.FileSystem :=
  match os.ReadFile fs inputPath with
  | inr err => (Some (wrapError "failed to read key file" err), fs)
  | inl data =>
      if IsCorrectFormat data then
        if negb (String.eqb inputPath outputPath) then
          match os.WriteFile fs outputPath data with
          | (Some err, fs) => (Some (wrapError "failed to write output file" err), fs)
          | (None, fs) => (None, fs)
          end
        else (None, fs)
      else
        let cleanedInput := cleanI2PBase64 data in
        let lines := strings.Split cleanedInput x0a in
        let completeKey := firstNonEmptyLine lines in
        if len completeKey <? 516 then (Some errTooShortToFormat, fs)
        else
          let publicPart := take 516 completeKey in
          let formattedOutput := publicPart ++ [x0a] ++ completeKey in
          let outputDir := filepath.Dir outputPath in
          match os.MkdirAll fs outputDir with
          | (Some err, fs) =>
              (Some (wrapError "failed to create output directory" err), fs)
          | (None, fs) =>
              match os.WriteFile fs outputPath formattedOutput with
              | (Some err, fs) =>
                  (Some (wrapError "failed to write output file" err), fs)
              | (None, fs) => (None, fs)
              end
          end
  end.

(** ** Package [fmt] *)

Module fmt.

(** What is handed to [Println] and [Printf] on standard output: the string
    literals as they stand in the source, escapes unexpanded, and the
    operands; the rendering is left to the package. *)
Inductive operand :=
  | Text (s : string)
  | Bytes (s : gostring)
  | Int (n : Z)
  | Err (e : error).

Inductive call :=
  | Println (s : string)
  | Printf (format : string) (operands : list operand).

End fmt.

(** ** Package [main] *)

Module Main.

(** [truncateString]: [None] when the slice expression [s[:maxLen]] panics,
    which a negative [maxLen] makes it do. *)
Definition truncateString (s : gostring) (maxLen : Z) : option gostring :=
  if len s <=? maxLen then Some s
  else if maxLen <? 0 then None
  else Some (take (Z.to_nat maxLen) s ++ go "...").

(** The flags after [flag.Parse]. *)
Record Flags := {
  inputFile : string;
  outputFile : string;
  verbose : bool;
  checkFormat : bool;
}.

Section Paths.
(** [filepath.Base] and [filepath.Join], of a package outside this
    repository. *)
Variable Base : string -> string.
Variable Join : string -> string -> string.

(** The lines of the verbose report. *)
Definition keyInformation (resultData : gostring) : option (list fmt.call) :=
  let lines := strings.Split resultData x0a in
  if 2 <=? len lines then
    match truncateString (nth 0 lines []) 40, truncateString (nth 1 lines []) 40 with
    | Some publicKeyPreview, Some fullKeyPreview =>
        Some [ fmt.Println "\nKey Information:";
               fmt.Printf "- Destination (public key): %s...\n" [fmt.Bytes publicKeyPreview];
               fmt.Printf "- Full key length: %d characters\n" [fmt.Int (len (nth 1 lines []))];
               fmt.Printf "- Full key preview: %s...\n" [fmt.Bytes fullKeyPreview];
               fmt.Println "\nFormat: Two lines";
               fmt.Println "- Line 1: Base64-encoded destination (public key)";
               fmt.Println "- Line 2: Base64-encoded full keypair (public + private)" ]
    | _, _ => None
    end
  else Some [].

(** [main]: the exit status, what was printed on standard output and the
    file system left. What goes to standard error ([flag.Usage]) is not
    recorded; a panic ends the process with status 2. *)
Definition main (flags : Flags) (fs : os.FileSystem)
  : Z * list fmt.call * os.FileSystem :=
  if String.eqb (inputFile flags) "" then
    (1, [fmt.Println "Error: Input file (-in) is required"], fs)
  else if os.IsNotExist (os.Stat fs (inputFile flags)) then
    (1, [fmt.Printf "Error: Input file '%s' does not exist\n"
           [fmt.Text (inputFile flags)]], fs)
  else if checkFormat flags then
    match os.ReadFile fs (inputFile flags) with
    | inr err => (1, [fmt.Printf "Error reading file: %s\n" [fmt.Err err]], fs)
    | inl data =>
        if IsCorrectFormat data then
          (0, [fmt.Println "File IS in the correct two-line format"], fs)
        else (1, [fmt.Println "File is NOT in the correct two-line format"], fs)
    end
  else
    let outputFile :=
      if String.eqb (outputFile flags) "" then
        let baseName := Base (inputFile flags) in
        let dir := filepath.Dir (inputFile flags) in
        Join dir (baseName ++ ".formatted")%string
      else outputFile flags in
    let printed :=
      [ fmt.Printf "Formatting I2P key file: %s\n" [fmt.Text (inputFile flags)];
        fmt.Printf "Output file: %s\n" [fmt.Text outputFile] ] in
    match ConvertKeyFile fs (inputFile flags) outputFile with
    | (Some err, fs) => (1, printed ++ [fmt.Printf "Error: %s\n" [fmt.Err err]], fs)
    | (None, fs) =>
        match os.ReadFile fs outputFile with
        | inr err =>
            (1, printed ++ [fmt.Printf "Error reading result file: %s\n" [fmt.Err err]], fs)
        | inl resultData =>
            if IsCorrectFormat resultData then
              let printed :=
                printed
                ++ [fmt.Println "Conversion successful - key is now in the correct format"] in
              if verbose flags then
                match keyInformation resultData with
                | Some report => (0, printed ++ report, fs)
                | None => (2, printed, fs)
                end
              else (0, printed, fs)
            else
              (1, printed ++ [fmt.Println "Warning: Output file is not in the correct format"],
               fs)
        end
    end.

End Paths.

End Main.

(** ** Notions used for the rest of the code *)

(** Bytes outside ASCII. *)
Definition nonASCII (c : byte) : bool := 0x80 <=? u8 c.

(** What [strings.TrimSpace] may take away: ASCII white space, and bytes
    outside ASCII (the bytes of the other Unicode spaces). *)
Definition blank (c : byte) : bool := strings.asciiSpace c || nonASCII c.

(** The bytes [cleanI2PBase64] keeps: the codec symbols and the newline. *)
Definition keptByte (c : byte) : bool := codecSymbol c || Byte.eqb c x0a.


(** An encoded line of 700 characters with a tab in the middle. *)
Definition line700tab : gostring := replicate 300 "A"%byte ++ [x09] ++ replicate 400 "A"%byte.

(** The output path [main] works with: the one given, or the input path
    with [.formatted] added. *)
Definition outputPathOf (Base : string -> string) (Join : string -> string -> string)
  (flags : Main.Flags) : string :=
  if String.eqb (Main.outputFile flags) "" then
    Join (filepath.Dir (Main.inputFile flags)) (Base (Main.inputFile flags) ++ ".formatted")%string
  else Main.outputFile flags.

(** [filepath.Base] and [filepath.Join] for a file name without a
    separator, whose directory is [.]. *)
Definition plainBase (path : string) : string := path.
Definition plainJoin (dir file : string) : string := file.

(** Sample command lines: [-in keys.dat -v], [-in keys.dat -check] and one
    without [-in]. *)
Definition convertFlags : Main.Flags :=
  {| Main.inputFile := "keys.dat"; Main.outputFile := "";
     Main.verbose := true; Main.checkFormat := false |}.
Definition checkFlags : Main.Flags :=
  {| Main.inputFile := "keys.dat"; Main.outputFile := "";
     Main.verbose := false; Main.checkFormat := true |}.

(** The bytes decoded from a quantum on: those of the quantum and, when it
    ended without error, those of the rest of the input. *)
Definition decodedFrom (enc : base64.Encoding) (fuel : nat) (n : Z) (q : base64.quantum)
  : list byte :=
  base64.q_out q
  ++ match base64.q_err q with
     | None => fst (base64.DecodeFrom enc fuel n (base64.q_rest q) (base64.q_nsi q))
     | Some _ => []
     end.

(** * Proofs *)

(** ** Bytes and bit fields *)
Lemma u8_range b : 0 <= u8 b < 256.
Proof. unfold u8. pose proof (Byte.to_N_bounded b). lia. Qed.

Lemma byte_of_u8 b : byte_of (u8 b) = b.
Proof.
  unfold byte_of. pose proof (u8_range b).
  change 255 with (Z.ones 8). rewrite Z.land_ones by lia.
  rewrite Z.mod_small by lia. unfold u8. rewrite N2Z.id, Byte.of_to_N. reflexivity.
Qed.

Lemma u8_byte_of v : u8 (byte_of v) = v mod 256.
Proof.
  unfold byte_of. change 255 with (Z.ones 8). rewrite Z.land_ones by lia.
  change (2 ^ 8) with 256.
  pose proof (Z.mod_pos_bound v 256 ltac:(lia)).
  destruct (Byte.of_N (Z.to_N (v mod 256))) eqn:E.
  - apply Byte.to_of_N in E. unfold u8. rewrite E. lia.
  - apply Byte.of_N_None_iff in E. lia.
Qed.

Lemma land_shiftl_small hi lo k :
  0 <= k -> 0 <= lo < 2 ^ k -> Z.land (Z.shiftl hi k) lo = 0.
Proof.
  intros Hk Hlo. apply Z.bits_inj'; intros i Hi.
  rewrite Z.land_spec, Z.bits_0.
  destruct (Z.lt_ge_cases i k).
  - rewrite Z.shiftl_spec_low by lia. reflexivity.
  - destruct (Z.eq_dec lo 0) as [->|Hne].
    + rewrite Z.bits_0. apply Bool.andb_false_r.
    + rewrite (Z.bits_above_log2 lo i), Bool.andb_false_r; auto; try lia.
      apply Z.lt_le_trans with k; [apply Z.log2_lt_pow2; lia | lia].
Qed.

Lemma lor_shiftl_add hi lo k :
  0 <= k -> 0 <= lo < 2 ^ k -> Z.lor (Z.shiftl hi k) lo = hi * 2 ^ k + lo.
Proof.
  intros Hk Hlo.
  rewrite <- Z.lxor_lor, <- Z.add_nocarry_lxor, Z.shiftl_mul_pow2;
    auto using land_shiftl_small.
Qed.

Lemma pack3 a b c :
  Z.lor (Z.lor (Z.shiftl (u8 a) 16) (Z.shiftl (u8 b) 8)) (u8 c)
  = u8 a * 65536 + u8 b * 256 + u8 c.
Proof.
  pose proof (u8_range a). pose proof (u8_range b). pose proof (u8_range c).
  rewrite <- Z.lor_assoc.
  rewrite (lor_shiftl_add (u8 b) (u8 c) 8) by lia.
  rewrite lor_shiftl_add by lia. lia.
Qed.

Lemma pack4 d0 d1 d2 d3 :
  0 <= d1 < 64 -> 0 <= d2 < 64 -> 0 <= d3 < 64 ->
  Z.lor (Z.lor (Z.lor (Z.shiftl d0 18) (Z.shiftl d1 12)) (Z.shiftl d2 6)) d3
  = d0 * 262144 + d1 * 4096 + d2 * 64 + d3.
Proof.
  intros. rewrite <- !Z.lor_assoc.
  rewrite (lor_shiftl_add d2 d3 6) by lia.
  rewrite (lor_shiftl_add d1 _ 12) by lia.
  rewrite lor_shiftl_add by lia. lia.
Qed.

Lemma sextet_of v k : 0 <= k -> Z.land (Z.shiftr v k) 63 = (v / 2 ^ k) mod 64.
Proof.
  intros. rewrite Z.shiftr_div_pow2 by lia.
  change 63 with (Z.ones 6). rewrite Z.land_ones by lia. reflexivity.
Qed.

Lemma byte_of_eq v b : v mod 256 = u8 b -> byte_of v = b.
Proof.
  intros H. rewrite <- (byte_of_u8 b), <- H.
  unfold byte_of. change 255 with (Z.ones 8). rewrite !Z.land_ones by lia.
  change (2 ^ 8) with 256. rewrite Z.mod_mod by lia. reflexivity.
Qed.

Lemma u8_byte_of_small v : 0 <= v < 256 -> u8 (byte_of v) = v.
Proof. intros. rewrite u8_byte_of. apply Z.mod_small. lia. Qed.

Lemma mod64_range x : 0 <= x mod 64 < 64.
Proof. apply Z.mod_pos_bound. lia. Qed.

Lemma u8_byte_of_mod64 x : u8 (byte_of (x mod 64)) = x mod 64.
Proof. pose proof (mod64_range x). apply u8_byte_of_small. lia. Qed.

Lemma land63 v : Z.land v 63 = v mod 64.
Proof. change 63 with (Z.ones 6). rewrite Z.land_ones by lia. reflexivity. Qed.

Lemma regroup v :
  0 <= v < 16777216 ->
  (v / 262144) mod 64 * 262144 + (v / 4096) mod 64 * 4096
  + (v / 64) mod 64 * 64 + v mod 64 = v.
Proof. intros. Z.div_mod_to_equations. lia. Qed.

Lemma unpack_group a b c :
  let val := Z.lor (Z.lor (Z.shiftl (u8 a) 16) (Z.shiftl (u8 b) 8)) (u8 c) in
  base64.unpack [byte_of (Z.land (Z.shiftr val 18) 63); byte_of (Z.land (Z.shiftr val 12) 63);
                 byte_of (Z.land (Z.shiftr val 6) 63); byte_of (Z.land val 63)] 4
  = [a; b; c].
Proof.
  intros val. unfold val. rewrite pack3.
  pose proof (u8_range a). pose proof (u8_range b). pose proof (u8_range c).
  unfold base64.unpack. cbn [nth take Nat.sub].
  rewrite !sextet_of by lia. rewrite land63.
  rewrite !u8_byte_of_mod64.
  rewrite pack4 by apply mod64_range.
  change (2 ^ 18) with 262144; change (2 ^ 12) with 4096; change (2 ^ 6) with 64.
  rewrite regroup by lia.
  rewrite !Z.shiftr_div_pow2 by lia.
  change (2 ^ 16) with 65536; change (2 ^ 8) with 256; change (2 ^ 0) with 1.
  f_equal; [|f_equal; [|f_equal]]; apply byte_of_eq.
  all: Z.div_mod_to_equations; lia.
Qed.

Lemma pack2 a b :
  Z.lor (Z.shiftl (u8 a) 16) (Z.shiftl (u8 b) 8) = u8 a * 65536 + u8 b * 256.
Proof.
  pose proof (u8_range a). pose proof (u8_range b).
  rewrite (Z.shiftl_mul_pow2 (u8 b)) by lia.
  rewrite lor_shiftl_add by lia. lia.
Qed.

Lemma pack1 a : Z.shiftl (u8 a) 16 = u8 a * 65536.
Proof. rewrite Z.shiftl_mul_pow2 by lia. lia. Qed.

Ltac pow2_consts :=
  change (2 ^ 18) with 262144; change (2 ^ 16) with 65536;
  change (2 ^ 12) with 4096; change (2 ^ 8) with 256;
  change (2 ^ 6) with 64; change (2 ^ 0) with 1.

Lemma unpack_tail2 a b :
  let val := Z.lor (Z.shiftl (u8 a) 16) (Z.shiftl (u8 b) 8) in
  base64.unpack [byte_of (Z.land (Z.shiftr val 18) 63); byte_of (Z.land (Z.shiftr val 12) 63);
                 byte_of (Z.land (Z.shiftr val 6) 63)] 3
  = [a; b].
Proof.
  intros val. unfold val. rewrite pack2.
  pose proof (u8_range a). pose proof (u8_range b).
  unfold base64.unpack. cbn [nth take Nat.sub].
  change (u8 x00) with 0.
  rewrite !sextet_of by lia. rewrite !u8_byte_of_mod64.
  rewrite pack4 by (apply mod64_range || lia).
  rewrite !Z.shiftr_div_pow2 by lia. pow2_consts.
  f_equal; [|f_equal]; apply byte_of_eq.
  all: Z.div_mod_to_equations; lia.
Qed.

Lemma unpack_tail1 a :
  let val := Z.shiftl (u8 a) 16 in
  base64.unpack [byte_of (Z.land (Z.shiftr val 18) 63); byte_of (Z.land (Z.shiftr val 12) 63)] 2
  = [a].
Proof.
  intros val. unfold val. rewrite pack1.
  pose proof (u8_range a).
  unfold base64.unpack. cbn [nth take Nat.sub].
  change (u8 x00) with 0.
  rewrite !sextet_of by lia. rewrite !u8_byte_of_mod64.
  rewrite pack4 by (apply mod64_range || lia).
  rewrite !Z.shiftr_div_pow2 by lia. pow2_consts.
  f_equal; apply byte_of_eq.
  all: Z.div_mod_to_equations; lia.
Qed.

(** ** The round trip of the codec *)

Lemma idx_range v k : 0 <= k -> 0 <= Z.land (Z.shiftr v k) 63 < 64.
Proof. intros. rewrite sextet_of by lia. apply mod64_range. Qed.

Lemma idx0_range v : 0 <= Z.land v 63 < 64.
Proof. rewrite land63. apply mod64_range. Qed.

Lemma byte_of_sextet_valid i : 0 <= i < 64 -> Byte.eqb (byte_of i) xff = false.
Proof.
  intros Hi. destruct (Byte.eqb (byte_of i) xff) eqn:E; [|reflexivity].
  apply Byte.byte_dec_bl in E. apply (f_equal u8) in E.
  rewrite u8_byte_of_small in E by lia. change (u8 xff) with 255 in E. lia.
Qed.

Section RoundTrip.
Import base64.
Variable enc : Encoding.
Hypothesis sextet_symbol : forall i, 0 <= i < 64 -> sextet enc (symbol enc i) = byte_of i.
Hypothesis sextet_padding : sextet enc StdPadding = xff.

Lemma decodeQuantumFrom_symbol n i src si j dbuf :
  0 <= i < 64 -> (j < 4)%nat ->
  decodeQuantumFrom enc n (symbol enc i :: src) si j dbuf
  = decodeQuantumFrom enc n src (si + 1) (S j) (dbuf ++ [byte_of i]).
Proof.
  intros Hi Hj. cbn [decodeQuantumFrom].
  destruct (Nat.leb_spec 4 j); [lia|].
  rewrite sextet_symbol, byte_of_sextet_valid by assumption. reflexivity.
Qed.

Lemma decodeQuantum_group n i0 i1 i2 i3 src si :
  0 <= i0 < 64 -> 0 <= i1 < 64 -> 0 <= i2 < 64 -> 0 <= i3 < 64 ->
  decodeQuantum enc n (symbol enc i0 :: symbol enc i1 :: symbol enc i2 :: symbol enc i3 :: src) si
  = {| q_rest := src; q_nsi := si + 1 + 1 + 1 + 1;
       q_out := unpack [byte_of i0; byte_of i1; byte_of i2; byte_of i3] 4;
       q_err := None |}.
Proof.
  intros. unfold decodeQuantum.
  rewrite !decodeQuantumFrom_symbol by (assumption || lia).
  destruct src; reflexivity.
Qed.

Lemma decodeQuantum_tail2 n i0 i1 i2 si :
  0 <= i0 < 64 -> 0 <= i1 < 64 -> 0 <= i2 < 64 ->
  decodeQuantum enc n [symbol enc i0; symbol enc i1; symbol enc i2; StdPadding] si
  = {| q_rest := []; q_nsi := si + 1 + 1 + 1 + 1;
       q_out := unpack [byte_of i0; byte_of i1; byte_of i2] 3;
       q_err := None |}.
Proof.
  intros. unfold decodeQuantum.
  rewrite !decodeQuantumFrom_symbol by (assumption || lia).
  cbn [decodeQuantumFrom Nat.leb]. rewrite sextet_padding. reflexivity.
Qed.

Lemma decodeQuantum_tail1 n i0 i1 si :
  0 <= i0 < 64 -> 0 <= i1 < 64 ->
  decodeQuantum enc n [symbol enc i0; symbol enc i1; StdPadding; StdPadding] si
  = {| q_rest := []; q_nsi := si + 1 + 1 + 1 + 1;
       q_out := unpack [byte_of i0; byte_of i1] 2;
       q_err := None |}.
Proof.
  intros. unfold decodeQuantum.
  rewrite !decodeQuantumFrom_symbol by (assumption || lia).
  cbn [decodeQuantumFrom Nat.leb]. rewrite sextet_padding. reflexivity.
Qed.

(** Induction over a byte sequence three bytes at a time, the way
    [Encode] consumes it. *)
Lemma group3_ind (P : list byte -> Prop) :
  P [] -> (forall a, P [a]) -> (forall a b, P [a; b]) ->
  (forall a b c rest, P rest -> P (a :: b :: c :: rest)) ->
  forall l, P l.
Proof.
  intros H0 H1 H2 H3.
  fix IH 1. intros [|a [|b [|c rest]]];
    [exact H0 | apply H1 | apply H2 | apply H3, IH].
Qed.

Lemma Encode_length src : len (Encode enc src) = EncodedLen (len src).
Proof.
  unfold len, EncodedLen. induction src as [|a|a b|a b c rest IH] using group3_ind.
  - reflexivity.
  - reflexivity.
  - reflexivity.
  - cbn [Encode length].
    replace (Z.of_nat (S (S (S (length rest)))) + 2)
      with ((Z.of_nat (length rest) + 2) + 1 * 3) by lia.
    rewrite Z.div_add by lia. lia.
Qed.

Lemma DecodeFrom_Encode src : forall fuel n si,
  (length (Encode enc src) <= fuel)%nat ->
  DecodeFrom enc fuel n (Encode enc src) si = (src, None).
Proof.
  induction src as [|a|a b|a b c rest IH] using group3_ind; intros fuel n si Hfuel.
  - destruct fuel; reflexivity.
  - destruct fuel as [|fuel]; [cbn in Hfuel; lia|].
    cbn [Encode DecodeFrom].
    rewrite decodeQuantum_tail1 by (apply idx_range; lia).
    cbn [q_err q_rest q_out q_nsi]. rewrite unpack_tail1.
    destruct fuel; reflexivity.
  - destruct fuel as [|fuel]; [cbn in Hfuel; lia|].
    cbn [Encode DecodeFrom].
    rewrite decodeQuantum_tail2 by (apply idx_range; lia).
    cbn [q_err q_rest q_out q_nsi]. rewrite unpack_tail2.
    destruct fuel; reflexivity.
  - destruct fuel as [|fuel]; [cbn in Hfuel; lia|].
    cbn [Encode DecodeFrom].
    rewrite decodeQuantum_group by (apply idx_range || apply idx0_range; lia).
    cbn [q_err q_rest q_out q_nsi]. rewrite unpack_group.
    rewrite IH by (cbn [Encode length] in Hfuel; lia). reflexivity.
Qed.

Lemma DecodeString_EncodeToString src :
  DecodeString enc (EncodeToString enc src) = (src, None).
Proof. apply DecodeFrom_Encode. unfold EncodeToString. lia. Qed.

End RoundTrip.

(** ** The tables of [i2pB64Encoding] *)

Lemma i2p_sextet_symbol i :
  0 <= i < 64 ->
  base64.sextet i2pB64Encoding (base64.symbol i2pB64Encoding i) = byte_of i.
Proof.
  intros Hi.
  assert (Hall : forallb (fun k : nat =>
            Byte.eqb (base64.sextet i2pB64Encoding (base64.symbol i2pB64Encoding (Z.of_nat k)))
                     (byte_of (Z.of_nat k))) (seq 0 64) = true)
    by (vm_compute; reflexivity).
  rewrite forallb_forall in Hall.
  specialize (Hall (Z.to_nat i)). rewrite Z2Nat.id in Hall by lia.
  apply Byte.byte_dec_bl, Hall, in_seq. lia.
Qed.

Lemma i2p_symbol_inAlphabet i :
  0 <= i < 64 -> inAlphabet (base64.symbol i2pB64Encoding i) = true.
Proof.
  intros Hi.
  assert (Hall : forallb (fun k : nat =>
            inAlphabet (base64.symbol i2pB64Encoding (Z.of_nat k))) (seq 0 64) = true)
    by (vm_compute; reflexivity).
  rewrite forallb_forall in Hall.
  specialize (Hall (Z.to_nat i)). rewrite Z2Nat.id in Hall by lia.
  apply Hall, in_seq. lia.
Qed.

Lemma i2p_sextet_padding : base64.sextet i2pB64Encoding base64.StdPadding = xff.
Proof. reflexivity. Qed.

Lemma i2p_sextet_valid c :
  Byte.eqb (base64.sextet i2pB64Encoding c) xff = negb (inAlphabet c).
Proof. destruct c; vm_compute; reflexivity. Qed.

Lemma inAlphabet_plain c :
  inAlphabet c = true ->
  base64.isNewline c = false /\ isPadding c = false
  /\ strings.asciiSpace c = false /\ u8 c < 128 /\ Byte.eqb c x0a = false.
Proof. destruct c; vm_compute; intros H; try discriminate H; repeat split; reflexivity. Qed.

Lemma isPadding_eq c : isPadding c = true -> c = base64.StdPadding.
Proof. apply Byte.byte_dec_bl. Qed.

Lemma codecSymbol_rune c : isI2PBase64Rune (u8 c) = codecSymbol c.
Proof. destruct c; vm_compute; reflexivity. Qed.

(** ** When [Decode] succeeds *)

Lemma stripNewlines_cons c text :
  stripNewlines (c :: text)
  = if base64.isNewline c then stripNewlines text else c :: stripNewlines text.
Proof. unfold stripNewlines. cbn [List.filter]. destruct (base64.isNewline c); reflexivity. Qed.

Lemma skipNewlines_strip src : forall si,
  stripNewlines (fst (base64.skipNewlines src si)) = stripNewlines src.
Proof.
  induction src as [|c src IH]; intros si; [reflexivity|].
  cbn [base64.skipNewlines]. destruct (base64.isNewline c) eqn:E.
  - rewrite IH, stripNewlines_cons, E. reflexivity.
  - reflexivity.
Qed.

Lemma skipNewlines_head src : forall si c rest,
  fst (base64.skipNewlines src si) = c :: rest -> base64.isNewline c = false.
Proof.
  induction src as [|c0 src IH]; intros si c rest; cbn [base64.skipNewlines].
  - discriminate.
  - destruct (base64.isNewline c0) eqn:E; [apply IH|].
    cbn [fst]. intros [= <- _]. exact E.
Qed.

Lemma skipNewlines_length src : forall si,
  (length (fst (base64.skipNewlines src si)) <= length src)%nat.
Proof.
  induction src as [|c src IH]; intros si; cbn [base64.skipNewlines]; [reflexivity|].
  destruct (base64.isNewline c); cbn [fst length]; [specialize (IH (si + 1)); lia | lia].
Qed.

Lemma skipNewlines_nil src si :
  fst (base64.skipNewlines src si) = [] <-> stripNewlines src = [].
Proof.
  rewrite <- (skipNewlines_strip src si).
  destruct (fst (base64.skipNewlines src si)) as [|c rest] eqn:E; [tauto|].
  apply skipNewlines_head in E. rewrite stripNewlines_cons, E. split; discriminate.
Qed.

Lemma wellFormedFrom_turn text : wellFormedFrom 4 text = wellFormedFrom 0 text.
Proof.
  unfold wellFormedFrom. replace (4 + length text)%nat with (length text + 1 * 4)%nat by lia.
  rewrite Nat.Div0.mod_add. reflexivity.
Qed.

Lemma wellFormedFrom_alphabet j c text :
  inAlphabet c = true -> wellFormedFrom j (c :: text) = wellFormedFrom (S j) text.
Proof.
  intros Hc. destruct (inAlphabet_plain c Hc) as (_ & Hp & _).
  unfold wellFormedFrom, onlyCodecSymbols, paddingAtEnd, codecSymbol.
  cbn [forallb fromFirstPadding length]. rewrite Hc, Hp. cbn [orb andb].
  replace (j + S (length text))%nat with (S j + length text)%nat by lia. reflexivity.
Qed.

Lemma wellFormedFrom_other j c text :
  codecSymbol c = false -> wellFormedFrom j (c :: text) = false.
Proof.
  intros Hc. unfold wellFormedFrom, onlyCodecSymbols. cbn [forallb]. rewrite Hc. reflexivity.
Qed.

Lemma wellFormedFrom_padding j text :
  (j < 4)%nat ->
  wellFormedFrom j (base64.StdPadding :: text) = true
  <-> (j = 3%nat /\ text = []) \/ (j = 2%nat /\ text = [base64.StdPadding]).
Proof.
  intros Hj. split.
  - unfold wellFormedFrom, paddingAtEnd.
    change (fromFirstPadding (base64.StdPadding :: text)) with (base64.StdPadding :: text).
    rewrite !andb_true_iff. intros [[_ Hlen] [Hpad Htwo]].
    apply Nat.leb_le in Htwo. apply Nat.eqb_eq in Hlen.
    destruct text as [|c [|c' text]]; cbn [length] in *; try lia.
    + left. split; [|reflexivity].
      destruct j as [|[|[|[|]]]]; cbn in Hlen; (discriminate || lia || reflexivity).
    + right. cbn [forallb] in Hpad. rewrite !andb_true_iff in Hpad.
      destruct Hpad as (_ & Hc & _). apply isPadding_eq in Hc. subst c.
      split; [|reflexivity].
      destruct j as [|[|[|[|]]]]; cbn in Hlen; (discriminate || lia || reflexivity).
  - intros [[-> ->]|[-> ->]]; reflexivity.
Qed.

Ltac both_hold := cbn; split; intros; repeat split; reflexivity.

Section DecodeSucceeds.
Import base64.
Variable enc : Encoding.
Hypothesis sextet_valid : forall c, Byte.eqb (sextet enc c) xff = negb (inAlphabet c).
Variable n : Z.

Lemma snd_DecodeFrom_step fuel c src si :
snd (DecodeFrom enc (S fuel) n (c :: src) si) = None
<-> q_err (decodeQuantum enc n (c :: src) si) = None
    /\ snd (DecodeFrom enc fuel n (q_rest (decodeQuantum enc n (c :: src) si))
                       (q_nsi (decodeQuantum enc n (c :: src) si))) = None.
Proof.
cbn [DecodeFrom]. destruct (q_err (decodeQuantum enc n (c :: src) si)) as [e|].
- cbn [snd]. split; [discriminate | intros [? _]; discriminate].
- destruct (DecodeFrom enc fuel n _ _) as [out err]. cbn [snd]. tauto.
Qed.

Lemma afterPadding_succeeds fuel src si dbuf j :
q_err (afterPadding src si dbuf j) = None
/\ snd (DecodeFrom enc fuel n (q_rest (afterPadding src si dbuf j))
                   (q_nsi (afterPadding src si dbuf j))) = None
<-> stripNewlines src = [].
Proof.
unfold afterPadding. rewrite <- (skipNewlines_nil src si).
destruct (skipNewlines src si) as [src1 si1]. cbn [fst q_err q_rest q_nsi].
destruct src1.
- destruct fuel; both_hold.
- split; [intros [? _]; discriminate | discriminate].
Qed.

(** With [fuel] for the quanta that follow, a quantum entered with [j]
  sextets read goes through, and so does the rest of the input, exactly
  when the remaining text is well formed from [j] on. *)
Lemma decodeQuantumFrom_succeeds fuel :
(forall src si, (length src <= fuel)%nat ->
   snd (DecodeFrom enc fuel n src si) = None
   <-> wellFormedFrom 0 (stripNewlines src) = true) ->
forall src si j dbuf,
  (j <= 4)%nat -> (length src <= S fuel)%nat -> (j = 4%nat -> (length src <= fuel)%nat) ->
  (q_err (decodeQuantumFrom enc n src si j dbuf) = None
   /\ snd (DecodeFrom enc fuel n (q_rest (decodeQuantumFrom enc n src si j dbuf))
                      (q_nsi (decodeQuantumFrom enc n src si j dbuf))) = None)
  <-> wellFormedFrom j (stripNewlines src) = true.
Proof.
intros IHfuel. induction src as [|c src IH]; intros si j dbuf Hj Hlen Hfull.
- destruct j as [|[|[|[|[|j]]]]]; try lia; cbn.
  all: try (split; [intros [? _]; discriminate | discriminate]).
  all: destruct fuel; both_hold.
- destruct (Nat.eq_dec j 4%nat) as [->|Hj4].
  { cbn [decodeQuantumFrom Nat.leb q_err q_rest q_nsi].
    rewrite wellFormedFrom_turn, <- (IHfuel (c :: src) si) by auto.
    split; [intros [_ H]; exact H | intros H; split; [reflexivity | exact H]]. }
  assert (Hlt : (j < 4)%nat) by lia.
  cbn [decodeQuantumFrom]. destruct (Nat.leb_spec 4 j); [lia|].
  rewrite sextet_valid, negb_involutive.
  cbn [length] in Hlen.
  destruct (inAlphabet c) eqn:Hc.
  { destruct (inAlphabet_plain c Hc) as (Hnl & _).
    rewrite stripNewlines_cons, Hnl, wellFormedFrom_alphabet by assumption.
    apply IH; lia. }
  destruct (base64.isNewline c) eqn:Hnl.
  { rewrite stripNewlines_cons, Hnl. apply IH; lia. }
  rewrite stripNewlines_cons, Hnl.
  destruct (Byte.eqb c StdPadding) eqn:Hp; cbn [negb].
  2:{ rewrite wellFormedFrom_other
        by (unfold codecSymbol, isPadding; rewrite Hc; exact Hp).
      cbn. split; [intros [? _]; discriminate | discriminate]. }
  apply Byte.byte_dec_bl in Hp. subst c.
  rewrite wellFormedFrom_padding by assumption.
  destruct j as [|[|[|[|j]]]]; try lia.
  + cbn. split; [intros [? _]; discriminate | intros [[? _]|[? _]]; discriminate].
  + cbn. split; [intros [? _]; discriminate | intros [[? _]|[? _]]; discriminate].
  + pose proof (skipNewlines_strip src (si + 1)) as Hstrip.
    pose proof (skipNewlines_head src (si + 1)) as Hhead.
    destruct (skipNewlines src (si + 1)) as [src2 si2]. cbn [fst] in *.
    destruct src2 as [|c2 src3].
    * cbn. rewrite <- Hstrip. cbn.
      split; [intros [? _]; discriminate | intros [[? _]|[_ ?]]; discriminate].
    * specialize (Hhead _ _ eq_refl).
      rewrite <- Hstrip, stripNewlines_cons, Hhead.
      destruct (Byte.eqb c2 StdPadding) eqn:Hp2; cbn [negb].
      -- apply Byte.byte_dec_bl in Hp2. subst c2.
         rewrite afterPadding_succeeds.
         split; [intros ->; right; auto | intros [[? _]|[_ [= ?]]]; [discriminate | assumption]].
      -- cbn. split; [intros [? _]; discriminate|].
         intros [[? _]|[_ [= -> _]]]; [discriminate|].
         discriminate Hp2.
  + rewrite afterPadding_succeeds.
    split; [intros ->; left; auto | intros [[_ ?]|[? _]]; [assumption | discriminate]].
Qed.

Lemma DecodeFrom_succeeds fuel : forall src si,
(length src <= fuel)%nat ->
snd (DecodeFrom enc fuel n src si) = None
<-> wellFormedFrom 0 (stripNewlines src) = true.
Proof.
induction fuel as [|fuel IH]; intros src si Hlen.
- destruct src; [|cbn in Hlen; lia]. both_hold.
- destruct src as [|c src]; [both_hold|].
  rewrite snd_DecodeFrom_step. unfold decodeQuantum.
  apply decodeQuantumFrom_succeeds; auto; lia.
Qed.

End DecodeSucceeds.

Section DecodeFuel.
Import base64.
Variable enc : Encoding.
Variable n : Z.

Lemma afterPadding_rest src si dbuf j :
(length (q_rest (afterPadding src si dbuf j)) <= length src)%nat.
Proof.
unfold afterPadding. pose proof (skipNewlines_length src si) as H.
destruct (skipNewlines src si). exact H.
Qed.

Lemma decodeQuantumFrom_rest src : forall si j dbuf,
(length (q_rest (decodeQuantumFrom enc n src si j dbuf)) <= length src)%nat
/\ ((j < 4)%nat -> src <> [] ->
    (length (q_rest (decodeQuantumFrom enc n src si j dbuf)) < length src)%nat).
Proof.
induction src as [|c src IH]; intros si j dbuf.
- split; [|congruence]. cbn [decodeQuantumFrom].
  destruct (4 <=? j)%nat; [reflexivity|]. destruct j; reflexivity.
- assert (Hstep : (j < 4)%nat ->
    (length (q_rest (decodeQuantumFrom enc n (c :: src) si j dbuf)) <= length src)%nat).
  { intros Hj. cbn [decodeQuantumFrom]. destruct (Nat.leb_spec 4 j); [lia|].
    destruct (negb (Byte.eqb (sextet enc c) xff)); [apply IH|].
    destruct (isNewline c); [apply IH|].
    destruct (negb (Byte.eqb c StdPadding)); [cbn; lia|].
    destruct j as [|[|[|j]]]; try (cbn; lia).
    - pose proof (skipNewlines_length src (si + 1)) as H1.
      destruct (skipNewlines src (si + 1)) as [src2 si2]. cbn [fst] in H1.
      destruct src2 as [|c2 src3]; [cbn; lia|].
      destruct (negb (Byte.eqb c2 StdPadding)); [cbn; lia|].
      pose proof (afterPadding_rest src3 (si2 + 1) dbuf 2). cbn [length] in H1. lia.
    - apply afterPadding_rest. }
  split; [|intros Hj _; cbn [length]; specialize (Hstep Hj); lia].
  destruct (Nat.leb_spec 4 j) as [Hj|Hj]; [|cbn [length]; specialize (Hstep Hj); lia].
  cbn [decodeQuantumFrom]. destruct (Nat.leb_spec 4 j); [reflexivity | lia].
Qed.

(** The fuel given by [DecodeString] is enough: more changes nothing. *)
Lemma DecodeFrom_fuel fuel : forall fuel' src si,
(length src <= fuel)%nat -> (length src <= fuel')%nat ->
DecodeFrom enc fuel n src si = DecodeFrom enc fuel' n src si.
Proof.
induction fuel as [|fuel IH]; intros fuel' src si H1 H2.
- destruct src; [destruct fuel'; reflexivity | cbn in H1; lia].
- destruct src as [|c src]; [destruct fuel'; reflexivity|].
  destruct fuel' as [|fuel']; [cbn in H2; lia|].
  cbn [DecodeFrom]. destruct (q_err _); [reflexivity|].
  pose proof (decodeQuantumFrom_rest (c :: src) si 0 []) as [_ Hlt].
  specialize (Hlt ltac:(lia) ltac:(congruence)). fold (decodeQuantum enc n (c :: src) si) in Hlt.
  cbn [length] in *. rewrite (IH fuel') by lia. reflexivity.
Qed.

End DecodeFuel.

(** ** The text [Encode] produces *)

Lemma Encode_symbols src :
  forallb (fun c => inAlphabet c || isPadding c) (toI2PBase64 src) = true.
Proof.
  unfold toI2PBase64, base64.EncodeToString.
  induction src as [|a|a b|a b c rest IH] using group3_ind;
    cbn [base64.Encode forallb].
  - reflexivity.
  - rewrite !i2p_symbol_inAlphabet by (apply idx_range; lia). reflexivity.
  - rewrite !i2p_symbol_inAlphabet by (apply idx_range; lia). reflexivity.
  - rewrite !i2p_symbol_inAlphabet by (apply idx_range || apply idx0_range; lia).
    exact IH.
Qed.

Lemma Encode_take src : forall k,
  (3 * k <= length src)%nat ->
  take (4 * k) (toI2PBase64 src) = toI2PBase64 (take (3 * k) src).
Proof.
  unfold toI2PBase64, base64.EncodeToString.
  induction src as [|a|a b|a b c rest IH] using group3_ind; intros k Hk.
  - cbn in Hk. assert (k = 0%nat) as -> by lia. reflexivity.
  - cbn in Hk. assert (k = 0%nat) as -> by lia. reflexivity.
  - cbn in Hk. assert (k = 0%nat) as -> by lia. reflexivity.
  - destruct k as [|k]; [reflexivity|].
    replace (4 * S k)%nat with (S (S (S (S (4 * k))))) by lia.
    replace (3 * S k)%nat with (S (S (S (3 * k)))) by lia.
    cbn [base64.Encode take]. rewrite IH by (cbn [length] in Hk; lia). reflexivity.
Qed.

Lemma toI2PBase64_length src :
  len (toI2PBase64 src) = (len src + 2) / 3 * 4.
Proof. apply Encode_length. Qed.

(** ** The codec of the package *)

Lemma fromI2PBase64_toI2PBase64 data :
  fromI2PBase64 (toI2PBase64 data) = (data, None).
Proof.
  apply DecodeString_EncodeToString.
  - exact i2p_sextet_symbol.
  - exact i2p_sextet_padding.
Qed.

Lemma fromI2PBase64_succeeds text :
  snd (fromI2PBase64 text) = None <-> wellFormedText (stripNewlines text) = true.
Proof.
  unfold fromI2PBase64, base64.DecodeString.
  rewrite (DecodeFrom_succeeds i2pB64Encoding i2p_sextet_valid) by reflexivity.
  unfold wellFormedFrom, wellFormedText, validPaddedLength. reflexivity.
Qed.

(** ** Runes *)

Lemma lor_lower_l m a b : m <= a -> 0 <= a -> 0 <= b -> m <= Z.lor a b.
Proof.
  intros Hm Ha Hb. pose proof (Z.sub_lor_l_same_l b a) as H.
  assert (0 <= Z.land b (Z.lnot a)) by (apply Z.land_nonneg; auto).
  lia.
Qed.

Lemma lor_lower_r m a b : m <= b -> 0 <= a -> 0 <= b -> m <= Z.lor a b.
Proof. intros. rewrite Z.lor_comm. apply lor_lower_l; assumption. Qed.

Lemma land_low x k : 0 <= k -> Z.land x (2 ^ k - 1) = x mod 2 ^ k.
Proof. intros. rewrite <- Z.land_ones by lia. rewrite Z.ones_equiv. reflexivity. Qed.

Lemma field_range x k sh :
  0 <= k -> 0 <= sh -> 0 <= Z.shiftl (Z.land x (2 ^ k - 1)) sh.
Proof.
  intros. rewrite Z.shiftl_nonneg, land_low by lia. apply Z.mod_pos_bound. lia.
Qed.

Lemma first_cases c :
  let x := utf8.first c in
  (x = 0xF0 /\ u8 c < 0x80)
  \/ (x = 0xF1 /\ 0x80 <= u8 c)
  \/ (x = 0x02 /\ 0xC2 <= u8 c <= 0xDF)
  \/ (x = 0x13 /\ u8 c = 0xE0)
  \/ (x = 0x03 /\ 0xE1 <= u8 c <= 0xEF)
  \/ (x = 0x23 /\ u8 c = 0xED)
  \/ (x = 0x34 /\ u8 c = 0xF0)
  \/ (x = 0x04 /\ 0xF1 <= u8 c <= 0xF3)
  \/ (x = 0x44 /\ u8 c = 0xF4).
Proof.
  cbv zeta. unfold utf8.first.
  repeat match goal with
         | |- context [Z.ltb ?a ?b] => destruct (Z.ltb_spec a b)
         | |- context [Z.eqb ?a ?b] => destruct (Z.eqb_spec a b)
         end; lia.
Qed.

Lemma DecodeRuneInString_ascii c s :
  u8 c < 0x80 -> utf8.DecodeRuneInString (c :: s) = (u8 c, 1%nat).
Proof.
  intros Hc. unfold utf8.DecodeRuneInString.
  destruct (first_cases c) as [[-> _]|H]; [reflexivity|]. lia.
Qed.

Arguments u8 : simpl never.
Arguments len : simpl never.

Ltac rune_error := cbn [fst]; unfold utf8.RuneError; lia.

(** Once the class of the first byte is known, the size and the range of
    the second byte are constants. *)
Ltac first_byte_class :=
  match goal with
  | |- context [utf8.acceptRanges (Z.shiftr ?x 4)] =>
      let sz := eval vm_compute in (Z.land x 7) in
      let ar := eval vm_compute in (utf8.acceptRanges (Z.shiftr x 4)) in
      change (Z.land x 7) with sz;
      change (utf8.acceptRanges (Z.shiftr x 4)) with ar
  end;
  repeat match goal with
         | |- context [Z.leb ?a ?b] =>
             let v := eval vm_compute in (Z.leb a b) in change (Z.leb a b) with v
         | |- context [Z.odd ?a] =>
             let v := eval vm_compute in (Z.odd a) in change (Z.odd a) with v
         end;
  cbv beta iota.

Lemma field_lower x m k sh lo :
  m = 2 ^ k - 1 -> 0 <= k -> 0 <= sh -> lo <= (x mod 2 ^ k) * 2 ^ sh ->
  lo <= Z.shiftl (Z.land x m) sh.
Proof.
  intros -> Hk Hsh Hlo. rewrite Z.shiftl_mul_pow2, land_low by lia. exact Hlo.
Qed.

Lemma field_nonneg x m k sh :
  m = 2 ^ k - 1 -> 0 <= k -> 0 <= sh -> 0 <= Z.shiftl (Z.land x m) sh.
Proof. intros -> ? ?. apply field_range; assumption. Qed.

Lemma low_nonneg x m k : m = 2 ^ k - 1 -> 0 <= k -> 0 <= Z.land x m.
Proof. intros -> ?. rewrite land_low by lia. apply Z.mod_pos_bound. lia. Qed.

Ltac field_pos :=
  first [ apply (field_nonneg _ 0x3F 6); [reflexivity | lia | lia]
        | apply (field_nonneg _ 0x1F 5); [reflexivity | lia | lia]
        | apply (field_nonneg _ 0x0F 4); [reflexivity | lia | lia]
        | apply (field_nonneg _ 0x07 3); [reflexivity | lia | lia]
        | apply (low_nonneg _ 0x3F 6); [reflexivity | lia]
        | apply Z.lor_nonneg; split; field_pos ].

(** A sequence that does not start with an ASCII byte decodes to a rune
    outside ASCII: a code point from [0x80] up, or [RuneError]. *)
Lemma DecodeRuneInString_not_ascii c s :
  0x80 <= u8 c -> 0x80 <= fst (utf8.DecodeRuneInString (c :: s)).
Proof.
  intros Hc. unfold utf8.DecodeRuneInString.
  pose proof (u8_range c) as Hr.
  destruct (first_cases c)
    as [[Hx H]|[[Hx H]|[[Hx H]|[[Hx H]|[[Hx H]|[[Hx H]|[[Hx H]|[[Hx H]|[Hx H]]]]]]]]];
    cbv zeta in Hx; rewrite Hx; try lia.
  - first_byte_class. rune_error.
  - (* two bytes *)
    first_byte_class.
    destruct (len (c :: s) <? 2); [rune_error|].
    destruct s as [|s1 s]; [rune_error|].
    destruct (utf8.outside _ _ s1); [rune_error|]. cbn [fst].
    apply lor_lower_l; [|field_pos|field_pos].
    apply (field_lower _ 0x1F 5); [reflexivity|lia|lia|].
    change (2 ^ 5) with 32. change (2 ^ 6) with 64. Z.div_mod_to_equations. lia.
  - (* three bytes, first byte E0 *)
    first_byte_class.
    destruct (len (c :: s) <? 3); [rune_error|].
    destruct s as [|s1 s]; [rune_error|].
    destruct (utf8.outside _ _ s1) eqn:Hs1; [rune_error|].
    destruct s as [|s2 s]; [rune_error|].
    destruct (utf8.outside _ _ s2); [rune_error|]. cbn [fst].
    unfold utf8.outside in Hs1. apply orb_false_iff in Hs1 as [H1 H2].
    apply Z.ltb_ge in H1, H2. pose proof (u8_range s1).
    apply lor_lower_l; [|field_pos|field_pos].
    apply lor_lower_r; [|field_pos|field_pos].
    apply (field_lower _ 0x3F 6); [reflexivity|lia|lia|].
    change (2 ^ 6) with 64. Z.div_mod_to_equations. lia.
  - (* three bytes *)
    first_byte_class.
    destruct (len (c :: s) <? 3); [rune_error|].
    destruct s as [|s1 s]; [rune_error|].
    destruct (utf8.outside _ _ s1); [rune_error|].
    destruct s as [|s2 s]; [rune_error|].
    destruct (utf8.outside _ _ s2); [rune_error|]. cbn [fst].
    apply lor_lower_l; [|field_pos|field_pos].
    apply lor_lower_l; [|field_pos|field_pos].
    apply (field_lower _ 0x0F 4); [reflexivity|lia|lia|].
    change (2 ^ 4) with 16. change (2 ^ 12) with 4096. Z.div_mod_to_equations. lia.
  - (* three bytes, first byte ED *)
    first_byte_class.
    destruct (len (c :: s) <? 3); [rune_error|].
    destruct s as [|s1 s]; [rune_error|].
    destruct (utf8.outside _ _ s1); [rune_error|].
    destruct s as [|s2 s]; [rune_error|].
    destruct (utf8.outside _ _ s2); [rune_error|]. cbn [fst].
    apply lor_lower_l; [|field_pos|field_pos].
    apply lor_lower_l; [|field_pos|field_pos].
    apply (field_lower _ 0x0F 4); [reflexivity|lia|lia|].
    change (2 ^ 4) with 16. change (2 ^ 12) with 4096. Z.div_mod_to_equations. lia.
  - (* four bytes, first byte F0 *)
    first_byte_class.
    destruct (len (c :: s) <? 4); [rune_error|].
    destruct s as [|s1 s]; [rune_error|].
    destruct (utf8.outside _ _ s1) eqn:Hs1; [rune_error|].
    destruct s as [|s2 s]; [rune_error|].
    destruct (utf8.outside _ _ s2); [rune_error|].
    destruct s as [|s3 s]; [rune_error|].
    destruct (utf8.outside _ _ s3); [rune_error|]. cbn [fst].
    unfold utf8.outside in Hs1. apply orb_false_iff in Hs1 as [H1 H2].
    apply Z.ltb_ge in H1, H2. pose proof (u8_range s1).
    apply lor_lower_l; [|field_pos|field_pos].
    apply lor_lower_l; [|field_pos|field_pos].
    apply lor_lower_r; [|field_pos|field_pos].
    apply (field_lower _ 0x3F 6); [reflexivity|lia|lia|].
    change (2 ^ 6) with 64. change (2 ^ 12) with 4096. Z.div_mod_to_equations. lia.
  - (* four bytes *)
    first_byte_class.
    destruct (len (c :: s) <? 4); [rune_error|].
    destruct s as [|s1 s]; [rune_error|].
    destruct (utf8.outside _ _ s1); [rune_error|].
    destruct s as [|s2 s]; [rune_error|].
    destruct (utf8.outside _ _ s2); [rune_error|].
    destruct s as [|s3 s]; [rune_error|].
    destruct (utf8.outside _ _ s3); [rune_error|]. cbn [fst].
    apply lor_lower_l; [|field_pos|field_pos].
    apply lor_lower_l; [|field_pos|field_pos].
    apply lor_lower_l; [|field_pos|field_pos].
    apply (field_lower _ 0x07 3); [reflexivity|lia|lia|].
    change (2 ^ 3) with 8. change (2 ^ 18) with 262144. Z.div_mod_to_equations. lia.
  - (* four bytes, first byte F4 *)
    first_byte_class.
    destruct (len (c :: s) <? 4); [rune_error|].
    destruct s as [|s1 s]; [rune_error|].
    destruct (utf8.outside _ _ s1); [rune_error|].
    destruct s as [|s2 s]; [rune_error|].
    destruct (utf8.outside _ _ s2); [rune_error|].
    destruct s as [|s3 s]; [rune_error|].
    destruct (utf8.outside _ _ s3); [rune_error|]. cbn [fst].
    apply lor_lower_l; [|field_pos|field_pos].
    apply lor_lower_l; [|field_pos|field_pos].
    apply lor_lower_l; [|field_pos|field_pos].
    apply (field_lower _ 0x07 3); [reflexivity|lia|lia|].
    change (2 ^ 3) with 8. change (2 ^ 18) with 262144. Z.div_mod_to_equations. lia.
Qed.

Lemma isI2PBase64Rune_not_ascii r : 0x80 <= r -> isI2PBase64Rune r = false.
Proof.
  intros Hr. unfold isI2PBase64Rune.
  change (u8 "A") with 65; change (u8 "Z") with 90; change (u8 "a") with 97;
  change (u8 "z") with 122; change (u8 "0") with 48; change (u8 "9") with 57;
  change (u8 "-") with 45; change (u8 "~") with 126; change (u8 "=") with 61.
  repeat match goal with
         | |- context [Z.leb ?a ?b] => destruct (Z.leb_spec a b)
         | |- context [Z.eqb ?a ?b] => destruct (Z.eqb_spec a b)
         end; try reflexivity; lia.
Qed.

(** The rune loop of [isI2PBase64Format] accepts a text exactly when every
    byte of it is a symbol of the alphabet or [=]. *)
Lemma rangeAll_codecSymbols fuel : forall s,
  (length s <= fuel)%nat ->
  utf8.rangeAll fuel isI2PBase64Rune s = onlyCodecSymbols s.
Proof.
  induction fuel as [|fuel IH]; intros s Hlen.
  - destruct s; [reflexivity | cbn in Hlen; lia].
  - destruct s as [|c s]; [reflexivity|].
    cbn [utf8.rangeAll]. unfold onlyCodecSymbols. cbn [forallb].
    rewrite <- codecSymbol_rune.
    destruct (Z.lt_ge_cases (u8 c) 0x80) as [Hc|Hc].
    + rewrite DecodeRuneInString_ascii by assumption.
      change (drop 1 (c :: s)) with s.
      rewrite IH by (cbn [length] in Hlen; lia). reflexivity.
    + pose proof (DecodeRuneInString_not_ascii c s Hc) as Hr.
      destruct (utf8.DecodeRuneInString (c :: s)) as [r size]. cbn [fst] in Hr.
      rewrite !isI2PBase64Rune_not_ascii by assumption. reflexivity.
Qed.

(** ** [strings.TrimSpace] and [strings.Split] *)

Lemma codecSymbol_plain c :
  codecSymbol c = true ->
  (utf8.RuneSelf <=? u8 c) = false /\ strings.asciiSpace c = false
  /\ Byte.eqb x0a c = false.
Proof. destruct c; vm_compute; intros H; try discriminate H; repeat split; reflexivity. Qed.

Lemma forallb_last {A} (p : A -> bool) (s : list A) c :
  forallb p s = true -> last s = Some c -> p c = true.
Proof.
  induction s as [|a s IH]; [discriminate|].
  cbn [forallb]. intros [Ha Hs]%andb_true_iff.
  destruct s as [|b s]; [intros [= <-]; exact Ha|].
  intros Hl. apply IH; assumption.
Qed.

Lemma last_cons_is_Some {A} (a : A) (s : list A) : exists c, last (a :: s) = Some c.
Proof.
  revert a. induction s as [|b s IH]; intros a; [exists a; reflexivity|].
  destruct (IH b) as [c Hc]. exists c. exact Hc.
Qed.

(** A text that begins and ends with codec symbols has nothing to trim. *)
Lemma TrimSpace_codecSymbols s :
  onlyCodecSymbols s = true -> strings.TrimSpace s = s.
Proof.
  intros Hs. destruct s as [|c s]; [reflexivity|].
  unfold strings.TrimSpace. cbn [strings.trimLeft].
  pose proof Hs as Hc. unfold onlyCodecSymbols in Hc. cbn [forallb] in Hc.
  apply andb_true_iff in Hc as [Hc _].
  destruct (codecSymbol_plain c Hc) as (-> & -> & _).
  cbn [length strings.trimRight].
  destruct (last_cons_is_Some c s) as [c' Hlast]. rewrite Hlast.
  destruct (codecSymbol_plain c' (forallb_last _ _ _ Hs Hlast)) as (-> & -> & _).
  reflexivity.
Qed.

Lemma onlyCodecSymbols_occurs s : onlyCodecSymbols s = true -> occurs x0a s = false.
Proof.
  induction s as [|c s IH]; [reflexivity|].
  unfold onlyCodecSymbols, occurs. cbn [forallb existsb].
  intros [Hc Hs]%andb_true_iff.
  destruct (codecSymbol_plain c Hc) as (_ & _ & ->). apply IH, Hs.
Qed.

Lemma Split_not_nil s sep : strings.Split s sep <> [].
Proof.
  destruct s as [|c s]; cbn [strings.Split]; [discriminate|].
  destruct (Byte.eqb c sep); [discriminate|].
  destruct (strings.Split s sep); discriminate.
Qed.

Lemma Split_whole s sep : occurs sep s = false -> strings.Split s sep = [s].
Proof.
  induction s as [|c s IH]; [reflexivity|].
  unfold occurs. cbn [existsb strings.Split]. intros [Hc Hs]%orb_false_iff.
  assert (Byte.eqb c sep = false) as ->.
  { destruct (Byte.eqb c sep) eqn:E; [|reflexivity].
    apply Byte.byte_dec_bl in E. subst. rewrite <- Hc. symmetry.
    apply Byte.byte_dec_lb. reflexivity. }
  rewrite (IH Hs). reflexivity.
Qed.

Lemma Split_app a b sep :
  occurs sep a = false ->
  strings.Split (a ++ sep :: b) sep = a :: strings.Split b sep.
Proof.
  induction a as [|c a IH]; intros Ha.
  - cbn [app strings.Split]. rewrite (Byte.byte_dec_lb eq_refl). reflexivity.
  - unfold occurs in Ha. cbn [existsb] in Ha. apply orb_false_iff in Ha as [Hc Ha].
    cbn [app strings.Split].
    assert (Byte.eqb c sep = false) as ->.
    { destruct (Byte.eqb c sep) eqn:E; [|reflexivity].
      apply Byte.byte_dec_bl in E. subst. rewrite <- Hc. symmetry.
      apply Byte.byte_dec_lb. reflexivity. }
    rewrite (IH Ha). reflexivity.
Qed.

(** The first piece is a prefix of the text, free of the separator. *)
Lemma Split_first s sep :
  exists rest,
    s = nth 0 (strings.Split s sep) [] ++ rest
    /\ occurs sep (nth 0 (strings.Split s sep) []) = false.
Proof.
  induction s as [|c s (rest & IH & Hfree)]; [exists []; split; reflexivity|].
  cbn [strings.Split]. destruct (Byte.eqb c sep) eqn:E.
  - exists (c :: s). split; reflexivity.
  - pose proof (Split_not_nil s sep) as Hne.
    destruct (strings.Split s sep) as [|piece pieces]; [congruence|].
    cbn [nth] in *. exists rest. split; [cbn [app]; congruence|].
    unfold occurs in *. cbn [existsb]. rewrite Hfree, orb_false_r.
    destruct (Byte.eqb sep c) eqn:E'; [|reflexivity].
    apply Byte.byte_dec_bl in E'. subst. rewrite <- E. symmetry.
    apply Byte.byte_dec_lb. reflexivity.
Qed.

Lemma occurs_take c k s : occurs c s = false -> occurs c (take k s) = false.
Proof.
  revert k. induction s as [|a s IH]; intros [|k] H; try reflexivity.
  unfold occurs in *. cbn [take existsb] in *.
  apply orb_false_iff in H as [-> H]. apply IH, H.
Qed.

(** ** The loops over runes end *)

Lemma DecodeRuneInString_width c s :
  (1 <= snd (utf8.DecodeRuneInString (c :: s)))%nat.
Proof.
  unfold utf8.DecodeRuneInString.
  repeat match goal with
         | |- context [if ?b then _ else _] => destruct b
         | |- context [let '(_, _) := ?p in _] => destruct p
         | |- context [match ?l with [] => _ | _ :: _ => _ end] => destruct l
         end; cbn [snd]; lia.
Qed.

Lemma backToStart_le fuel s : forall start lim,
  utf8.backToStart fuel s start lim <= start.
Proof.
  induction fuel as [|fuel IH]; intros start lim; cbn [utf8.backToStart]; [lia|].
  destruct (start <? lim); [lia|]. destruct (utf8.RuneStart _); [lia|].
  specialize (IH (start - 1) lim). lia.
Qed.

Lemma DecodeLastRuneInString_width c s :
  (1 <= snd (utf8.DecodeLastRuneInString (c :: s)))%nat.
Proof.
  unfold utf8.DecodeLastRuneInString.
  assert (Hlen : len (c :: s) = Z.of_nat (length s) + 1)
    by (unfold len; cbn [length]; lia).
  assert ((len (c :: s) =? 0) = false) as -> by (apply Z.eqb_neq; lia).
  cbv zeta.
  destruct (_ <? utf8.RuneSelf); [cbn [snd]; lia|].
  pose proof (backToStart_le 4 (c :: s) (len (c :: s) - 1 - 1)
                (Z.max 0 (len (c :: s) - utf8.UTFMax))) as Hback.
  set (start := Z.max 0 (utf8.backToStart _ _ _ _)) in *.
  destruct (drop (Z.to_nat start) (c :: s)) as [|c' s'] eqn:E.
  - apply (f_equal length) in E. rewrite length_drop in E. cbn [length] in E. lia.
  - pose proof (DecodeRuneInString_width c' s') as Hw.
    destruct (utf8.DecodeRuneInString (c' :: s')) as [r size]. cbn [snd] in Hw.
    destruct (negb _); cbn [snd]; lia.
Qed.

Lemma TrimLeftSpace_fuel fuel : forall fuel' s,
  (length s <= fuel)%nat -> (length s <= fuel')%nat ->
  strings.TrimLeftSpace fuel s = strings.TrimLeftSpace fuel' s.
Proof.
  induction fuel as [|fuel IH]; intros fuel' s H1 H2.
  - destruct s; [destruct fuel'; reflexivity | cbn [length] in H1; lia].
  - destruct s as [|c s]; [destruct fuel'; reflexivity|].
    destruct fuel' as [|fuel']; [cbn [length] in H2; lia|].
    cbn [strings.TrimLeftSpace].
    pose proof (DecodeRuneInString_width c s) as Hw.
    destruct (utf8.DecodeRuneInString (c :: s)) as [r size]. cbn [snd] in Hw.
    destruct (unicode.IsSpace r); [|reflexivity].
    apply IH; rewrite length_drop; cbn [length] in *; lia.
Qed.

Lemma lastIndexNotSpace_fuel fuel : forall fuel' s,
  (length s <= fuel)%nat -> (length s <= fuel')%nat ->
  strings.lastIndexNotSpace fuel s = strings.lastIndexNotSpace fuel' s.
Proof.
  induction fuel as [|fuel IH]; intros fuel' s H1 H2.
  - destruct s; [destruct fuel'; reflexivity | cbn [length] in H1; lia].
  - destruct s as [|c s]; [destruct fuel'; reflexivity|].
    destruct fuel' as [|fuel']; [cbn [length] in H2; lia|].
    cbn [strings.lastIndexNotSpace].
    pose proof (DecodeLastRuneInString_width c s) as Hw.
    destruct (utf8.DecodeLastRuneInString (c :: s)) as [r size]. cbn [snd] in Hw.
    destruct (negb (unicode.IsSpace r)); [reflexivity|].
    apply IH; rewrite length_take; unfold len; cbn [length] in *; lia.
Qed.

Lemma trimRight_fuel fuel : forall fuel' s,
  (length s <= fuel)%nat -> (length s <= fuel')%nat ->
  strings.trimRight fuel s = strings.trimRight fuel' s.
Proof.
  induction fuel as [|fuel IH]; intros fuel' s H1 H2.
  - destruct s; [destruct fuel'; reflexivity | cbn [length] in H1; lia].
  - destruct fuel' as [|fuel'].
    { destruct s; [reflexivity | cbn [length] in H2; lia]. }
    cbn [strings.trimRight]. destruct (last s) as [c|] eqn:El; [|reflexivity].
    destruct (utf8.RuneSelf <=? u8 c); [reflexivity|].
    destruct (strings.asciiSpace c); [|reflexivity].
    assert (length (removelast s) < length s)%nat.
    { destruct s as [|a s]; [discriminate|].
      rewrite (app_removelast_last a (l := a :: s)) at 2 by discriminate.
      rewrite length_app. cbn [length]. lia. }
    apply IH; lia.
Qed.

Lemma TrimSpace_plain_ends c s c' :
  codecSymbol c = true -> last (c :: s) = Some c' -> codecSymbol c' = true ->
  strings.TrimSpace (c :: s) = c :: s.
Proof.
  intros Hc Hlast Hc'. unfold strings.TrimSpace. cbn [strings.trimLeft].
  destruct (codecSymbol_plain c Hc) as (-> & -> & _).
  cbn [length strings.trimRight]. rewrite Hlast.
  destruct (codecSymbol_plain c' Hc') as (-> & -> & _). reflexivity.
Qed.

(** ** The Format Classifier and the validator *)

Lemma isI2PBase64Format_iff data :
  isI2PBase64Format data = true <-> validSegment data.
Proof.
  unfold isI2PBase64Format, validSegment. cbv zeta.
  destruct (strings.TrimSpace data) as [|c text] eqn:E.
  - split; [discriminate | intros [H _]; congruence].
  - rewrite rangeAll_codecSymbols by reflexivity.
    destruct (onlyCodecSymbols (c :: text)); cbn [negb].
    + destruct (fromI2PBase64 (c :: text)) as [out [err|]]; cbn [snd].
      * split; [discriminate | intros (_ & _ & H); discriminate].
      * split; [intros _; repeat split; congruence | reflexivity].
    + split; [discriminate | intros (_ & H & _); discriminate].
Qed.

Lemma isI2PBase64Format_encoded text :
  text <> [] -> onlyCodecSymbols text = true -> snd (fromI2PBase64 text) = None ->
  isI2PBase64Format text = true.
Proof.
  intros Hne Hsym Hdec. apply isI2PBase64Format_iff. unfold validSegment.
  rewrite TrimSpace_codecSymbols by assumption. auto.
Qed.

Lemma toI2PBase64_bound data : len data <= len (toI2PBase64 data).
Proof.
  rewrite toI2PBase64_length. unfold len.
  pose proof (Nat2Z.is_nonneg (length data)). Z.div_mod_to_equations. lia.
Qed.

Lemma toI2PBase64_threshold data :
  516 <= len (toI2PBase64 data) <-> 385 <= len data.
Proof.
  rewrite toI2PBase64_length. unfold len.
  pose proof (Nat2Z.is_nonneg (length data)). Z.div_mod_to_equations. lia.
Qed.

Lemma firstLine_bound keyData : len (firstLine keyData) <= len keyData.
Proof.
  unfold firstLine. destruct (Split_first keyData x0a) as (rest & Hs & _).
  rewrite Hs at 2. unfold len. rewrite length_app. lia.
Qed.

(** ** [ConvertKeyFile], step by step *)

Lemma ConvertKeyFile_read fs inputPath outputPath data :
  os.files fs !! inputPath = Some data ->
  ConvertKeyFile fs inputPath outputPath
  = match formatted data with
    | inl text => store fs outputPath text
    | inr err => (Some err, fs)
    end.
Proof.
  intros Hread. unfold ConvertKeyFile, os.ReadFile, formatted, reencoded, store.
  rewrite Hread. cbv zeta. fold (firstLine data).
  destruct (IsCorrectFormat data); [reflexivity|].
  destruct (isI2PBase64Format data); cbn [andb].
  - destruct (516 <=? len (firstLine data)); [reflexivity|].
    destruct (516 <=? len (toI2PBase64 data)); reflexivity.
  - destruct (516 <=? len (toI2PBase64 data)); reflexivity.
Qed.

Lemma store_writable fs outputPath text :
  writable fs outputPath = true ->
  store fs outputPath text = (None, os.withFile fs outputPath text).
Proof.
  unfold writable, store, os.MkdirAll, os.WriteFile.
  intros [Hdir Hfile]%andb_true_iff.
  apply negb_true_iff in Hdir, Hfile. rewrite Hdir, Hfile. reflexivity.
Qed.

Lemma store_succeeds fs fs' outputPath text :
  store fs outputPath text = (None, fs') ->
  fs' = os.withFile fs outputPath text /\ writable fs outputPath = true.
Proof.
  unfold writable, store, os.MkdirAll, os.WriteFile.
  destruct (bool_decide (filepath.Dir outputPath ∈ os.readOnly fs)); [discriminate|].
  destruct (bool_decide (outputPath ∈ os.readOnly fs)); [discriminate|].
  intros [= <-]. split; reflexivity.
Qed.

Lemma formatted_canonical data :
  IsCorrectFormat data = true -> formatted data = inl data.
Proof. intros H. unfold formatted. rewrite H. reflexivity. Qed.

Lemma formatted_line data :
  IsCorrectFormat data = false -> isI2PBase64Format data = true ->
  516 <= len (firstLine data) ->
  formatted data = inl (take 516 (firstLine data) ++ [x0a] ++ firstLine data).
Proof.
  intros H1 H2 H3%Z.leb_le. unfold formatted. rewrite H1, H2, H3. reflexivity.
Qed.

Lemma formatted_reencoded data :
  IsCorrectFormat data = false ->
  isI2PBase64Format data = false \/ len (firstLine data) < 516 ->
  formatted data = reencoded data.
Proof.
  intros H1 H2. unfold formatted. rewrite H1.
  destruct H2 as [->|H2%Z.leb_gt]; [reflexivity|].
  rewrite H2, andb_false_r. reflexivity.
Qed.

(** ** The text the binary path writes *)

Lemma take_516_decodes data :
  516 <= len (toI2PBase64 data) ->
  snd (fromI2PBase64 (take 516 (toI2PBase64 data))) = None.
Proof.
  intros H. destruct (Z.lt_ge_cases (len data) 387) as [Hshort|Hlong].
  - assert (len (toI2PBase64 data) = 516) as Hlen.
    { apply toI2PBase64_threshold in H. rewrite toI2PBase64_length in *.
      unfold len in *. Z.div_mod_to_equations. lia. }
    rewrite take_ge by (unfold len in Hlen; lia).
    rewrite fromI2PBase64_toI2PBase64. reflexivity.
  - change 516%nat with (4 * 129)%nat.
    rewrite Encode_take by (unfold len in Hlong; lia).
    rewrite fromI2PBase64_toI2PBase64. reflexivity.
Qed.

Lemma forallb_take {A} (p : A -> bool) k (s : list A) :
  forallb p s = true -> forallb p (take k s) = true.
Proof.
  revert k. induction s as [|a s IH]; intros [|k] H; try reflexivity.
  cbn [take forallb] in *. apply andb_true_iff in H as [-> H]. apply IH, H.
Qed.

Lemma reencoded_text_canonical data :
  516 <= len (toI2PBase64 data) ->
  IsCorrectFormat (take 516 (toI2PBase64 data) ++ [x0a] ++ toI2PBase64 data) = true.
Proof.
  intros H. set (key := toI2PBase64 data) in *.
  assert (Hsym : onlyCodecSymbols key = true) by apply Encode_symbols.
  assert (Hpub : onlyCodecSymbols (take 516 key) = true) by (apply forallb_take, Hsym).
  assert (Hklen : (516 <= length key)%nat) by (unfold len in H; lia).
  assert (Hplen : length (take 516 key) = 516%nat) by (rewrite length_take; lia).
  assert (Hkne : key <> []) by (intros E; rewrite E in Hklen; cbn in Hklen; lia).
  assert (Hpne : take 516 key <> []) by (intros E; rewrite E in Hplen; discriminate).
  unfold IsCorrectFormat.
  assert (strings.TrimSpace (take 516 key ++ [x0a] ++ key) = take 516 key ++ [x0a] ++ key)
    as ->.
  { destruct (take 516 key) as [|c pub] eqn:Epub; [congruence|].
    destruct key as [|k0 key'] eqn:Ekey; [congruence|].
    destruct (last_cons_is_Some k0 key') as [c' Hlast].
    cbn [app]. apply (TrimSpace_plain_ends c _ c').
    - unfold onlyCodecSymbols in Hpub. cbn [forallb] in Hpub.
      apply andb_true_iff in Hpub as [Hc _]. exact Hc.
    - change (c :: pub ++ x0a :: k0 :: key') with ((c :: pub) ++ x0a :: k0 :: key').
      rewrite last_app. change (last (x0a :: k0 :: key')) with (last (k0 :: key')).
      rewrite Hlast. reflexivity.
    - exact (forallb_last _ _ _ Hsym Hlast). }
  cbn [app]. rewrite Split_app by (apply onlyCodecSymbols_occurs, Hpub).
  rewrite Split_whole by (apply onlyCodecSymbols_occurs, Hsym).
  cbn [length Nat.eqb negb nth].
  rewrite !isI2PBase64Format_encoded; auto.
  - unfold key. rewrite fromI2PBase64_toI2PBase64. reflexivity.
  - apply take_516_decodes, H.
Qed.

(** A text that passes the Format Classifier as a whole has no newline
    left once trimmed, so it never is in the two-line format. *)
Lemma classified_not_canonical data :
  isI2PBase64Format data = true -> IsCorrectFormat data = false.
Proof.
  intros (_ & Hsym & _)%isI2PBase64Format_iff. unfold IsCorrectFormat. cbv zeta.
  rewrite Split_whole by (apply onlyCodecSymbols_occurs, Hsym). reflexivity.
Qed.

(** * The properties of the specification *)

(** C1. Decoding the encoding of any byte sequence [b], the empty one
    included, succeeds and gives back exactly [b]. *)
Theorem fromI2PBase64_roundtrip (b : list byte) :
  fromI2PBase64 (toI2PBase64 b) = (b, None).
Proof. apply fromI2PBase64_toI2PBase64. Qed.

(** C2, as stated, fails: a text that holds a line feed, which is no codec
    symbol, still decodes. *)
Lemma fromI2PBase64_skips_newline :
  fromI2PBase64 (go "QUJD" ++ [x0a]) = (go "ABC", None)
  /\ onlyCodecSymbols (go "QUJD" ++ [x0a]) = false
  /\ ~ (snd (fromI2PBase64 (go "QUJD" ++ [x0a])) <> None
        <-> wellFormedText (go "QUJD" ++ [x0a]) = false).
Proof.
  split; [vm_compute; reflexivity|]. split; [vm_compute; reflexivity|].
  intros [_ H]. apply H; vm_compute; reflexivity.
Qed.

(** C2, amended. [fromI2PBase64] skips carriage returns and line feeds; it
    fails exactly when the rest of the text holds a symbol outside the
    alphabet plus [=], or is not made of whole groups of four symbols, or
    has [=] anywhere but as its last one or two symbols. The empty text
    decodes to the empty byte sequence. *)
Theorem fromI2PBase64_fails_iff (text : gostring) :
  (snd (fromI2PBase64 text) <> None <-> wellFormedText (stripNewlines text) = false)
  /\ fromI2PBase64 [] = ([], None).
Proof.
  split; [|reflexivity].
  rewrite fromI2PBase64_succeeds.
  destruct (wellFormedText (stripNewlines text)); split; congruence.
Qed.

(** C3. [IsCorrectFormat] holds exactly when the trimmed content splits on
    newline into two segments and each of them, after its own trimming, is
    not empty, holds only [A-Z], [a-z], [0-9], [-], [~], [=] and decodes. *)
Theorem IsCorrectFormat_iff (s : gostring) :
  IsCorrectFormat s = true
  <-> exists line1 line2,
        strings.Split (strings.TrimSpace s) x0a = [line1; line2]
        /\ validSegment line1 /\ validSegment line2.
Proof.
  unfold IsCorrectFormat. cbv zeta.
  destruct (strings.Split (strings.TrimSpace s) x0a) as [|l1 [|l2 [|l3 ls]]];
    cbn [length Nat.eqb negb nth].
  - split; [discriminate | intros (? & ? & [=] & _)].
  - split; [discriminate | intros (? & ? & [=] & _)].
  - rewrite andb_true_iff, !isI2PBase64Format_iff. split.
    + intros [H1 H2]. exists l1, l2. auto.
    + intros (? & ? & [= <- <-] & H1 & H2). auto.
  - split; [discriminate | intros (? & ? & [=] & _)].
Qed.

(** C4. An input that already is in the two-line format is written out
    unchanged, byte for byte, whatever the length of its first line. *)
Theorem ConvertKeyFile_passthrough
  (fs : os.FileSystem) (inputPath outputPath : string) (x : list byte) :
  os.files fs !! inputPath = Some x ->
  writable fs outputPath = true ->
  IsCorrectFormat x = true ->
  ConvertKeyFile fs inputPath outputPath = (None, os.withFile fs outputPath x).
Proof.
  intros Hread Hwrite Hcanon.
  rewrite (ConvertKeyFile_read fs inputPath outputPath x Hread).
  rewrite formatted_canonical by assumption. apply store_writable, Hwrite.
Qed.

Lemma ConvertKeyFile_passthrough_witness :
  (os.files (onlyFile twoLines) !! "keys.dat"%string = Some twoLines
   /\ writable (onlyFile twoLines) "out/keys.dat" = true
   /\ IsCorrectFormat twoLines = true)
  /\ ConvertKeyFile (onlyFile twoLines) "keys.dat" "out/keys.dat"
     = (None, os.withFile (onlyFile twoLines) "out/keys.dat" twoLines).
Proof.
  split; [repeat split; vm_compute; reflexivity|].
  apply (ConvertKeyFile_passthrough (onlyFile twoLines) "keys.dat" "out/keys.dat" twoLines);
    vm_compute; reflexivity.
Defined.

(** C5. An input that is not in the two-line format but passes the Format
    Classifier as a whole, with a first line of at least 516 characters,
    gives that line's first 516 characters, a newline and the whole first
    line; the first line of an input without newline is the input. *)
Theorem ConvertKeyFile_encoded_line
  (fs : os.FileSystem) (inputPath outputPath : string) (data : list byte) :
  os.files fs !! inputPath = Some data ->
  writable fs outputPath = true ->
  IsCorrectFormat data = false ->
  isI2PBase64Format data = true ->
  516 <= len (firstLine data) ->
  ConvertKeyFile fs inputPath outputPath
  = (None, os.withFile fs outputPath (take 516 (firstLine data) ++ [x0a] ++ firstLine data))
  /\ (occurs x0a data = false -> firstLine data = data).
Proof.
  intros Hread Hwrite Hcanon Hfmt Hlen. split.
  - rewrite (ConvertKeyFile_read fs inputPath outputPath data Hread).
    rewrite formatted_line by assumption. apply store_writable, Hwrite.
  - intros Hnl. unfold firstLine. rewrite Split_whole by assumption. reflexivity.
Qed.

Lemma ConvertKeyFile_encoded_line_witness :
  (os.files (onlyFile line700) !! "keys.dat"%string = Some line700
   /\ writable (onlyFile line700) "keys.dat.formatted" = true
   /\ IsCorrectFormat line700 = false
   /\ isI2PBase64Format line700 = true
   /\ 516 <= len (firstLine line700))
  /\ ConvertKeyFile (onlyFile line700) "keys.dat" "keys.dat.formatted"
     = (None, os.withFile (onlyFile line700) "keys.dat.formatted"
                (take 516 line700 ++ [x0a] ++ line700)).
Proof.
  split; [repeat split; vm_compute; (reflexivity || discriminate)|].
  apply (ConvertKeyFile_encoded_line (onlyFile line700) "keys.dat" "keys.dat.formatted" line700);
    vm_compute; (reflexivity || discriminate).
Defined.

(** C6. An input that is not in the two-line format and passes the Format
    Classifier as a whole, but whose first line is shorter than 516
    characters, is handled as binary: the raw input bytes themselves, not
    the text they spell, are encoded, and that encoding is split after 516
    characters or found too short. *)
Theorem ConvertKeyFile_short_line_reencodes
  (fs : os.FileSystem) (inputPath outputPath : string) (data : list byte) :
  os.files fs !! inputPath = Some data ->
  writable fs outputPath = true ->
  IsCorrectFormat data = false ->
  isI2PBase64Format data = true ->
  len (firstLine data) < 516 ->
  ConvertKeyFile fs inputPath outputPath
  = if 516 <=? len (toI2PBase64 data) then
      (None, os.withFile fs outputPath
               (take 516 (toI2PBase64 data) ++ [x0a] ++ toI2PBase64 data))
    else (Some errTooShort, fs).
Proof.
  intros Hread Hwrite Hcanon Hfmt Hlen.
  rewrite (ConvertKeyFile_read fs inputPath outputPath data Hread).
  rewrite formatted_reencoded by auto. unfold reencoded. cbv zeta.
  destruct (516 <=? len (toI2PBase64 data)); [apply store_writable, Hwrite | reflexivity].
Qed.

Lemma ConvertKeyFile_short_line_reencodes_witness :
  (os.files (onlyFile line400) !! "keys.dat"%string = Some line400
   /\ writable (onlyFile line400) "keys.dat.formatted" = true
   /\ IsCorrectFormat line400 = false
   /\ isI2PBase64Format line400 = true
   /\ len (firstLine line400) < 516)
  /\ ConvertKeyFile (onlyFile line400) "keys.dat" "keys.dat.formatted"
     = (None, os.withFile (onlyFile line400) "keys.dat.formatted"
                (take 516 (toI2PBase64 line400) ++ [x0a] ++ toI2PBase64 line400)).
Proof.
  split; [repeat split; vm_compute; reflexivity|].
  apply (ConvertKeyFile_short_line_reencodes
           (onlyFile line400) "keys.dat" "keys.dat.formatted" line400);
    vm_compute; reflexivity.
Defined.

(** C7. An input that is not in the two-line format and whose encoding is
    shorter than 516 characters fails with the key-too-short error, and
    nothing is written. *)
Theorem ConvertKeyFile_too_short
  (fs : os.FileSystem) (inputPath outputPath : string) (data : list byte) :
  os.files fs !! inputPath = Some data ->
  IsCorrectFormat data = false ->
  len (toI2PBase64 data) < 516 ->
  ConvertKeyFile fs inputPath outputPath = (Some errTooShort, fs).
Proof.
  intros Hread Hcanon Hlen.
  rewrite (ConvertKeyFile_read fs inputPath outputPath data Hread).
  rewrite formatted_reencoded; auto.
  - unfold reencoded. apply Z.leb_gt in Hlen. rewrite Hlen. reflexivity.
  - right. pose proof (firstLine_bound data). pose proof (toI2PBase64_bound data). lia.
Qed.

Lemma ConvertKeyFile_too_short_witness :
  (os.files (onlyFile raw100) !! "keys.dat"%string = Some raw100
   /\ IsCorrectFormat raw100 = false
   /\ len (toI2PBase64 raw100) < 516)
  /\ ConvertKeyFile (onlyFile raw100) "keys.dat" "keys.dat.formatted"
     = (Some errTooShort, onlyFile raw100).
Proof.
  split; [repeat split; vm_compute; reflexivity|].
  apply (ConvertKeyFile_too_short (onlyFile raw100) "keys.dat" "keys.dat.formatted" raw100);
    vm_compute; reflexivity.
Defined.

(** C8, as stated, fails: an input that passes through keeps its lines, and
    its first line may be the longer one. *)
Lemma passthrough_first_line_longer :
  ConvertKeyFile (onlyFile twoLines) "keys.dat" "out/keys.dat"
  = (None, os.withFile (onlyFile twoLines) "out/keys.dat" twoLines)
  /\ strings.Split twoLines x0a = [go "QUJDREVG"; go "QUJD"]
  /\ ~ len (go "QUJDREVG") <= len (go "QUJD").
Proof.
  split; [vm_compute; reflexivity|]. split; [vm_compute; reflexivity|].
  vm_compute. intros H. apply H. reflexivity.
Qed.

(** C8, amended. When the conversion succeeds, an input in the two-line
    format comes out as it is; any other output is two lines that the
    conversion derived, the first of exactly 516 characters and the second
    at least as long. *)
Theorem ConvertKeyFile_line_lengths
  (fs fs' : os.FileSystem) (inputPath outputPath : string) (data : list byte) :
  os.files fs !! inputPath = Some data ->
  ConvertKeyFile fs inputPath outputPath = (None, fs') ->
  exists out,
    fs' = os.withFile fs outputPath out
    /\ if IsCorrectFormat data then out = data
       else exists line1 line2,
              out = line1 ++ [x0a] ++ line2
              /\ strings.Split out x0a = [line1; line2]
              /\ len line1 = 516 /\ len line1 <= len line2.
Proof.
  intros Hread Hrun.
  assert (Hderived : forall key : gostring,
            516 <= len key -> occurs x0a key = false ->
            exists line1 line2,
              take 516 key ++ [x0a] ++ key = line1 ++ [x0a] ++ line2
              /\ strings.Split (take 516 key ++ [x0a] ++ key) x0a = [line1; line2]
              /\ len line1 = 516 /\ len line1 <= len line2).
  { intros key Hlen Hnl. exists (take 516 key), key.
    assert (len (take 516 key) = 516)
      by (unfold len in *; rewrite length_take; lia).
    repeat split; [|lia|lia].
    cbn [app]. rewrite Split_app by (apply occurs_take, Hnl).
    rewrite Split_whole by assumption. reflexivity. }
  rewrite (ConvertKeyFile_read fs inputPath outputPath data Hread) in Hrun.
  destruct (formatted data) as [text|err] eqn:Hfmt; [|discriminate].
  apply store_succeeds in Hrun as [-> _]. exists text. split; [reflexivity|].
  unfold formatted in Hfmt. destruct (IsCorrectFormat data); [congruence|].
  destruct (isI2PBase64Format data && (516 <=? len (firstLine data))) eqn:Hline.
  - injection Hfmt as <-. apply andb_true_iff in Hline as [_ Hlen%Z.leb_le].
    apply Hderived; [assumption|].
    unfold firstLine. destruct (Split_first data x0a) as (_ & _ & H). exact H.
  - unfold reencoded in Hfmt.
    destruct (Z.leb_spec 516 (len (toI2PBase64 data))) as [Hlen|Hlen]; [|discriminate].
    injection Hfmt as <-. apply Hderived; [assumption|].
    apply onlyCodecSymbols_occurs, Encode_symbols.
Qed.

Lemma ConvertKeyFile_line_lengths_witness :
  (os.files (onlyFile line700) !! "keys.dat"%string = Some line700
   /\ ConvertKeyFile (onlyFile line700) "keys.dat" "keys.dat.formatted"
      = (None, os.withFile (onlyFile line700) "keys.dat.formatted"
                 (take 516 line700 ++ [x0a] ++ line700)))
  /\ exists out,
       os.withFile (onlyFile line700) "keys.dat.formatted"
         (take 516 line700 ++ [x0a] ++ line700)
       = os.withFile (onlyFile line700) "keys.dat.formatted" out
       /\ if IsCorrectFormat line700 then out = line700
          else exists line1 line2,
                 out = line1 ++ [x0a] ++ line2
                 /\ strings.Split out x0a = [line1; line2]
                 /\ len line1 = 516 /\ len line1 <= len line2.
Proof.
  split; [split; vm_compute; reflexivity|].
  apply (ConvertKeyFile_line_lengths (onlyFile line700) _ "keys.dat" "keys.dat.formatted" line700);
    vm_compute; reflexivity.
Defined.

(** C9. An input of [n] bytes that is neither in the two-line format nor
    passes the Format Classifier is converted exactly when [n >= 385]: its
    encoding has [4 * ceil(n / 3)] characters and 516 are needed. *)
Theorem ConvertKeyFile_binary_threshold
  (fs : os.FileSystem) (inputPath outputPath : string) (data : list byte) :
  os.files fs !! inputPath = Some data ->
  writable fs outputPath = true ->
  IsCorrectFormat data = false ->
  isI2PBase64Format data = false ->
  (fst (ConvertKeyFile fs inputPath outputPath) = None <-> 385 <= len data)
  /\ len (toI2PBase64 data) = 4 * ((len data + 2) / 3).
Proof.
  intros Hread Hwrite Hcanon Hfmt. split; [|rewrite toI2PBase64_length; lia].
  rewrite (ConvertKeyFile_read fs inputPath outputPath data Hread).
  rewrite formatted_reencoded by auto.
  rewrite <- toI2PBase64_threshold. unfold reencoded. cbv zeta.
  destruct (Z.leb_spec 516 (len (toI2PBase64 data))).
  - rewrite store_writable by assumption. cbn [fst]. tauto.
  - cbn [fst]. split; [discriminate | lia].
Qed.

Lemma ConvertKeyFile_binary_threshold_witness :
  (os.files (onlyFile raw385) !! "keys.dat"%string = Some raw385
   /\ writable (onlyFile raw385) "keys.dat.formatted" = true
   /\ IsCorrectFormat raw385 = false
   /\ isI2PBase64Format raw385 = false)
  /\ (fst (ConvertKeyFile (onlyFile raw385) "keys.dat" "keys.dat.formatted") = None
      <-> 385 <= len raw385)
  /\ len (toI2PBase64 raw385) = 4 * ((len raw385 + 2) / 3).
Proof.
  split; [repeat split; vm_compute; reflexivity|].
  apply (ConvertKeyFile_binary_threshold
           (onlyFile raw385) "keys.dat" "keys.dat.formatted" raw385);
    vm_compute; reflexivity.
Defined.

(** C10. Whatever the binary path writes is in the two-line format: the
    first 516 characters of an encoding decode on their own, 516 being a
    multiple of four and [=] occurring only in the last group of four. *)
Theorem ConvertKeyFile_reencoded_canonical
  (fs fs' : os.FileSystem) (inputPath outputPath : string) (data : list byte) :
  os.files fs !! inputPath = Some data ->
  IsCorrectFormat data = false ->
  isI2PBase64Format data = false \/ len (firstLine data) < 516 ->
  ConvertKeyFile fs inputPath outputPath = (None, fs') ->
  exists out,
    fs' = os.withFile fs outputPath out
    /\ IsCorrectFormat out = true
    /\ snd (fromI2PBase64 (take 516 (toI2PBase64 data))) = None.
Proof.
  intros Hread Hcanon Hpath Hrun.
  rewrite (ConvertKeyFile_read fs inputPath outputPath data Hread) in Hrun.
  rewrite formatted_reencoded in Hrun by assumption. unfold reencoded in Hrun.
  destruct (Z.leb_spec 516 (len (toI2PBase64 data))) as [Hlen|Hlen]; [|discriminate].
  apply store_succeeds in Hrun as [-> _]. eexists. split; [reflexivity|].
  split; [apply reencoded_text_canonical | apply take_516_decodes]; assumption.
Qed.

Lemma ConvertKeyFile_reencoded_canonical_witness :
  (os.files (onlyFile raw387) !! "keys.dat"%string = Some raw387
   /\ IsCorrectFormat raw387 = false
   /\ (isI2PBase64Format raw387 = false \/ len (firstLine raw387) < 516)
   /\ ConvertKeyFile (onlyFile raw387) "keys.dat" "keys.dat.formatted"
      = (None, os.withFile (onlyFile raw387) "keys.dat.formatted"
                 (toI2PBase64 raw387 ++ [x0a] ++ toI2PBase64 raw387)))
  /\ exists out,
       os.withFile (onlyFile raw387) "keys.dat.formatted"
         (toI2PBase64 raw387 ++ [x0a] ++ toI2PBase64 raw387)
       = os.withFile (onlyFile raw387) "keys.dat.formatted" out
       /\ IsCorrectFormat out = true
       /\ snd (fromI2PBase64 (take 516 (toI2PBase64 raw387))) = None.
Proof.
  split; [repeat split; try left; vm_compute; reflexivity|].
  apply (ConvertKeyFile_reencoded_canonical
           (onlyFile raw387) _ "keys.dat" "keys.dat.formatted" raw387);
    try left; vm_compute; reflexivity.
Defined.

(** * Further properties of the code *)

(** ** The bytes of a rune *)

Lemma outside_nonASCII lo hi c :
  0x80 <= lo -> utf8.outside lo hi c = false -> nonASCII c = true.
Proof.
  unfold utf8.outside, nonASCII. intros Hlo [H _]%orb_false_iff.
  apply Z.ltb_ge in H. apply Z.leb_le. lia.
Qed.

(** A rune that does not start with an ASCII byte is made of bytes outside
    ASCII only, all of them present. *)
Lemma DecodeRuneInString_bytes c s :
  0x80 <= u8 c ->
  forallb nonASCII (take (snd (utf8.DecodeRuneInString (c :: s))) (c :: s)) = true
  /\ (snd (utf8.DecodeRuneInString (c :: s)) <= length (c :: s))%nat.
Proof.
  intros Hc. assert (Hn : nonASCII c = true) by (apply Z.leb_le, Hc).
  unfold utf8.DecodeRuneInString.
  destruct (first_cases c)
    as [[Hx H]|[[Hx H]|[[Hx H]|[[Hx H]|[[Hx H]|[[Hx H]|[[Hx H]|[[Hx H]|[Hx H]]]]]]]]];
    cbv zeta in Hx; rewrite Hx; try lia; first_byte_class.
  all: repeat match goal with
         | |- context [if Z.ltb ?a ?b then _ else _] => destruct (Z.ltb a b)
         | |- context [match ?l with [] => _ | _ :: _ => _ end] =>
             is_var l; destruct l
         | |- context [if utf8.outside ?lo ?hi ?b then _ else _] =>
             let E := fresh "E" in
             destruct (utf8.outside lo hi b) eqn:E;
             [|apply outside_nonASCII in E; [|lia]]
         end.
  all: cbn [snd take forallb length]; rewrite ?Hn; repeat match goal with
         | H : nonASCII _ = true |- _ => rewrite H; clear H
         end; split; (reflexivity || lia).
Qed.

(** ** [cleanI2PBase64] *)

Lemma keptRune_byte c : u8 c < 0x80 -> keptRune (u8 c) = keptByte c.
Proof. destruct c; vm_compute; intros H; try discriminate H; reflexivity. Qed.

Lemma keptRune_not_ascii r : 0x80 <= r -> keptRune r = false.
Proof.
  intros Hr. unfold keptRune. rewrite isI2PBase64Rune_not_ascii by assumption.
  change (u8 x0a) with 10. apply Z.eqb_neq. lia.
Qed.

Lemma keptByte_ascii c : keptByte c = true -> nonASCII c = false.
Proof. destruct c; vm_compute; intros H; try discriminate H; reflexivity. Qed.

Lemma AppendRune_ascii p c : u8 c < 0x80 -> utf8.AppendRune p (u8 c) = p ++ [c].
Proof.
  intros Hc. unfold utf8.AppendRune.
  destruct (Z.leb_spec (u8 c) 0x7F); [|lia]. rewrite byte_of_u8. reflexivity.
Qed.

Lemma filter_nonASCII_prefix (p : byte -> bool) k s :
  (forall c, p c = true -> nonASCII c = false) ->
  forallb nonASCII (take k s) = true ->
  List.filter p (drop k s) = List.filter p s.
Proof.
  intros Hp. revert k. induction s as [|c s IH]; intros [|k]; try reflexivity.
  cbn [take forallb drop List.filter]. intros [Hc Hs]%andb_true_iff.
  destruct (p c) eqn:E; [apply Hp in E; congruence|]. apply IH, Hs.
Qed.

(** The rune loop keeps exactly the bytes that are codec symbols or
    newlines, in their order. *)
Lemma cleanLoop_filter fuel : forall data cleaned,
  (length data <= fuel)%nat ->
  cleanLoop fuel data cleaned = cleaned ++ List.filter keptByte data.
Proof.
  induction fuel as [|fuel IH]; intros data cleaned Hlen.
  - destruct data; [cbn; rewrite app_nil_r; reflexivity | cbn [length] in Hlen; lia].
  - destruct data as [|c s]; [cbn; rewrite app_nil_r; reflexivity|].
    cbn [cleanLoop]. destruct (Z.lt_ge_cases (u8 c) 0x80) as [Hc|Hc].
    + rewrite DecodeRuneInString_ascii by assumption.
      change (drop 1 (c :: s)) with s.
      rewrite IH by (cbn [length] in Hlen; lia).
      rewrite keptRune_byte by assumption. cbn [List.filter].
      destruct (keptByte c); [|reflexivity].
      rewrite AppendRune_ascii by assumption. rewrite <- app_assoc. reflexivity.
    + pose proof (DecodeRuneInString_not_ascii c s Hc) as Hr.
      pose proof (DecodeRuneInString_bytes c s Hc) as [Hbytes _].
      pose proof (DecodeRuneInString_width c s) as Hw.
      destruct (utf8.DecodeRuneInString (c :: s)) as [r size]. cbn [fst snd] in *.
      rewrite keptRune_not_ascii by assumption.
      rewrite IH by (rewrite length_drop; cbn [length] in *; lia).
      rewrite (filter_nonASCII_prefix keptByte size (c :: s) keptByte_ascii Hbytes).
      reflexivity.
Qed.

Lemma cleanI2PBase64_filter data :
  cleanI2PBase64 data = List.filter keptByte (strings.TrimSpace data).
Proof. unfold cleanI2PBase64. rewrite cleanLoop_filter by reflexivity. reflexivity. Qed.

(** ** What [strings.TrimSpace] takes away *)

Lemma IsSpace_ascii c : u8 c < 0x80 -> unicode.IsSpace (u8 c) = strings.asciiSpace c.
Proof. destruct c; vm_compute; intros H; try discriminate H; reflexivity. Qed.

Lemma nonASCII_blank s : forallb nonASCII s = true -> forallb blank s = true.
Proof.
  induction s as [|c s IH]; [reflexivity|]. cbn [forallb].
  intros [Hc Hs]%andb_true_iff. unfold blank at 1. rewrite Hc, orb_true_r. exact (IH Hs).
Qed.

Lemma forallb_drop {A} (p : A -> bool) k (s : list A) :
  forallb p s = true -> forallb p (drop k s) = true.
Proof.
  revert k. induction s as [|a s IH]; intros [|k] H; try exact H; try reflexivity.
  cbn [drop]. cbn [forallb] in H. apply andb_true_iff in H as [_ H]. apply IH, H.
Qed.

(** The first rune of a text, when it is a space, is made of blank bytes. *)
Lemma space_rune_blank c s :
  unicode.IsSpace (fst (utf8.DecodeRuneInString (c :: s))) = true ->
  forallb blank (take (snd (utf8.DecodeRuneInString (c :: s))) (c :: s)) = true.
Proof.
  destruct (Z.lt_ge_cases (u8 c) 0x80) as [Hc|Hc].
  - rewrite DecodeRuneInString_ascii by assumption. cbn [fst snd take forallb].
    rewrite IsSpace_ascii by assumption. intros H. unfold blank. rewrite H. reflexivity.
  - intros _. apply nonASCII_blank, DecodeRuneInString_bytes, Hc.
Qed.

Lemma TrimLeftSpace_prefix fuel : forall s,
  (length s <= fuel)%nat ->
  exists a, s = a ++ strings.TrimLeftSpace fuel s /\ forallb blank a = true.
Proof.
  induction fuel as [|fuel IH]; intros s Hlen.
  - destruct s; [exists []; split; reflexivity | cbn [length] in Hlen; lia].
  - destruct s as [|c s]; [exists []; split; reflexivity|].
    cbn [strings.TrimLeftSpace].
    pose proof (space_rune_blank c s) as Hblank.
    pose proof (DecodeRuneInString_width c s) as Hw.
    destruct (utf8.DecodeRuneInString (c :: s)) as [r size]. cbn [fst snd] in *.
    destruct (unicode.IsSpace r); [|exists []; split; reflexivity].
    destruct (IH (drop size (c :: s))) as (a & Ha & Hba).
    { rewrite length_drop. cbn [length] in *. lia. }
    exists (take size (c :: s) ++ a). split.
    + rewrite <- app_assoc, <- Ha, take_drop. reflexivity.
    + rewrite forallb_app, Hba, Hblank by reflexivity. reflexivity.
Qed.

Lemma last_nth {A} (s : list A) b d : last s = Some b -> nth (length s - 1) s d = b.
Proof.
  intros H. rewrite last_lookup in H. rewrite nth_lookup.
  replace (length s - 1)%nat with (Nat.pred (length s)) by lia. rewrite H. reflexivity.
Qed.

Lemma last_drop {A} (s : list A) b : last s = Some b -> drop (length s - 1) s = [b].
Proof.
  intros H. destruct s as [|a s] using rev_ind; [discriminate|].
  rewrite last_snoc in H. injection H as ->.
  rewrite length_app. cbn [length]. replace (length s + 1 - 1)%nat with (length s) by lia.
  rewrite drop_app_length. reflexivity.
Qed.

(** The last rune of a text: a single ASCII byte, or bytes outside ASCII. *)
Lemma DecodeLastRuneInString_bytes c s :
  let p := c :: s in
  let r := fst (utf8.DecodeLastRuneInString p) in
  let size := snd (utf8.DecodeLastRuneInString p) in
  (1 <= size <= length p)%nat
  /\ (forallb nonASCII (drop (length p - size) p) = true
      \/ (size = 1%nat /\ r < 0x80 /\ exists b, last p = Some b /\ r = u8 b)).
Proof.
  intros p r size. subst r size.
  destruct (last_cons_is_Some c s) as [b Hb]. fold p in Hb.
  pose proof (last_nth p b x00 Hb) as Hnth. pose proof (last_drop p b Hb) as Hdrop.
  unfold utf8.DecodeLastRuneInString.
  assert (Hlen : len p = Z.of_nat (length s) + 1) by (unfold len, p; cbn [length]; lia).
  assert (Hlenp : length p = S (length s)) by reflexivity.
  assert ((len p =? 0) = false) as -> by (apply Z.eqb_neq; lia).
  cbv zeta.
  replace (Z.to_nat (len p - 1)) with (length p - 1)%nat by (unfold len; lia).
  rewrite Hnth.
  destruct (Z.ltb_spec (u8 b) utf8.RuneSelf) as [Hascii|Hhigh].
  { cbn [fst snd]. split; [lia|]. right. unfold utf8.RuneSelf in Hascii. eauto. }
  assert (Hnb : forallb nonASCII [b] = true).
  { cbn. unfold nonASCII, utf8.RuneSelf in *. apply andb_true_iff. split; [|reflexivity].
    apply Z.leb_le. lia. }
  pose proof (backToStart_le 4 p (len p - 1 - 1) (Z.max 0 (len p - utf8.UTFMax))) as Hback.
  set (start := Z.max 0 (utf8.backToStart _ _ _ _)) in *.
  assert (Hstart : 0 <= start < len p) by lia.
  destruct (drop (Z.to_nat start) p) as [|c' q] eqn:Eq.
  { apply (f_equal length) in Eq. rewrite length_drop in Eq. cbn [length] in Eq. lia. }
  assert (Hq : length (c' :: q) = (length p - Z.to_nat start)%nat)
    by (rewrite <- Eq, length_drop; reflexivity).
  pose proof (DecodeRuneInString_width c' q) as Hw.
  destruct (Z.lt_ge_cases (u8 c') 0x80) as [Hc'|Hc'].
  - rewrite DecodeRuneInString_ascii in * by assumption. cbn [snd] in Hw.
    destruct (Z.eqb_spec (start + Z.of_nat 1) (len p)) as [E|E]; cbn [negb fst snd].
    + (* the byte at [start] is the last one, which is not ASCII *)
      exfalso. assert (Z.to_nat start = (length p - 1)%nat) as Es by lia.
      rewrite Es, Hdrop in Eq. injection Eq as <- _. unfold utf8.RuneSelf in Hhigh. lia.
    + split; [lia|]. left. rewrite Hdrop. exact Hnb.
  - pose proof (DecodeRuneInString_bytes c' q Hc') as [Hbytes Hsz].
    destruct (utf8.DecodeRuneInString (c' :: q)) as [r' size']. cbn [snd] in *.
    destruct (Z.eqb_spec (start + Z.of_nat size') (len p)) as [E|E]; cbn [negb fst snd].
    + split; [lia|]. left.
      replace (length p - size')%nat with (Z.to_nat start) by lia.
      rewrite Eq. rewrite take_ge in Hbytes by lia. exact Hbytes.
    + split; [lia|]. left. rewrite Hdrop. exact Hnb.
Qed.

Lemma lastIndexNotSpace_blank fuel : forall p,
  (length p <= fuel)%nat ->
  -1 <= strings.lastIndexNotSpace fuel p < len p
  /\ forallb blank (drop (Z.to_nat (strings.lastIndexNotSpace fuel p + 1)) p) = true.
Proof.
  induction fuel as [|fuel IH]; intros p Hlen.
  - destruct p; [cbn; unfold len; cbn; split; [lia | reflexivity] | cbn [length] in Hlen; lia].
  - destruct p as [|c s]; [cbn; unfold len; cbn; split; [lia | reflexivity]|].
    cbn [strings.lastIndexNotSpace].
    pose proof (DecodeLastRuneInString_bytes c s) as Hlast. cbv zeta in Hlast.
    set (p := c :: s) in *.
    destruct (utf8.DecodeLastRuneInString p) as [r size]. cbn [fst snd] in Hlast.
    destruct Hlast as [Hsize Hbytes].
    assert (Hi0 : Z.to_nat (len p - Z.of_nat size) = (length p - size)%nat)
      by (unfold len; lia).
    assert (Htail : unicode.IsSpace r = true -> forallb blank (drop (length p - size) p) = true).
    { intros Hsp. destruct Hbytes as [Hb|(-> & Hr & b & Hb & ->)].
      - apply nonASCII_blank, Hb.
      - rewrite (last_drop p b Hb). cbn. rewrite IsSpace_ascii in Hsp by assumption.
        unfold blank. rewrite Hsp. reflexivity. }
    destruct (unicode.IsSpace r) eqn:Hsp; cbn [negb].
    + specialize (IH (take (Z.to_nat (len p - Z.of_nat size)) p)).
      rewrite Hi0 in *. rewrite length_take in IH.
      destruct IH as [Hrange Hblank]; [subst p; cbn [length] in *; lia|].
      set (i := strings.lastIndexNotSpace fuel (take (length p - size) p)) in *.
      assert (len (take (length p - size) p) = len p - Z.of_nat size)
        by (unfold len; rewrite length_take; lia).
      split; [unfold len in *; lia|].
      rewrite <- (take_drop (length p - size) p) at 1.
      rewrite drop_app_le by (rewrite length_take; unfold len in *; lia).
      rewrite forallb_app, Hblank, Htail by reflexivity. reflexivity.
    + split; [unfold len; lia|].
      replace (Z.to_nat (len p - Z.of_nat size + 1)) with ((length p - size) + 1)%nat
        by (unfold len; lia).
      rewrite <- drop_drop.
      destruct Hbytes as [Hb|(-> & _ & b & Hb & _)].
      * apply forallb_drop, nonASCII_blank, Hb.
      * rewrite (last_drop p b Hb). reflexivity.
Qed.

Lemma TrimRightSpace_suffix s :
  exists b, s = strings.TrimRightSpace s ++ b /\ forallb blank b = true.
Proof.
  unfold strings.TrimRightSpace.
  destruct (lastIndexNotSpace_blank (length s) s (Nat.le_refl _)) as [Hrange Hblank].
  set (i := strings.lastIndexNotSpace (length s) s) in *.
  match goal with |- context [take (Z.to_nat ?x) s] => set (i' := x) end.
  assert (Hi' : i + 1 <= i').
  { subst i'. destruct (_ && _) eqn:E; [|lia].
    apply andb_true_iff in E as [Hi _]. apply Z.leb_le in Hi.
    destruct (drop (Z.to_nat i) s) as [|c q] eqn:Eq.
    { apply (f_equal length) in Eq. rewrite length_drop in Eq. cbn [length] in Eq.
      unfold len in Hrange. lia. }
    pose proof (DecodeRuneInString_width c q). lia. }
  exists (drop (Z.to_nat i') s). split; [rewrite take_drop; reflexivity|].
  replace (Z.to_nat i') with (Z.to_nat (i + 1) + (Z.to_nat i' - Z.to_nat (i + 1)))%nat by lia.
  rewrite <- drop_drop. apply forallb_drop, Hblank.
Qed.

Lemma trimRight_suffix fuel : forall s,
  exists b, s = strings.trimRight fuel s ++ b /\ forallb blank b = true.
Proof.
  induction fuel as [|fuel IH]; intros s; cbn [strings.trimRight].
  - exists []. rewrite app_nil_r. split; reflexivity.
  - destruct (last s) as [c|] eqn:Hlast.
    2:{ apply last_None in Hlast. subst s. exists []. split; reflexivity. }
    destruct (utf8.RuneSelf <=? u8 c); [apply TrimRightSpace_suffix|].
    destruct (strings.asciiSpace c) eqn:Hc.
    2:{ exists []. rewrite app_nil_r. split; reflexivity. }
    destruct (IH (removelast s)) as (b & Hb & Hblank).
    exists (b ++ [c]). split.
    + rewrite app_assoc, <- Hb.
      destruct s as [|a s] using rev_ind; [discriminate|].
      rewrite last_snoc in Hlast. injection Hlast as ->.
      rewrite removelast_last. reflexivity.
    + rewrite forallb_app, Hblank. cbn. unfold blank. rewrite Hc. reflexivity.
Qed.

(** [TrimSpace] gives a piece of the text, and takes away blank bytes
    only. *)
Lemma TrimSpace_frame s :
  exists a b,
    s = a ++ strings.TrimSpace s ++ b
    /\ forallb blank a = true /\ forallb blank b = true.
Proof.
  unfold strings.TrimSpace. induction s as [|c s (a & b & Hs & Ha & Hb)].
  - exists [], []. repeat split.
  - cbn [strings.trimLeft]. destruct (utf8.RuneSelf <=? u8 c).
    + destruct (TrimLeftSpace_prefix (length (c :: s)) (c :: s) (Nat.le_refl _))
        as (a' & Ha' & Hba').
      destruct (TrimRightSpace_suffix (strings.TrimLeftSpace (length (c :: s)) (c :: s)))
        as (b' & Hb' & Hbb').
      exists a', b'. rewrite <- Hb'. auto.
    + destruct (strings.asciiSpace c) eqn:Hc.
      * exists (c :: a), b. cbn [app forallb]. unfold blank at 1. rewrite Hc, Ha, Hb.
        repeat split. congruence.
      * destruct (trimRight_suffix (length (c :: s)) (c :: s)) as (b' & Hb' & Hbb').
        exists [], b'. repeat split; assumption.
Qed.

Lemma TrimSpace_length s : (length (strings.TrimSpace s) <= length s)%nat.
Proof.
  destruct (TrimSpace_frame s) as (a & b & Hs & _).
  rewrite Hs at 2. rewrite !length_app. lia.
Qed.

(** Filtering for bytes that are not blank sees through the trimming. *)
Lemma filter_TrimSpace (p : byte -> bool) s :
  (forall c, p c = true -> blank c = false) ->
  List.filter p (strings.TrimSpace s) = List.filter p s.
Proof.
  intros Hp. destruct (TrimSpace_frame s) as (a & b & Hs & Ha & Hb).
  assert (Hnone : forall l, forallb blank l = true -> List.filter p l = []).
  { induction l as [|c l IH]; [reflexivity|]. cbn [forallb List.filter].
    intros [Hc Hl]%andb_true_iff. destruct (p c) eqn:E; [apply Hp in E; congruence|].
    apply IH, Hl. }
  rewrite Hs at 2. rewrite !List.filter_app, (Hnone a Ha), (Hnone b Hb), app_nil_r.
  reflexivity.
Qed.

Lemma keptByte_not_blank_symbol c : codecSymbol c = true -> blank c = false.
Proof. destruct c; vm_compute; intros H; try discriminate H; reflexivity. Qed.

Lemma keptByte_split c : keptByte c && negb (Byte.eqb c x0a) = codecSymbol c.
Proof. destruct c; vm_compute; reflexivity. Qed.

Lemma forallb_filter {A} (p : A -> bool) (s : list A) : forallb p (List.filter p s) = true.
Proof.
  induction s as [|a s IH]; [reflexivity|]. cbn [List.filter].
  destruct (p a) eqn:E; [cbn [forallb]; rewrite E, IH; reflexivity | exact IH].
Qed.

Lemma filter_all {A} (p : A -> bool) (s : list A) :
  forallb p s = true -> List.filter p s = s.
Proof.
  induction s as [|a s IH]; [reflexivity|]. cbn [forallb List.filter].
  intros [-> Hs]%andb_true_iff. rewrite (IH Hs). reflexivity.
Qed.

Lemma filter_length {A} (p : A -> bool) (s : list A) :
  (length (List.filter p s) <= length s)%nat.
Proof.
  induction s as [|a s IH]; [reflexivity|]. cbn [List.filter].
  destruct (p a); cbn [length]; lia.
Qed.

Lemma forallb_infix {A} (p : A -> bool) (a t b : list A) :
  forallb p (a ++ t ++ b) = true -> forallb p t = true.
Proof. rewrite !forallb_app. intros [_ [H _]%andb_true_iff]%andb_true_iff. exact H. Qed.

Lemma codecSymbols_kept s : onlyCodecSymbols s = true -> forallb keptByte s = true.
Proof.
  induction s as [|c s IH]; [reflexivity|]. unfold onlyCodecSymbols. cbn [forallb].
  intros [Hc Hs]%andb_true_iff. unfold keptByte at 1. rewrite Hc. exact (IH Hs).
Qed.

(** ** [strings.Split], piece by piece *)

Lemma Split_pieces (p : byte -> bool) s sep :
  forallb p s = true ->
  Forall (fun piece =>
            forallb p piece = true /\ occurs sep piece = false
            /\ (length piece
                <= length (List.filter (fun c => negb (Byte.eqb c sep)) s))%nat)
         (strings.Split s sep).
Proof.
  induction s as [|c s IH]; intros Hs.
  - repeat constructor.
  - cbn [forallb] in Hs. apply andb_true_iff in Hs as [Hc Hs]. specialize (IH Hs).
    cbn [strings.Split List.filter]. destruct (Byte.eqb c sep) eqn:E; cbn [negb].
    + constructor; [repeat split; cbn; lia | exact IH].
    + pose proof (Split_not_nil s sep) as Hne.
      destruct (strings.Split s sep) as [|piece pieces]; [congruence|].
      inversion IH as [|? ? (H1 & H2 & H3) Hrest]; subst.
      constructor.
      * repeat split.
        -- cbn [forallb]. rewrite Hc, H1. reflexivity.
        -- unfold occurs in *. cbn [existsb]. rewrite H2, orb_false_r.
           destruct (Byte.eqb sep c) eqn:E'; [|reflexivity].
           apply Byte.byte_dec_bl in E'. subst. rewrite <- E. symmetry.
           apply Byte.byte_dec_lb. reflexivity.
        -- cbn [length]. lia.
      * eapply Forall_impl; [exact Hrest|].
        intros x (? & ? & ?). cbn [length]. repeat split; auto; lia.
Qed.

Lemma firstNonEmptyLine_In lines :
  firstNonEmptyLine lines = [] \/ In (firstNonEmptyLine lines) lines.
Proof.
  induction lines as [|line lines IH]; [left; reflexivity|].
  cbn [firstNonEmptyLine]. destruct (strings.TrimSpace line).
  - destruct IH; [left | right; right]; assumption.
  - right. left. reflexivity.
Qed.

(** The key [FormatKeysFile] works on: a line of codec symbols, as many at
    most as the input has. *)
Lemma cleaned_key data :
  let key := firstNonEmptyLine (strings.Split (cleanI2PBase64 data) x0a) in
  onlyCodecSymbols key = true
  /\ (length key <= length (List.filter codecSymbol data))%nat.
Proof.
  cbv zeta. rewrite cleanI2PBase64_filter.
  pose proof (Split_pieces keptByte _ x0a
                (forallb_filter keptByte (strings.TrimSpace data))) as Hpieces.
  rewrite Forall_forall in Hpieces.
  pose proof (firstNonEmptyLine_In
                (strings.Split (List.filter keptByte (strings.TrimSpace data)) x0a)) as Hin.
  set (key := firstNonEmptyLine _) in *.
  destruct Hin as [->|Hin]; [split; [reflexivity | cbn; lia]|].
  rewrite <- list_elem_of_In in Hin.
  destruct (Hpieces _ Hin) as (Hkept & Hnl & Hlen). clear Hpieces Hin.
  split.
  - clear Hlen. induction key as [|c l IH]; [reflexivity|].
    unfold onlyCodecSymbols, occurs in *. cbn [forallb existsb] in *.
    apply andb_true_iff in Hkept as [Hc Hl]. apply orb_false_iff in Hnl as [Hnc Hnl].
    rewrite <- keptByte_split, Hc. cbn [andb].
    assert (Byte.eqb c x0a = false) as ->.
    { destruct (Byte.eqb c x0a) eqn:E; [|reflexivity].
      apply Byte.byte_dec_bl in E. subst. discriminate Hnc. }
    cbn [negb andb]. apply IH; assumption.
  - rewrite <- (filter_TrimSpace codecSymbol data keptByte_not_blank_symbol).
    eapply Nat.le_trans; [exact Hlen|]. clear.
    induction (strings.TrimSpace data) as [|c l IH]; [reflexivity|].
    cbn [List.filter]. rewrite <- (keptByte_split c).
    destruct (keptByte c); cbn [andb List.filter]; [|exact IH].
    destruct (negb (Byte.eqb c x0a)); cbn [length]; lia.
Qed.

(** ** Bytes that occur in a text *)

Lemma occurs_app c a b : occurs c (a ++ b) = occurs c a || occurs c b.
Proof. apply existsb_app. Qed.

Lemma occurs_forallb (p : byte -> bool) c s :
  forallb p s = true -> p c = false -> occurs c s = false.
Proof.
  intros Hs Hc. induction s as [|a s IH]; [reflexivity|].
  cbn [forallb] in Hs. apply andb_true_iff in Hs as [Ha Hs].
  unfold occurs. cbn [existsb]. fold (occurs c s). rewrite (IH Hs), orb_false_r.
  destruct (Byte.eqb c a) eqn:E; [|reflexivity].
  apply Byte.byte_dec_bl in E. congruence.
Qed.

Lemma occurs_TrimSpace c s :
  blank c = false -> occurs c (strings.TrimSpace s) = occurs c s.
Proof.
  intros Hc. destruct (TrimSpace_frame s) as (a & b & Hs & Ha & Hb).
  rewrite Hs at 2. rewrite !occurs_app.
  rewrite (occurs_forallb blank c a Ha Hc), (occurs_forallb blank c b Hb Hc), orb_false_r.
  reflexivity.
Qed.

Lemma Split_occurs c s sep :
  occurs c s = true -> Byte.eqb c sep = false ->
  Exists (fun piece => occurs c piece = true) (strings.Split s sep).
Proof.
  intros Hs Hsep. induction s as [|a s IH]; [discriminate|].
  unfold occurs in Hs. cbn [existsb] in Hs. fold (occurs c s) in Hs.
  cbn [strings.Split]. destruct (Byte.eqb a sep) eqn:E.
  - apply Byte.byte_dec_bl in E. subst a. rewrite Hsep in Hs. cbn [orb] in Hs.
    apply Exists_cons_tl, IH, Hs.
  - pose proof (Split_not_nil s sep) as Hne.
    destruct (strings.Split s sep) as [|piece pieces]; [congruence|].
    destruct (Byte.eqb c a) eqn:Eca.
    + apply Exists_cons_hd. unfold occurs. cbn [existsb]. rewrite Eca. reflexivity.
    + cbn [orb] in Hs. specialize (IH Hs). inversion IH; subst.
      * apply Exists_cons_hd. unfold occurs in *. cbn [existsb].
        rewrite Eca. assumption.
      * apply Exists_cons_tl. assumption.
Qed.

(** ** More on the Format Classifier and the validator *)

Lemma IsCorrectFormat_lines s :
  IsCorrectFormat s = true ->
  exists line1 line2,
    strings.Split (strings.TrimSpace s) x0a = [line1; line2]
    /\ isI2PBase64Format line1 = true /\ isI2PBase64Format line2 = true.
Proof.
  unfold IsCorrectFormat. cbv zeta.
  destruct (strings.Split (strings.TrimSpace s) x0a) as [|l1 [|l2 [|l3 ls]]];
    cbn [length Nat.eqb negb nth]; try discriminate.
  intros [H1 H2]%andb_true_iff. eauto.
Qed.

Lemma isI2PBase64Format_occurs c data :
  occurs c data = true -> codecSymbol c = false -> blank c = false ->
  isI2PBase64Format data = false.
Proof.
  intros Hin Hc Hb. destruct (isI2PBase64Format data) eqn:E; [|reflexivity].
  apply isI2PBase64Format_iff in E as (_ & Hsym & _).
  rewrite <- (occurs_TrimSpace c data Hb) in Hin.
  rewrite (occurs_forallb codecSymbol c _ Hsym Hc) in Hin. discriminate.
Qed.

(** Two lines of codec symbols, joined by a newline, are in the two-line
    format exactly when each passes the Format Classifier. *)
Lemma lines_canonical line1 line2 :
  line1 <> [] -> line2 <> [] ->
  onlyCodecSymbols line1 = true -> onlyCodecSymbols line2 = true ->
  IsCorrectFormat (line1 ++ [x0a] ++ line2)
  = isI2PBase64Format line1 && isI2PBase64Format line2.
Proof.
  intros Hne1 Hne2 Hs1 Hs2. unfold IsCorrectFormat.
  assert (strings.TrimSpace (line1 ++ [x0a] ++ line2) = line1 ++ [x0a] ++ line2) as ->.
  { destruct line1 as [|c l1]; [congruence|]. destruct line2 as [|k l2]; [congruence|].
    destruct (last_cons_is_Some k l2) as [c' Hlast].
    cbn [app]. apply (TrimSpace_plain_ends c _ c').
    - unfold onlyCodecSymbols in Hs1. cbn [forallb] in Hs1.
      apply andb_true_iff in Hs1 as [Hc _]. exact Hc.
    - change (c :: l1 ++ x0a :: k :: l2) with ((c :: l1) ++ x0a :: k :: l2).
      rewrite last_app. change (last (x0a :: k :: l2)) with (last (k :: l2)).
      rewrite Hlast. reflexivity.
    - exact (forallb_last _ _ _ Hs2 Hlast). }
  cbn [app]. rewrite Split_app by (apply onlyCodecSymbols_occurs, Hs1).
  rewrite Split_whole by (apply onlyCodecSymbols_occurs, Hs2). reflexivity.
Qed.

Lemma toI2PBase64_not_nil data : data <> [] -> toI2PBase64 data <> [].
Proof.
  intros Hne E. pose proof (toI2PBase64_bound data) as H. rewrite E in H.
  destruct data; [congruence|]. unfold len in H. cbn [length] in H. lia.
Qed.

Lemma isI2PBase64Format_toI2PBase64 data :
  data <> [] -> isI2PBase64Format (toI2PBase64 data) = true.
Proof.
  intros Hne. apply isI2PBase64Format_encoded.
  - apply toI2PBase64_not_nil, Hne.
  - apply Encode_symbols.
  - rewrite fromI2PBase64_toI2PBase64. reflexivity.
Qed.

(** ** Extras on the codec, the classifier and the validator *)

(** X1. The encoding of any byte sequence holds symbols of the custom
    alphabet and [=] only; [+], [/] and the newline never occur in it, and
    its length is a multiple of four. *)
Theorem toI2PBase64_alphabet_only (data : list byte) :
  onlyCodecSymbols (toI2PBase64 data) = true
  /\ occurs "+" (toI2PBase64 data) = false
  /\ occurs "/" (toI2PBase64 data) = false
  /\ occurs x0a (toI2PBase64 data) = false
  /\ len (toI2PBase64 data) mod 4 = 0.
Proof.
  pose proof (Encode_symbols data) as H.
  repeat split; try (apply (occurs_forallb codecSymbol _ _ H); reflexivity).
  - exact H.
  - rewrite toI2PBase64_length. apply Z.mod_mul. lia.
Qed.

(** X2. Two byte sequences with the same encoding are the same. *)
Theorem toI2PBase64_injective (a b : list byte) :
  toI2PBase64 a = toI2PBase64 b -> a = b.
Proof.
  intros H. pose proof (fromI2PBase64_toI2PBase64 a) as Ha.
  rewrite H, fromI2PBase64_toI2PBase64 in Ha. congruence.
Qed.

Lemma toI2PBase64_injective_witness :
  toI2PBase64 raw100 = toI2PBase64 (replicate 100 x00) /\ raw100 = replicate 100 x00.
Proof.
  split; [reflexivity|].
  apply (toI2PBase64_injective raw100 (replicate 100 x00)). reflexivity.
Defined.

(** X3. After a whole number of three-byte groups the encoding goes on as
    if it started afresh: the encoding of [a ++ b] is that of [a] followed
    by that of [b]. *)
Theorem toI2PBase64_app (a b : list byte) :
  (length a mod 3 = 0)%nat ->
  toI2PBase64 (a ++ b) = toI2PBase64 a ++ toI2PBase64 b.
Proof.
  unfold toI2PBase64, base64.EncodeToString.
  induction a as [|x|x y|x y z rest IH] using group3_ind; intros Hlen.
  - reflexivity.
  - discriminate Hlen.
  - discriminate Hlen.
  - change ((x :: y :: z :: rest) ++ b) with (x :: y :: z :: (rest ++ b)).
    cbn [base64.Encode]. rewrite IH; [reflexivity|].
    cbn [length] in Hlen.
    replace (S (S (S (length rest)))) with (length rest + 1 * 3)%nat in Hlen by lia.
    rewrite Nat.Div0.mod_add in Hlen. exact Hlen.
Qed.

Lemma toI2PBase64_app_witness :
  (length (go "ABC") mod 3 = 0)%nat
  /\ toI2PBase64 (go "ABC" ++ go "DE") = toI2PBase64 (go "ABC") ++ toI2PBase64 (go "DE").
Proof.
  split; [reflexivity|]. apply (toI2PBase64_app (go "ABC") (go "DE")). reflexivity.
Defined.

(** X4. A text that passes the Format Classifier as a whole is never in
    the two-line format: the two tests of [ConvertKeyFile] exclude each
    other. *)
Theorem isI2PBase64Format_excludes_IsCorrectFormat (data : gostring) :
  isI2PBase64Format data = true -> IsCorrectFormat data = false.
Proof. apply classified_not_canonical. Qed.

Lemma isI2PBase64Format_excludes_IsCorrectFormat_witness :
  isI2PBase64Format line700 = true /\ IsCorrectFormat line700 = false.
Proof.
  split; [vm_compute; reflexivity|].
  apply (isI2PBase64Format_excludes_IsCorrectFormat line700). vm_compute. reflexivity.
Defined.

(** X5. A byte that is neither a codec symbol nor white space nor outside
    ASCII, such as [+] or [/], makes a text fail both the Format Classifier
    and the validator, wherever it stands. *)
Theorem foreign_byte_rejected (c : byte) (data : gostring) :
  occurs c data = true -> codecSymbol c = false -> blank c = false ->
  isI2PBase64Format data = false /\ IsCorrectFormat data = false.
Proof.
  intros Hin Hc Hb. split; [apply (isI2PBase64Format_occurs c); assumption|].
  destruct (IsCorrectFormat data) eqn:E; [|reflexivity].
  apply IsCorrectFormat_lines in E as (l1 & l2 & Hsplit & H1 & H2).
  rewrite <- (occurs_TrimSpace c data Hb) in Hin.
  assert (Hsep : Byte.eqb c x0a = false).
  { destruct (Byte.eqb c x0a) eqn:E; [|reflexivity].
    apply Byte.byte_dec_bl in E. subst c. discriminate Hb. }
  pose proof (Split_occurs c _ x0a Hin Hsep) as Hex. rewrite Hsplit in Hex.
  inversion Hex as [? ? Hl1|? ? Hex']; subst.
  - rewrite (isI2PBase64Format_occurs c l1 Hl1 Hc Hb) in H1. discriminate.
  - inversion Hex' as [? ? Hl2|? ? Hnil]; subst; [|inversion Hnil].
    rewrite (isI2PBase64Format_occurs c l2 Hl2 Hc Hb) in H2. discriminate.
Qed.

Lemma foreign_byte_rejected_witness :
  (occurs "+" (go "QUJD+A==") = true /\ codecSymbol "+" = false /\ blank "+" = false)
  /\ isI2PBase64Format (go "QUJD+A==") = false /\ IsCorrectFormat (go "QUJD+A==") = false.
Proof.
  split; [repeat split|]; [..|apply (foreign_byte_rejected "+" (go "QUJD+A=="))];
    vm_compute; reflexivity.
Defined.

(** X6. The encodings of two byte sequences that are not empty, one per
    line, are in the two-line format. *)
Theorem IsCorrectFormat_encoded_pair (a b : list byte) :
  a <> [] -> b <> [] ->
  IsCorrectFormat (toI2PBase64 a ++ [x0a] ++ toI2PBase64 b) = true.
Proof.
  intros Ha Hb.
  rewrite lines_canonical by (auto using toI2PBase64_not_nil, Encode_symbols).
  rewrite !isI2PBase64Format_toI2PBase64 by assumption. reflexivity.
Qed.

Lemma IsCorrectFormat_encoded_pair_witness :
  (go "AB" <> [] /\ raw100 <> [])
  /\ IsCorrectFormat (toI2PBase64 (go "AB") ++ [x0a] ++ toI2PBase64 raw100) = true.
Proof.
  split; [split; discriminate|].
  apply (IsCorrectFormat_encoded_pair (go "AB") raw100); discriminate.
Defined.

(** ** More on [ConvertKeyFile] *)


Lemma formatted_succeeds data :
  (exists text, formatted data = inl text)
  <-> IsCorrectFormat data = true \/ 385 <= len data.
Proof.
  unfold formatted, reencoded. cbv zeta.
  destruct (IsCorrectFormat data); [split; eauto|].
  destruct (isI2PBase64Format data && (516 <=? len (firstLine data))) eqn:Hline.
  - apply andb_true_iff in Hline as [_ Hlen%Z.leb_le].
    pose proof (firstLine_bound data). split; [right; lia | eauto].
  - destruct (Z.leb_spec 516 (len (toI2PBase64 data))) as [Hlen|Hlen].
    + split; [right; apply toI2PBase64_threshold, Hlen | eauto].
    + split; [intros [text [=]]|].
      intros [[=]|H]. apply toI2PBase64_threshold in H. lia.
Qed.

(** A text of codec symbols that decodes still decodes when cut after a
    whole number of groups of four. *)
Lemma fromFirstPadding_take text : forall n,
  paddingAtEnd text = true -> (n + 2 <= length text)%nat ->
  fromFirstPadding (take n text) = [].
Proof.
  unfold paddingAtEnd. induction text as [|c text IH]; intros n Hpad Hlen.
  - destruct n; reflexivity.
  - destruct n as [|n]; [reflexivity|].
    cbn [fromFirstPadding take] in *. destruct (isPadding c).
    + apply andb_true_iff in Hpad as [_ H%Nat.leb_le]. cbn [length] in *. lia.
    + apply IH; [exact Hpad | cbn [length] in Hlen; lia].
Qed.

Lemma stripNewlines_codecSymbols text :
  onlyCodecSymbols text = true -> stripNewlines text = text.
Proof.
  intros H. unfold stripNewlines. apply filter_all.
  induction text as [|c text IH]; [reflexivity|].
  unfold onlyCodecSymbols in H. cbn [forallb] in *.
  apply andb_true_iff in H as [Hc H]. rewrite (IH H), andb_true_r.
  revert Hc. clear. destruct c; vm_compute; intros H; try discriminate H; reflexivity.
Qed.

Lemma take_decodes text k :
  onlyCodecSymbols text = true -> snd (fromI2PBase64 text) = None ->
  (4 * k <= length text)%nat ->
  snd (fromI2PBase64 (take (4 * k) text)) = None.
Proof.
  intros Hsym Hdec Hlen.
  destruct (Nat.eq_dec (4 * k)%nat (length text)) as [E|E].
  { rewrite take_ge by lia. exact Hdec. }
  apply fromI2PBase64_succeeds in Hdec. rewrite stripNewlines_codecSymbols in Hdec by assumption.
  apply fromI2PBase64_succeeds.
  rewrite stripNewlines_codecSymbols by (apply forallb_take, Hsym).
  unfold wellFormedText in *. apply andb_true_iff in Hdec as [[_ Hmod]%andb_true_iff Hpad].
  unfold validPaddedLength in *. apply Nat.eqb_eq in Hmod.
  assert (4 * k + 4 <= length text)%nat.
  { assert (length text = 4 * (length text / 4))%nat
      by (pose proof (Nat.div_mod_eq (length text) 4); lia).
    lia. }
  rewrite (forallb_take _ _ _ Hsym). unfold paddingAtEnd.
  rewrite fromFirstPadding_take by (assumption || lia).
  rewrite length_take, Nat.min_l by lia.
  replace (4 * k)%nat with (k * 4)%nat by lia. rewrite Nat.Div0.mod_mul. reflexivity.
Qed.

Lemma firstLine_whole data : occurs x0a data = false -> firstLine data = data.
Proof. intros H. unfold firstLine. rewrite Split_whole by assumption. reflexivity. Qed.

Lemma isI2PBase64Format_codec_text text :
  onlyCodecSymbols text = true ->
  isI2PBase64Format text
  = match text with
    | [] => false
    | _ :: _ => match snd (fromI2PBase64 text) with None => true | Some _ => false end
    end.
Proof.
  intros Hsym. unfold isI2PBase64Format. rewrite TrimSpace_codecSymbols by assumption.
  destruct text as [|c text]; [reflexivity|].
  rewrite rangeAll_codecSymbols, Hsym by reflexivity. cbn [negb].
  destruct (fromI2PBase64 (c :: text)) as [out [err|]]; reflexivity.
Qed.


(** X8. Once the input is read, the conversion returns no error exactly
    when the output can be written and the input either is in the two-line
    format already or has at least 385 bytes. *)
Theorem ConvertKeyFile_succeeds_iff
  (fs : os.FileSystem) (inputPath outputPath : string) (data : list byte) :
  os.files fs !! inputPath = Some data ->
  fst (ConvertKeyFile fs inputPath outputPath) = None
  <-> writable fs outputPath = true
      /\ (IsCorrectFormat data = true \/ 385 <= len data).
Proof.
  intros Hread. rewrite (ConvertKeyFile_read fs inputPath outputPath data Hread).
  rewrite <- formatted_succeeds. destruct (formatted data) as [text|err].
  - split.
    + destruct (store fs outputPath text) as [[e|] fs'] eqn:E; [discriminate|].
      intros _. apply store_succeeds in E as [_ Hw]. eauto.
    + intros [Hw _]. rewrite store_writable by assumption. reflexivity.
  - split; [discriminate | intros [_ [text [=]]]].
Qed.

Lemma ConvertKeyFile_succeeds_iff_witness :
  os.files (onlyFile raw385) !! "keys.dat"%string = Some raw385
  /\ (fst (ConvertKeyFile (onlyFile raw385) "keys.dat" "keys.dat.formatted") = None
      <-> writable (onlyFile raw385) "keys.dat.formatted" = true
          /\ (IsCorrectFormat raw385 = true \/ 385 <= len raw385)).
Proof.
  split; [reflexivity|].
  apply (ConvertKeyFile_succeeds_iff (onlyFile raw385) "keys.dat" "keys.dat.formatted" raw385).
  reflexivity.
Defined.

(** X9. What the binary path has written passes through a second
    conversion unchanged: converting the output again copies it. *)
Theorem ConvertKeyFile_again
  (fs fs' : os.FileSystem) (inputPath outputPath again : string) (data : list byte) :
  os.files fs !! inputPath = Some data ->
  IsCorrectFormat data = false ->
  isI2PBase64Format data = false \/ len (firstLine data) < 516 ->
  ConvertKeyFile fs inputPath outputPath = (None, fs') ->
  writable fs' again = true ->
  exists text,
    os.files fs' !! outputPath = Some text
    /\ ConvertKeyFile fs' outputPath again = (None, os.withFile fs' again text).
Proof.
  intros Hread Hcanon Hpath Hrun Hwrite.
  rewrite (ConvertKeyFile_read fs inputPath outputPath data Hread) in Hrun.
  rewrite formatted_reencoded in Hrun by assumption. unfold reencoded in Hrun.
  destruct (Z.leb_spec 516 (len (toI2PBase64 data))) as [Hlen|Hlen]; [|discriminate].
  apply store_succeeds in Hrun as [-> _].
  assert (Hout : os.files (os.withFile fs outputPath
                             (take 516 (toI2PBase64 data) ++ [x0a] ++ toI2PBase64 data))
                 !! outputPath
                 = Some (take 516 (toI2PBase64 data) ++ [x0a] ++ toI2PBase64 data))
    by apply lookup_insert_eq.
  eexists. split; [exact Hout|].
  rewrite (ConvertKeyFile_read _ outputPath again _ Hout).
  rewrite formatted_canonical by (apply reencoded_text_canonical, Hlen).
  apply store_writable, Hwrite.
Qed.

Lemma ConvertKeyFile_again_witness :
  (os.files (onlyFile raw387) !! "keys.dat"%string = Some raw387
   /\ IsCorrectFormat raw387 = false
   /\ (isI2PBase64Format raw387 = false \/ len (firstLine raw387) < 516)
   /\ ConvertKeyFile (onlyFile raw387) "keys.dat" "keys.txt"
      = (None, os.withFile (onlyFile raw387) "keys.txt"
                 (toI2PBase64 raw387 ++ [x0a] ++ toI2PBase64 raw387))
   /\ writable (os.withFile (onlyFile raw387) "keys.txt"
                  (toI2PBase64 raw387 ++ [x0a] ++ toI2PBase64 raw387)) "again.txt" = true)
  /\ exists text,
       os.files (os.withFile (onlyFile raw387) "keys.txt"
                   (toI2PBase64 raw387 ++ [x0a] ++ toI2PBase64 raw387))
         !! "keys.txt"%string = Some text
       /\ ConvertKeyFile (os.withFile (onlyFile raw387) "keys.txt"
                            (toI2PBase64 raw387 ++ [x0a] ++ toI2PBase64 raw387))
            "keys.txt" "again.txt"
          = (None, os.withFile (os.withFile (onlyFile raw387) "keys.txt"
                                  (toI2PBase64 raw387 ++ [x0a] ++ toI2PBase64 raw387))
                     "again.txt" text).
Proof.
  split; [repeat split; try left; vm_compute; reflexivity|].
  apply (ConvertKeyFile_again (onlyFile raw387) _ "keys.dat" "keys.txt" "again.txt" raw387);
    try left; vm_compute; reflexivity.
Defined.

(** X10. A single line of codec symbols that decodes and has at least 516
    characters, with nothing around it, is converted into a file in the
    two-line format: its first 516 characters, a newline and the line. *)
Theorem ConvertKeyFile_clean_line_canonical
  (fs : os.FileSystem) (inputPath outputPath : string) (data : gostring) :
  os.files fs !! inputPath = Some data ->
  writable fs outputPath = true ->
  onlyCodecSymbols data = true ->
  snd (fromI2PBase64 data) = None ->
  516 <= len data ->
  ConvertKeyFile fs inputPath outputPath
  = (None, os.withFile fs outputPath (take 516 data ++ [x0a] ++ data))
  /\ IsCorrectFormat (take 516 data ++ [x0a] ++ data) = true.
Proof.
  intros Hread Hwrite Hsym Hdec Hlen.
  assert (Hne : data <> []) by (intros ->; unfold len in Hlen; cbn in Hlen; lia).
  assert (Hfmt : isI2PBase64Format data = true)
    by (apply isI2PBase64Format_encoded; assumption).
  assert (Hline : firstLine data = data)
    by (apply firstLine_whole, onlyCodecSymbols_occurs, Hsym).
  split.
  - rewrite (ConvertKeyFile_read fs inputPath outputPath data Hread).
    rewrite formatted_line by (rewrite ?Hline; auto using classified_not_canonical).
    rewrite Hline.
    apply store_writable, Hwrite.
  - assert (Hpub : take 516 data <> []).
    { intros E. apply (f_equal length) in E. rewrite length_take in E.
      unfold len in Hlen. cbn [length] in E. lia. }
    assert (Hpsym : onlyCodecSymbols (take 516 data) = true) by apply forallb_take, Hsym.
    rewrite lines_canonical by assumption.
    rewrite Hfmt, andb_true_r. apply isI2PBase64Format_encoded; auto.
    change 516%nat with (4 * 129)%nat. apply take_decodes; auto.
    unfold len in Hlen. lia.
Qed.

Lemma ConvertKeyFile_clean_line_canonical_witness :
  (os.files (onlyFile line700) !! "keys.dat"%string = Some line700
   /\ writable (onlyFile line700) "keys.txt" = true
   /\ onlyCodecSymbols line700 = true
   /\ snd (fromI2PBase64 line700) = None
   /\ 516 <= len line700)
  /\ ConvertKeyFile (onlyFile line700) "keys.dat" "keys.txt"
     = (None, os.withFile (onlyFile line700) "keys.txt" (take 516 line700 ++ [x0a] ++ line700))
  /\ IsCorrectFormat (take 516 line700 ++ [x0a] ++ line700) = true.
Proof.
  split; [repeat split; vm_compute; (reflexivity || discriminate)|].
  apply (ConvertKeyFile_clean_line_canonical (onlyFile line700) "keys.dat" "keys.txt" line700);
    vm_compute; (reflexivity || discriminate).
Defined.

Lemma asciiSpace_ascii w : strings.asciiSpace w = true -> (utf8.RuneSelf <=? u8 w) = false.
Proof. destruct w; vm_compute; intros H; try discriminate H; reflexivity. Qed.

Lemma isI2PBase64Format_TrimSpace a b :
  strings.TrimSpace a = strings.TrimSpace b -> isI2PBase64Format a = isI2PBase64Format b.
Proof. intros H. unfold isI2PBase64Format. rewrite H. reflexivity. Qed.

Lemma TrimSpace_leading_space w s :
  strings.asciiSpace w = true -> strings.TrimSpace (w :: s) = strings.TrimSpace s.
Proof.
  intros Hw. unfold strings.TrimSpace. cbn [strings.trimLeft].
  rewrite (asciiSpace_ascii w Hw), Hw. reflexivity.
Qed.

Lemma leading_space_formatted (w : byte) (key : gostring) :
  strings.asciiSpace w = true ->
  Byte.eqb x0a w = false ->
  onlyCodecSymbols key = true ->
  snd (fromI2PBase64 key) = None ->
  516 <= len key ->
  formatted (w :: key) = inl ((w :: take 515 key) ++ [x0a] ++ w :: key).
Proof.
  intros Hw Hnl Hsym Hdec Hlen.
  assert (Hne : key <> []) by (intros ->; unfold len in Hlen; cbn in Hlen; lia).
  assert (Hfmt : isI2PBase64Format (w :: key) = true).
  { rewrite (isI2PBase64Format_TrimSpace (w :: key) key)
      by (apply TrimSpace_leading_space, Hw).
    apply isI2PBase64Format_encoded; assumption. }
  assert (Hfree : occurs x0a (w :: key) = false).
  { unfold occurs. cbn [existsb]. rewrite Hnl. apply onlyCodecSymbols_occurs, Hsym. }
  rewrite formatted_line; rewrite ?firstLine_whole by assumption;
    auto using classified_not_canonical.
  unfold len in *. cbn [length]. lia.
Qed.

Lemma leading_space_not_canonical (w : byte) (key : gostring) :
  strings.asciiSpace w = true ->
  Byte.eqb x0a w = false ->
  onlyCodecSymbols key = true ->
  516 <= len key ->
  IsCorrectFormat ((w :: take 515 key) ++ [x0a] ++ w :: key) = false.
Proof.
  intros Hw Hnl Hsym Hlen.
  assert (Hklen : (516 <= length key)%nat) by (unfold len in Hlen; lia).
  assert (Hfree : occurs x0a (w :: key) = false).
  { unfold occurs. cbn [existsb]. rewrite Hnl. apply onlyCodecSymbols_occurs, Hsym. }
  assert (Hpsym : onlyCodecSymbols (take 515 key) = true) by apply forallb_take, Hsym.
  unfold IsCorrectFormat.
  assert (strings.TrimSpace ((w :: take 515 key) ++ [x0a] ++ w :: key)
          = take 515 key ++ [x0a] ++ w :: key) as ->.
  { cbn [app]. rewrite TrimSpace_leading_space by assumption.
    destruct key as [|c key'] eqn:Ekey; [cbn in Hklen; lia|].
    destruct (last_cons_is_Some c key') as [c' Hlast].
    change (take 515 (c :: key')) with (c :: take 514 key'). cbn [app].
    apply (TrimSpace_plain_ends c _ c').
    - unfold onlyCodecSymbols in Hsym. cbn [forallb] in Hsym.
      apply andb_true_iff in Hsym as [Hc _]. exact Hc.
    - replace (c :: take 514 key' ++ x0a :: w :: c :: key')
        with ((c :: take 514 key' ++ [x0a; w]) ++ c :: key')
        by (cbn [app]; rewrite <- app_assoc; reflexivity).
      rewrite last_app, Hlast. reflexivity.
    - exact (forallb_last _ _ _ Hsym Hlast). }
  cbn [app]. rewrite Split_app by (apply onlyCodecSymbols_occurs, Hpsym).
  rewrite Split_whole by assumption. cbn [length Nat.eqb negb nth].
  rewrite (isI2PBase64Format_codec_text _ Hpsym).
  destruct (take 515 key) as [|c pub] eqn:Epub; [reflexivity|].
  destruct (snd (fromI2PBase64 (c :: pub))) eqn:Edec; [reflexivity|].
  apply fromI2PBase64_succeeds in Edec.
  rewrite stripNewlines_codecSymbols in Edec by assumption.
  unfold wellFormedText, validPaddedLength in Edec.
  rewrite <- Epub, length_take, Nat.min_l in Edec by lia.
  rewrite andb_false_r in Edec. discriminate.
Qed.

(** X11. White space before the key is not trimmed before the key is cut:
    for a line of codec symbols that decodes, of at least 516 characters
    and with one ASCII space other than the newline in front, the
    conversion succeeds, but what it writes is not in the two-line format,
    its first line holding the space and only 515 characters of the key. *)
Theorem ConvertKeyFile_leading_space
  (fs : os.FileSystem) (inputPath outputPath : string) (w : byte) (key : gostring) :
  os.files fs !! inputPath = Some (w :: key) ->
  writable fs outputPath = true ->
  strings.asciiSpace w = true ->
  Byte.eqb x0a w = false ->
  onlyCodecSymbols key = true ->
  snd (fromI2PBase64 key) = None ->
  516 <= len key ->
  ConvertKeyFile fs inputPath outputPath
  = (None, os.withFile fs outputPath ((w :: take 515 key) ++ [x0a] ++ w :: key))
  /\ IsCorrectFormat ((w :: take 515 key) ++ [x0a] ++ w :: key) = false.
Proof.
  intros Hread Hwrite Hw Hnl Hsym Hdec Hlen. split.
  - rewrite (ConvertKeyFile_read fs inputPath outputPath _ Hread).
    rewrite leading_space_formatted by assumption.
    apply store_writable, Hwrite.
  - apply leading_space_not_canonical; assumption.
Qed.

Lemma ConvertKeyFile_leading_space_witness :
  (os.files (onlyFile (" "%byte :: line700)) !! "keys.dat"%string = Some (" "%byte :: line700)
   /\ writable (onlyFile (" "%byte :: line700)) "keys.txt" = true
   /\ strings.asciiSpace " " = true
   /\ Byte.eqb x0a " " = false
   /\ onlyCodecSymbols line700 = true
   /\ snd (fromI2PBase64 line700) = None
   /\ 516 <= len line700)
  /\ ConvertKeyFile (onlyFile (" "%byte :: line700)) "keys.dat" "keys.txt"
     = (None, os.withFile (onlyFile (" "%byte :: line700)) "keys.txt"
                ((" "%byte :: take 515 line700) ++ [x0a] ++ " "%byte :: line700))
  /\ IsCorrectFormat ((" "%byte :: take 515 line700) ++ [x0a] ++ " "%byte :: line700) = false.
Proof.
  split; [repeat split; vm_compute; (reflexivity || discriminate)|].
  apply (ConvertKeyFile_leading_space
           (onlyFile (" "%byte :: line700)) "keys.dat" "keys.txt" " " line700);
    vm_compute; (reflexivity || discriminate).
Defined.

(** X12. On the binary path the two lines written are the key itself: the
    second line decodes to the input bytes and the first to their first 387
    bytes. *)
Theorem ConvertKeyFile_lines_decode
  (fs fs' : os.FileSystem) (inputPath outputPath : string) (data : list byte) :
  os.files fs !! inputPath = Some data ->
  IsCorrectFormat data = false ->
  isI2PBase64Format data = false \/ len (firstLine data) < 516 ->
  ConvertKeyFile fs inputPath outputPath = (None, fs') ->
  exists line1 line2,
    os.files fs' !! outputPath = Some (line1 ++ [x0a] ++ line2)
    /\ fromI2PBase64 line1 = (take 387 data, None)
    /\ fromI2PBase64 line2 = (data, None).
Proof.
  intros Hread Hcanon Hpath Hrun.
  rewrite (ConvertKeyFile_read fs inputPath outputPath data Hread) in Hrun.
  rewrite formatted_reencoded in Hrun by assumption. unfold reencoded in Hrun.
  destruct (Z.leb_spec 516 (len (toI2PBase64 data))) as [Hlen|Hlen]; [|discriminate].
  apply store_succeeds in Hrun as [-> _].
  exists (take 516 (toI2PBase64 data)), (toI2PBase64 data).
  split; [apply lookup_insert_eq|]. split; [|apply fromI2PBase64_toI2PBase64].
  destruct (Z.lt_ge_cases (len data) 387) as [Hshort|Hlong].
  - assert (len (toI2PBase64 data) = 516) as Hlen'.
    { apply toI2PBase64_threshold in Hlen. rewrite toI2PBase64_length in *.
      unfold len in *. Z.div_mod_to_equations. lia. }
    rewrite !take_ge by (unfold len in *; lia). apply fromI2PBase64_toI2PBase64.
  - change 516%nat with (4 * 129)%nat. change 387%nat with (3 * 129)%nat.
    rewrite Encode_take by (unfold len in Hlong; lia). apply fromI2PBase64_toI2PBase64.
Qed.

Lemma ConvertKeyFile_lines_decode_witness :
  (os.files (onlyFile raw387) !! "keys.dat"%string = Some raw387
   /\ IsCorrectFormat raw387 = false
   /\ (isI2PBase64Format raw387 = false \/ len (firstLine raw387) < 516)
   /\ ConvertKeyFile (onlyFile raw387) "keys.dat" "keys.txt"
      = (None, os.withFile (onlyFile raw387) "keys.txt"
                 (toI2PBase64 raw387 ++ [x0a] ++ toI2PBase64 raw387)))
  /\ exists line1 line2,
       os.files (os.withFile (onlyFile raw387) "keys.txt"
                   (toI2PBase64 raw387 ++ [x0a] ++ toI2PBase64 raw387))
         !! "keys.txt"%string = Some (line1 ++ [x0a] ++ line2)
       /\ fromI2PBase64 line1 = (take 387 raw387, None)
       /\ fromI2PBase64 line2 = (raw387, None).
Proof.
  split; [repeat split; try left; vm_compute; reflexivity|].
  apply (ConvertKeyFile_lines_decode (onlyFile raw387) _ "keys.dat" "keys.txt" raw387);
    try left; vm_compute; reflexivity.
Defined.

(** ** [FormatKeysFile] *)

Lemma FormatKeysFile_read fs inputPath outputPath data :
  os.files fs !! inputPath = Some data ->
  FormatKeysFile fs inputPath outputPath
  = if IsCorrectFormat data then
      if negb (String.eqb inputPath outputPath) then
        match os.WriteFile fs outputPath data with
        | (Some err, fs) => (Some (wrapError "failed to write output file" err), fs)
        | (None, fs) => (None, fs)
        end
      else (None, fs)
    else
      let key := firstNonEmptyLine (strings.Split (cleanI2PBase64 data) x0a) in
      if len key <? 516 then (Some errTooShortToFormat, fs)
      else store fs outputPath (take 516 key ++ [x0a] ++ key).
Proof.
  intros Hread. unfold FormatKeysFile, os.ReadFile, store. rewrite Hread. reflexivity.
Qed.

Lemma filter_sublist {A} (p : A -> bool) (s : list A) : sublist (List.filter p s) s.
Proof.
  induction s as [|c s IH]; cbn [List.filter]; [constructor|].
  destruct (p c); [apply sublist_skip | apply sublist_cons]; exact IH.
Qed.

Lemma Split_sublist s sep : Forall (fun piece => sublist piece s) (strings.Split s sep).
Proof.
  induction s as [|c s IH]; cbn [strings.Split].
  - repeat constructor.
  - destruct (Byte.eqb c sep).
    + constructor; [apply sublist_nil_l|].
      eapply Forall_impl; [exact IH|]. intros piece H. apply sublist_cons, H.
    + pose proof (Split_not_nil s sep) as Hne.
      destruct (strings.Split s sep) as [|piece pieces]; [congruence|].
      inversion IH as [|? ? H1 Hrest]; subst. constructor.
      * apply sublist_skip, H1.
      * eapply Forall_impl; [exact Hrest|]. intros x H. apply sublist_cons, H.
Qed.

Lemma TrimSpace_sublist s : sublist (strings.TrimSpace s) s.
Proof.
  destruct (TrimSpace_frame s) as (a & b & E & _ & _).
  rewrite E at 2. apply sublist_inserts_l, sublist_inserts_r. reflexivity.
Qed.

Lemma cleaned_key_sublist data :
  sublist (firstNonEmptyLine (strings.Split (cleanI2PBase64 data) x0a)) data.
Proof.
  destruct (firstNonEmptyLine_In (strings.Split (cleanI2PBase64 data) x0a)) as [->|Hin];
    [apply sublist_nil_l|].
  pose proof (Split_sublist (cleanI2PBase64 data) x0a) as Hall.
  rewrite Forall_forall in Hall. rewrite <- list_elem_of_In in Hin.
  etransitivity; [exact (Hall _ Hin)|].
  rewrite cleanI2PBase64_filter.
  etransitivity; [apply filter_sublist | apply TrimSpace_sublist].
Qed.

Lemma codecSymbols_cleaned data :
  onlyCodecSymbols data = true -> cleanI2PBase64 data = data.
Proof.
  intros Hsym. rewrite cleanI2PBase64_filter, TrimSpace_codecSymbols by assumption.
  apply filter_all, codecSymbols_kept, Hsym.
Qed.

Lemma codecSymbols_key data :
  onlyCodecSymbols data = true ->
  firstNonEmptyLine (strings.Split data x0a) = data.
Proof.
  intros Hsym. rewrite Split_whole by (apply onlyCodecSymbols_occurs, Hsym).
  cbn [firstNonEmptyLine]. rewrite TrimSpace_codecSymbols by assumption.
  destruct data; reflexivity.
Qed.

Lemma filter_codecSymbols p s : onlyCodecSymbols s = true -> onlyCodecSymbols (List.filter p s) = true.
Proof.
  unfold onlyCodecSymbols. induction s as [|c s IH]; [reflexivity|].
  cbn [forallb List.filter]. intros H. apply andb_true_iff in H as [Hc Hs].
  destruct (p c); cbn [forallb]; rewrite ?Hc; auto.
Qed.

Lemma TrimSpace_free c s : occurs c s = false -> occurs c (strings.TrimSpace s) = false.
Proof.
  destruct (TrimSpace_frame s) as (a & b & E & _ & _). intros H.
  rewrite E, !occurs_app in H.
  apply orb_false_iff in H as [_ H]. apply orb_false_iff in H as [H _]. exact H.
Qed.

Lemma single_line_cleaned data :
  occurs x0a data = false ->
  cleanI2PBase64 data = List.filter codecSymbol data.
Proof.
  intros Hnl. rewrite cleanI2PBase64_filter.
  rewrite <- (filter_TrimSpace codecSymbol data) by apply keptByte_not_blank_symbol.
  assert (Hnl' : occurs x0a (strings.TrimSpace data) = false)
    by apply TrimSpace_free, Hnl.
  revert Hnl'. generalize (strings.TrimSpace data). clear.
  induction l as [|c l IH]; [reflexivity|].
  unfold occurs. cbn [existsb List.filter]. intros H.
  apply orb_false_iff in H as [Hc Hl].
  rewrite <- (keptByte_split c).
  assert (Byte.eqb c x0a = false) as ->.
  { destruct (Byte.eqb c x0a) eqn:E; [|reflexivity].
    apply Byte.byte_dec_bl in E. subst. discriminate Hc. }
  cbn [negb]. rewrite andb_true_r, (IH Hl). reflexivity.
Qed.

Lemma single_line_not_canonical data : occurs x0a data = false -> IsCorrectFormat data = false.
Proof.
  intros Hnl. unfold IsCorrectFormat.
  rewrite Split_whole by apply TrimSpace_free, Hnl.
  reflexivity.
Qed.

Lemma key_lines_canonical key :
  onlyCodecSymbols key = true -> 516 <= len key ->
  IsCorrectFormat (take 516 key ++ [x0a] ++ key) = true <-> snd (fromI2PBase64 key) = None.
Proof.
  intros Hsym Hlen. unfold len in Hlen.
  assert (Hne : key <> []) by (intros ->; cbn in Hlen; lia).
  assert (Hpub : take 516 key <> []).
  { intros E. apply (f_equal length) in E. rewrite length_take in E.
    cbn [length] in E. lia. }
  assert (Hpsym : onlyCodecSymbols (take 516 key) = true) by apply forallb_take, Hsym.
  rewrite lines_canonical by assumption.
  rewrite andb_true_iff. split.
  - intros [_ Hkey]. rewrite isI2PBase64Format_codec_text in Hkey by assumption.
    destruct key; [congruence|].
    destruct (snd (fromI2PBase64 (b :: key))); [discriminate | reflexivity].
  - intros Hdec. split; apply isI2PBase64Format_encoded; auto.
    change 516%nat with (4 * 129)%nat. apply take_decodes; auto. lia.
Qed.



(** X14. [FormatKeysFile] never encodes its input: when the file is not in
    the two-line format and holds fewer than 516 bytes that are codec
    symbols, it fails with the error for a key too short and writes
    nothing, whatever the size of the file. *)
Theorem FormatKeysFile_too_short
  (fs : os.FileSystem) (inputPath outputPath : string) (data : list byte) :
  os.files fs !! inputPath = Some data ->
  IsCorrectFormat data = false ->
  len (List.filter codecSymbol data) < 516 ->
  FormatKeysFile fs inputPath outputPath = (Some errTooShortToFormat, fs).
Proof.
  intros Hread Hcanon Hshort.
  rewrite (FormatKeysFile_read fs inputPath outputPath data Hread), Hcanon. cbv zeta.
  destruct (cleaned_key data) as [_ Hlen].
  destruct (Z.ltb_spec (len (firstNonEmptyLine (strings.Split (cleanI2PBase64 data) x0a))) 516)
    as [_|Hge]; [reflexivity|].
  unfold len in *. lia.
Qed.

Lemma FormatKeysFile_too_short_witness :
  (os.files (onlyFile raw387) !! "keys.dat"%string = Some raw387
   /\ IsCorrectFormat raw387 = false
   /\ len (List.filter codecSymbol raw387) < 516)
  /\ FormatKeysFile (onlyFile raw387) "keys.dat" "keys.txt"
     = (Some errTooShortToFormat, onlyFile raw387).
Proof.
  split; [repeat split; vm_compute; reflexivity|].
  apply (FormatKeysFile_too_short (onlyFile raw387) "keys.dat" "keys.txt" raw387);
    vm_compute; reflexivity.
Defined.

(** X15. What [FormatKeysFile] writes for a file that is not in the
    two-line format: the first 516 characters of a key, a newline and the
    key, where the key is at least 516 codec symbols taken from the input
    in their order. The text written is in the two-line format exactly
    when that key decodes, which the function does not check. *)
Theorem FormatKeysFile_output
  (fs fs' : os.FileSystem) (inputPath outputPath : string) (data : list byte) :
  os.files fs !! inputPath = Some data ->
  IsCorrectFormat data = false ->
  FormatKeysFile fs inputPath outputPath = (None, fs') ->
  exists key,
    fs' = os.withFile fs outputPath (take 516 key ++ [x0a] ++ key)
    /\ onlyCodecSymbols key = true
    /\ 516 <= len key
    /\ sublist key data
    /\ (IsCorrectFormat (take 516 key ++ [x0a] ++ key) = true
        <-> snd (fromI2PBase64 key) = None).
Proof.
  intros Hread Hcanon Hrun.
  rewrite (FormatKeysFile_read fs inputPath outputPath data Hread), Hcanon in Hrun.
  cbv zeta in Hrun.
  destruct (cleaned_key data) as [Hsym _].
  pose proof (cleaned_key_sublist data) as Hsub.
  set (key := firstNonEmptyLine _) in *.
  destruct (Z.ltb_spec (len key) 516) as [|Hlen]; [discriminate|].
  apply store_succeeds in Hrun as [-> _].
  exists key. repeat split; auto; apply key_lines_canonical; assumption.
Qed.

Lemma FormatKeysFile_output_witness :
  (os.files (onlyFile line700tab) !! "keys.dat"%string = Some line700tab
   /\ IsCorrectFormat line700tab = false
   /\ FormatKeysFile (onlyFile line700tab) "keys.dat" "keys.txt"
      = (None, os.withFile (onlyFile line700tab) "keys.txt"
                 (take 516 line700 ++ [x0a] ++ line700)))
  /\ exists key,
       os.withFile (onlyFile line700tab) "keys.txt" (take 516 line700 ++ [x0a] ++ line700)
       = os.withFile (onlyFile line700tab) "keys.txt" (take 516 key ++ [x0a] ++ key)
       /\ onlyCodecSymbols key = true
       /\ 516 <= len key
       /\ sublist key line700tab
       /\ (IsCorrectFormat (take 516 key ++ [x0a] ++ key) = true
           <-> snd (fromI2PBase64 key) = None).
Proof.
  split; [repeat split; vm_compute; reflexivity|].
  apply (FormatKeysFile_output (onlyFile line700tab) _ "keys.dat" "keys.txt" line700tab);
    vm_compute; reflexivity.
Defined.

(** X16. On a single line of codec symbols that decodes and has at least
    516 characters, with nothing around it, [FormatKeysFile] and
    [ConvertKeyFile] do the same: same error, same file system. *)
Theorem FormatKeysFile_agrees_with_ConvertKeyFile
  (fs : os.FileSystem) (inputPath outputPath : string) (data : gostring) :
  os.files fs !! inputPath = Some data ->
  onlyCodecSymbols data = true ->
  snd (fromI2PBase64 data) = None ->
  516 <= len data ->
  FormatKeysFile fs inputPath outputPath = ConvertKeyFile fs inputPath outputPath.
Proof.
  intros Hread Hsym Hdec Hlen.
  assert (Hne : data <> []) by (intros ->; unfold len in Hlen; cbn in Hlen; lia).
  assert (Hfmt : isI2PBase64Format data = true)
    by (apply isI2PBase64Format_encoded; assumption).
  assert (Hline : firstLine data = data)
    by (apply firstLine_whole, onlyCodecSymbols_occurs, Hsym).
  rewrite (ConvertKeyFile_read fs inputPath outputPath data Hread).
  rewrite formatted_line by (rewrite ?Hline; auto using classified_not_canonical).
  rewrite Hline.
  rewrite (FormatKeysFile_read fs inputPath outputPath data Hread).
  rewrite classified_not_canonical by assumption. cbv zeta.
  rewrite codecSymbols_cleaned, codecSymbols_key by assumption.
  destruct (Z.ltb_spec (len data) 516); [lia | reflexivity].
Qed.

Lemma FormatKeysFile_agrees_with_ConvertKeyFile_witness :
  (os.files (onlyFile line700) !! "keys.dat"%string = Some line700
   /\ onlyCodecSymbols line700 = true
   /\ snd (fromI2PBase64 line700) = None
   /\ 516 <= len line700)
  /\ FormatKeysFile (onlyFile line700) "keys.dat" "keys.txt"
     = ConvertKeyFile (onlyFile line700) "keys.dat" "keys.txt".
Proof.
  split; [repeat split; vm_compute; (reflexivity || discriminate)|].
  apply (FormatKeysFile_agrees_with_ConvertKeyFile (onlyFile line700) "keys.dat" "keys.txt"
           line700);
    vm_compute; (reflexivity || discriminate).
Defined.


(** X18. For a file without a newline [FormatKeysFile] works on the codec
    symbols of the whole file, all other bytes dropped: with fewer than 516
    of them it fails, otherwise it writes the first 516, a newline and all
    of them. *)
Theorem FormatKeysFile_single_line
  (fs : os.FileSystem) (inputPath outputPath : string) (data : list byte) :
  os.files fs !! inputPath = Some data ->
  occurs x0a data = false ->
  FormatKeysFile fs inputPath outputPath
  = let key := List.filter codecSymbol data in
    if len key <? 516 then (Some errTooShortToFormat, fs)
    else store fs outputPath (take 516 key ++ [x0a] ++ key).
Proof.
  intros Hread Hnl.
  rewrite (FormatKeysFile_read fs inputPath outputPath data Hread).
  rewrite single_line_not_canonical by assumption. cbv zeta.
  rewrite single_line_cleaned by assumption.
  rewrite codecSymbols_key; [reflexivity|].
  apply forallb_filter.
Qed.

Lemma FormatKeysFile_single_line_witness :
  (os.files (onlyFile line700tab) !! "keys.dat"%string = Some line700tab
   /\ occurs x0a line700tab = false)
  /\ FormatKeysFile (onlyFile line700tab) "keys.dat" "keys.txt"
     = let key := List.filter codecSymbol line700tab in
       if len key <? 516 then (Some errTooShortToFormat, onlyFile line700tab)
       else store (onlyFile line700tab) "keys.txt" (take 516 key ++ [x0a] ++ key).
Proof.
  split; [repeat split; vm_compute; reflexivity|].
  apply (FormatKeysFile_single_line (onlyFile line700tab) "keys.dat" "keys.txt" line700tab);
    vm_compute; reflexivity.
Defined.

(** ** [cleanI2PBase64] *)

Lemma filter_filter_implied {A} (p q : A -> bool) (s : list A) :
  (forall c, p c = true -> q c = true) ->
  List.filter p (List.filter q s) = List.filter p s.
Proof.
  intros Hpq. induction s as [|c s IH]; [reflexivity|]. cbn [List.filter].
  destruct (q c) eqn:Eq; cbn [List.filter].
  - rewrite IH. reflexivity.
  - destruct (p c) eqn:Ep; [rewrite (Hpq c Ep) in Eq; discriminate | exact IH].
Qed.

Lemma codecSymbol_keptByte c : codecSymbol c = true -> keptByte c = true.
Proof. unfold keptByte. intros ->. reflexivity. Qed.

(** X19. [cleanI2PBase64] only takes bytes away: what it returns is made of
    codec symbols and newlines, taken from its argument in their order, and
    no codec symbol of the argument is lost. *)
Theorem cleanI2PBase64_keeps (data : gostring) :
  forallb keptByte (cleanI2PBase64 data) = true
  /\ sublist (cleanI2PBase64 data) data
  /\ List.filter codecSymbol (cleanI2PBase64 data) = List.filter codecSymbol data.
Proof.
  rewrite cleanI2PBase64_filter. repeat split.
  - apply forallb_filter.
  - etransitivity; [apply filter_sublist | apply TrimSpace_sublist].
  - rewrite filter_filter_implied by apply codecSymbol_keptByte.
    apply filter_TrimSpace, keptByte_not_blank_symbol.
Qed.

(** X20. Cleaning twice is cleaning once and trimming the result: the bytes
    dropped by the first pass can leave newlines at the ends, which only
    the trimming of a second pass takes away. *)
Theorem cleanI2PBase64_twice (data : gostring) :
  cleanI2PBase64 (cleanI2PBase64 data) = strings.TrimSpace (cleanI2PBase64 data).
Proof.
  rewrite (cleanI2PBase64_filter (cleanI2PBase64 data)).
  apply filter_all.
  destruct (TrimSpace_frame (cleanI2PBase64 data)) as (a & b & E & _ & _).
  apply (forallb_infix keptByte a _ b). rewrite <- E.
  rewrite cleanI2PBase64_filter. apply forallb_filter.
Qed.

(** X21. Text made of codec symbols and newlines that neither begins nor
    ends with a newline is left as it is by [cleanI2PBase64]. *)
Theorem cleanI2PBase64_fixed (data : gostring) :
  forallb keptByte data = true ->
  head data <> Some x0a ->
  last data <> Some x0a ->
  cleanI2PBase64 data = data.
Proof.
  intros Hkept Hhead Hlast. rewrite cleanI2PBase64_filter.
  assert (Hsym : forall c, keptByte c = true -> c <> x0a -> codecSymbol c = true).
  { intros c Hc Hne. rewrite <- keptByte_split, Hc.
    destruct (Byte.eqb c x0a) eqn:E; [|reflexivity].
    apply Byte.byte_dec_bl in E. contradiction. }
  assert (strings.TrimSpace data = data) as ->; [|apply filter_all, Hkept].
  destruct data as [|c s]; [reflexivity|].
  destruct (last_cons_is_Some c s) as [c' Hc'].
  apply (TrimSpace_plain_ends c s c'); [|exact Hc'|].
  - apply Hsym; [|cbn in Hhead; congruence].
    cbn [forallb] in Hkept. apply andb_true_iff in Hkept as [Hc _]. exact Hc.
  - apply Hsym; [exact (forallb_last _ _ _ Hkept Hc') | congruence].
Qed.

Lemma cleanI2PBase64_fixed_witness :
  (forallb keptByte twoLines = true
   /\ head twoLines <> Some x0a
   /\ last twoLines <> Some x0a)
  /\ cleanI2PBase64 twoLines = twoLines.
Proof.
  split; [repeat split; vm_compute; (reflexivity || discriminate)|].
  apply (cleanI2PBase64_fixed twoLines); vm_compute; (reflexivity || discriminate).
Defined.

(** ** [truncateString] *)



(** X22. With a limit that is not negative [truncateString] returns: the
    string itself when it is within the limit, and otherwise its first
    [maxLen] bytes followed by three dots, [maxLen + 3] bytes in all, which
    is more than the string had when it was one or two bytes over. *)
Theorem truncateString_result (s : gostring) (maxLen : Z) :
  0 <= maxLen ->
  exists t,
    Main.truncateString s maxLen = Some t
    /\ take (Z.to_nat maxLen) t = take (Z.to_nat maxLen) s
    /\ (len s <= maxLen -> t = s)
    /\ (maxLen < len s -> len t = maxLen + 3 /\ drop (Z.to_nat maxLen) t = go "...").
Proof.
  intros Hmax. unfold Main.truncateString.
  destruct (Z.leb_spec (len s) maxLen) as [Hle|Hgt].
  - exists s. repeat split; auto; lia.
  - destruct (Z.ltb_spec maxLen 0) as [|_]; [lia|].
    assert (Hlen : length (take (Z.to_nat maxLen) s) = Z.to_nat maxLen)
      by (rewrite length_take; unfold len in Hgt; lia).
    exists (take (Z.to_nat maxLen) s ++ go "..."). repeat split.
    + rewrite take_app_le by lia. rewrite take_take. f_equal. lia.
    + lia.
    + unfold len. rewrite length_app, Hlen. cbn [length go].
      change (length (go "...")) with 3%nat. lia.
    + rewrite drop_app_ge by lia. rewrite Hlen, Nat.sub_diag. reflexivity.
Qed.

Lemma truncateString_result_witness :
  0 <= 40
  /\ exists t,
       Main.truncateString line700 40 = Some t
       /\ take (Z.to_nat 40) t = take (Z.to_nat 40) line700
       /\ (len line700 <= 40 -> t = line700)
       /\ (40 < len line700 -> len t = 40 + 3 /\ drop (Z.to_nat 40) t = go "...").
Proof.
  split; [lia|]. apply (truncateString_result line700 40). lia.
Defined.

(** X23. [truncateString] panics exactly when the limit is negative, also
    on the empty string. *)
Theorem truncateString_panics_iff (s : gostring) (maxLen : Z) :
  Main.truncateString s maxLen = None <-> maxLen < 0.
Proof.
  unfold Main.truncateString. assert (0 <= len s) by (unfold len; lia).
  destruct (Z.leb_spec (len s) maxLen); [split; [discriminate | lia]|].
  destruct (Z.ltb_spec maxLen 0); split; auto; try discriminate; lia.
Qed.

(** ** [main] *)

Lemma keyInformation_returns resultData :
  exists report, Main.keyInformation resultData = Some report.
Proof.
  unfold Main.keyInformation, Main.truncateString.
  destruct (2 <=? len _); [|eexists; reflexivity].
  change (40 <? 0) with false.
  do 2 destruct (len _ <=? 40); eexists; reflexivity.
Qed.

Lemma Stat_present fs name data :
  os.files fs !! name = Some data -> os.IsNotExist (os.Stat fs name) = false.
Proof. intros H. unfold os.Stat. rewrite H. reflexivity. Qed.

Lemma Stat_absent fs name :
  os.files fs !! name = None -> os.IsNotExist (os.Stat fs name) = true.
Proof. intros H. unfold os.Stat. rewrite H. reflexivity. Qed.

Lemma eqb_empty (s : string) : s <> ""%string -> String.eqb s "" = false.
Proof. intros H. destruct (String.eqb_spec s ""); congruence. Qed.

(** The exit status and the file system of a conversion, from what
    [ConvertKeyFile] returns. *)
Lemma main_converts Base Join flags fs data :
  Main.inputFile flags <> ""%string ->
  os.files fs !! Main.inputFile flags = Some data ->
  Main.checkFormat flags = false ->
  fst (fst (Main.main Base Join flags fs))
  = match ConvertKeyFile fs (Main.inputFile flags) (outputPathOf Base Join flags) with
    | (Some _, _) => 1
    | (None, fs') =>
        match os.files fs' !! outputPathOf Base Join flags with
        | Some text => if IsCorrectFormat text then 0 else 1
        | None => 1
        end
    end
  /\ snd (Main.main Base Join flags fs)
     = snd (ConvertKeyFile fs (Main.inputFile flags) (outputPathOf Base Join flags)).
Proof.
  intros Hin Hread Hmode. unfold Main.main.
  rewrite (eqb_empty _ Hin), (Stat_present _ _ _ Hread), Hmode.
  fold (outputPathOf Base Join flags).
  destruct (ConvertKeyFile fs (Main.inputFile flags) (outputPathOf Base Join flags))
    as [[err|] fs']; [split; reflexivity|].
  unfold os.ReadFile.
  destruct (os.files fs' !! outputPathOf Base Join flags) as [text|]; [|split; reflexivity].
  destruct (IsCorrectFormat text); [|split; reflexivity].
  destruct (Main.verbose flags); [|split; reflexivity].
  destruct (keyInformation_returns text) as [report ->]. split; reflexivity.
Qed.

(** X24. With [-check] the program writes nothing, and its exit status is 0
    exactly when the input file is there and is in the two-line format; it
    is 1 otherwise. *)
Theorem main_check_mode
  (Base : string -> string) (Join : string -> string -> string)
  (flags : Main.Flags) (fs : os.FileSystem) :
  Main.checkFormat flags = true ->
  Main.inputFile flags <> ""%string ->
  snd (Main.main Base Join flags fs) = fs
  /\ (fst (fst (Main.main Base Join flags fs)) = 0
      <-> exists data,
            os.files fs !! Main.inputFile flags = Some data
            /\ IsCorrectFormat data = true)
  /\ (fst (fst (Main.main Base Join flags fs)) <> 0 ->
      fst (fst (Main.main Base Join flags fs)) = 1).
Proof.
  intros Hmode Hin. unfold Main.main. rewrite (eqb_empty _ Hin).
  destruct (os.files fs !! Main.inputFile flags) as [data|] eqn:Hread.
  - rewrite (Stat_present _ _ _ Hread), Hmode. unfold os.ReadFile. rewrite Hread.
    destruct (IsCorrectFormat data) eqn:Hcanon; cbn [fst snd]; repeat split; auto.
    + intros _. exists data. split; auto.
    + congruence.
    + discriminate.
    + intros (data' & [= <-] & H). congruence.
  - rewrite (Stat_absent _ _ Hread). cbn [fst snd]. repeat split; auto.
    + discriminate.
    + intros (data' & [=] & _).
Qed.

Lemma main_check_mode_witness :
  (Main.checkFormat checkFlags = true /\ Main.inputFile checkFlags <> ""%string)
  /\ snd (Main.main plainBase plainJoin checkFlags (onlyFile twoLines)) = onlyFile twoLines
  /\ (fst (fst (Main.main plainBase plainJoin checkFlags (onlyFile twoLines))) = 0
      <-> exists data,
            os.files (onlyFile twoLines) !! Main.inputFile checkFlags = Some data
            /\ IsCorrectFormat data = true)
  /\ (fst (fst (Main.main plainBase plainJoin checkFlags (onlyFile twoLines))) <> 0 ->
      fst (fst (Main.main plainBase plainJoin checkFlags (onlyFile twoLines))) = 1).
Proof.
  split; [split; [reflexivity | discriminate]|].
  apply (main_check_mode plainBase plainJoin checkFlags (onlyFile twoLines));
    [reflexivity | discriminate].
Defined.


(** X26. A conversion that ends with exit status 0 has left, at the output
    path, a file in the two-line format. *)
Theorem main_success_output
  (Base : string -> string) (Join : string -> string -> string)
  (flags : Main.Flags) (fs : os.FileSystem) :
  Main.checkFormat flags = false ->
  fst (fst (Main.main Base Join flags fs)) = 0 ->
  exists text,
    os.files (snd (Main.main Base Join flags fs)) !! outputPathOf Base Join flags = Some text
    /\ IsCorrectFormat text = true.
Proof.
  intros Hmode. unfold Main.main. rewrite Hmode.
  destruct (String.eqb (Main.inputFile flags) ""); [discriminate|].
  destruct (os.IsNotExist _); [discriminate|].
  fold (outputPathOf Base Join flags).
  destruct (ConvertKeyFile fs _ _) as [[err|] fs']; [discriminate|].
  unfold os.ReadFile.
  destruct (os.files fs' !! outputPathOf Base Join flags) as [text|] eqn:Hout;
    [|discriminate].
  destruct (IsCorrectFormat text) eqn:Hcanon; [|discriminate].
  intros _. exists text. split; [|exact Hcanon].
  destruct (Main.verbose flags); [|exact Hout].
  destruct (keyInformation_returns text) as [report ->]. exact Hout.
Qed.

Lemma main_success_output_witness :
  (Main.checkFormat convertFlags = false
   /\ fst (fst (Main.main plainBase plainJoin convertFlags (onlyFile raw387))) = 0)
  /\ exists text,
       os.files (snd (Main.main plainBase plainJoin convertFlags (onlyFile raw387)))
         !! outputPathOf plainBase plainJoin convertFlags = Some text
       /\ IsCorrectFormat text = true.
Proof.
  split; [split; vm_compute; reflexivity|].
  apply (main_success_output plainBase plainJoin convertFlags (onlyFile raw387));
    vm_compute; reflexivity.
Defined.

(** X27. For an input that [ConvertKeyFile] treats as a binary key the
    program ends with exit status 0 exactly when the key has at least 385
    bytes and the output can be written: what is written then always
    passes the check of the format. *)
Theorem main_binary_key
  (Base : string -> string) (Join : string -> string -> string)
  (flags : Main.Flags) (fs : os.FileSystem) (data : list byte) :
  Main.checkFormat flags = false ->
  Main.inputFile flags <> ""%string ->
  os.files fs !! Main.inputFile flags = Some data ->
  IsCorrectFormat data = false ->
  isI2PBase64Format data = false \/ len (firstLine data) < 516 ->
  fst (fst (Main.main Base Join flags fs)) = 0
  <-> 385 <= len data /\ writable fs (outputPathOf Base Join flags) = true.
Proof.
  intros Hmode Hin Hread Hcanon Hpath.
  destruct (main_converts Base Join flags fs data Hin Hread Hmode) as [-> _].
  rewrite (ConvertKeyFile_read fs _ _ data Hread).
  rewrite formatted_reencoded by assumption. unfold reencoded.
  destruct (Z.leb_spec 516 (len (toI2PBase64 data))) as [Hlen|Hlen].
  - pose proof Hlen as Hraw. apply toI2PBase64_threshold in Hraw.
    destruct (writable fs (outputPathOf Base Join flags)) eqn:Hw.
    + rewrite store_writable by assumption.
      cbn [os.withFile os.files]. rewrite lookup_insert_eq.
      rewrite reencoded_text_canonical by assumption. split; auto.
    + destruct (store fs _ _) as [[err|] fs'] eqn:Hstore.
      * split; [discriminate | intros [_ [=]]].
      * apply store_succeeds in Hstore as [_ Hw']. congruence.
  - split; [discriminate|]. intros [Hraw _].
    apply toI2PBase64_threshold in Hraw. lia.
Qed.

Lemma main_binary_key_witness :
  (Main.checkFormat convertFlags = false
   /\ Main.inputFile convertFlags <> ""%string
   /\ os.files (onlyFile raw387) !! Main.inputFile convertFlags = Some raw387
   /\ IsCorrectFormat raw387 = false
   /\ (isI2PBase64Format raw387 = false \/ len (firstLine raw387) < 516))
  /\ (fst (fst (Main.main plainBase plainJoin convertFlags (onlyFile raw387))) = 0
      <-> 385 <= len raw387
          /\ writable (onlyFile raw387) (outputPathOf plainBase plainJoin convertFlags) = true).
Proof.
  split; [repeat split; try left; vm_compute; (reflexivity || discriminate)|].
  apply (main_binary_key plainBase plainJoin convertFlags (onlyFile raw387) raw387);
    try left; vm_compute; (reflexivity || discriminate).
Defined.

(** X28. The program can write the output file and still end with exit
    status 1: for a key of at least 516 codec symbols that decodes, with
    one ASCII space other than the newline in front, the file is written
    and the check of the result fails, with the warning as last message. *)
Theorem main_leading_space
  (Base : string -> string) (Join : string -> string -> string)
  (flags : Main.Flags) (fs : os.FileSystem) (w : byte) (key : gostring) :
  Main.checkFormat flags = false ->
  Main.inputFile flags <> ""%string ->
  os.files fs !! Main.inputFile flags = Some (w :: key) ->
  writable fs (outputPathOf Base Join flags) = true ->
  strings.asciiSpace w = true ->
  Byte.eqb x0a w = false ->
  onlyCodecSymbols key = true ->
  snd (fromI2PBase64 key) = None ->
  516 <= len key ->
  Main.main Base Join flags fs
  = (1,
     [ fmt.Printf "Formatting I2P key file: %s\n" [fmt.Text (Main.inputFile flags)];
       fmt.Printf "Output file: %s\n" [fmt.Text (outputPathOf Base Join flags)];
       fmt.Println "Warning: Output file is not in the correct format" ],
     os.withFile fs (outputPathOf Base Join flags)
       ((w :: take 515 key) ++ [x0a] ++ w :: key)).
Proof.
  intros Hmode Hin Hread Hwrite Hw Hnl Hsym Hdec Hlen. unfold Main.main.
  rewrite (eqb_empty _ Hin), (Stat_present _ _ _ Hread), Hmode.
  fold (outputPathOf Base Join flags).
  rewrite (ConvertKeyFile_read fs _ _ _ Hread).
  rewrite leading_space_formatted by assumption.
  rewrite store_writable by assumption.
  unfold os.ReadFile. cbn [os.withFile os.files]. rewrite lookup_insert_eq.
  rewrite leading_space_not_canonical by assumption. reflexivity.
Qed.

Lemma main_leading_space_witness :
  (Main.checkFormat convertFlags = false
   /\ Main.inputFile convertFlags <> ""%string
   /\ os.files (onlyFile (" "%byte :: line700)) !! Main.inputFile convertFlags
      = Some (" "%byte :: line700)
   /\ writable (onlyFile (" "%byte :: line700)) (outputPathOf plainBase plainJoin convertFlags)
      = true
   /\ strings.asciiSpace " " = true
   /\ Byte.eqb x0a " " = false
   /\ onlyCodecSymbols line700 = true
   /\ snd (fromI2PBase64 line700) = None
   /\ 516 <= len line700)
  /\ Main.main plainBase plainJoin convertFlags (onlyFile (" "%byte :: line700))
     = (1,
        [ fmt.Printf "Formatting I2P key file: %s\n" [fmt.Text (Main.inputFile convertFlags)];
          fmt.Printf "Output file: %s\n"
            [fmt.Text (outputPathOf plainBase plainJoin convertFlags)];
          fmt.Println "Warning: Output file is not in the correct format" ],
        os.withFile (onlyFile (" "%byte :: line700))
          (outputPathOf plainBase plainJoin convertFlags)
          ((" "%byte :: take 515 line700) ++ [x0a] ++ " "%byte :: line700)).
Proof.
  split; [repeat split; vm_compute; (reflexivity || discriminate)|].
  apply (main_leading_space plainBase plainJoin convertFlags
           (onlyFile (" "%byte :: line700)) " " line700);
    vm_compute; (reflexivity || discriminate).
Defined.



(** ** Newlines in encoded text *)

Section DecodeNewlines.
Import base64.
Variable enc : Encoding.
Hypothesis sextet_valid : forall c, Byte.eqb (sextet enc c) xff = negb (inAlphabet c).

Lemma fst_DecodeFrom_step fuel n c src si :
fst (DecodeFrom enc (S fuel) n (c :: src) si)
= decodedFrom enc fuel n (decodeQuantum enc n (c :: src) si).
Proof.
unfold decodedFrom. cbn [DecodeFrom].
destruct (q_err (decodeQuantum enc n (c :: src) si)).
- cbn [fst]. rewrite app_nil_r. reflexivity.
- destruct (DecodeFrom enc fuel n _ _). reflexivity.
Qed.

Lemma skipNewlines_stripped src : forall si,
fst (skipNewlines (stripNewlines src) si) = stripNewlines src.
Proof.
induction src as [|c src IH]; intros si; [reflexivity|].
rewrite stripNewlines_cons. destruct (isNewline c) eqn:E; [apply IH|].
cbn [skipNewlines]. rewrite E. reflexivity.
Qed.

Lemma afterPadding_decoded fuel n src si dbuf j :
decodedFrom enc fuel n (afterPadding src si dbuf j) = unpack dbuf j.
Proof.
unfold decodedFrom, afterPadding. destruct (skipNewlines src si) as [src1 si1].
cbn [q_out q_err q_rest q_nsi]. destruct src1; [|apply app_nil_r].
destruct fuel; apply app_nil_r.
Qed.

Lemma failed_decoded fuel n si off : decodedFrom enc fuel n (failed si off) = [].
Proof. reflexivity. Qed.

Lemma decodeQuantumFrom_strip fuel n n' :
(forall src si si', (length src <= fuel)%nat ->
   fst (DecodeFrom enc fuel n src si)
   = fst (DecodeFrom enc fuel n' (stripNewlines src) si')) ->
forall src si si' j dbuf,
  (j <= 4)%nat -> (length src <= S fuel)%nat -> (j = 4%nat -> (length src <= fuel)%nat) ->
  decodedFrom enc fuel n (decodeQuantumFrom enc n src si j dbuf)
  = decodedFrom enc fuel n' (decodeQuantumFrom enc n' (stripNewlines src) si' j dbuf).
Proof.
intros IHfuel. induction src as [|c src IH]; intros si si' j dbuf Hj Hlen Hfull.
- destruct j as [|[|[|[|[|j]]]]]; try lia; cbn; destruct fuel; reflexivity.
- destruct (Nat.eq_dec j 4%nat) as [->|Hj4].
  { assert (Hfour : forall m s i, decodeQuantumFrom enc m s i 4 dbuf
                    = {| q_rest := s; q_nsi := i; q_out := unpack dbuf 4; q_err := None |})
      by (intros m s i; destruct s; reflexivity).
    rewrite !Hfour. unfold decodedFrom. cbn [q_out q_err q_rest q_nsi].
    f_equal. apply IHfuel. auto. }
  assert (Hlt : (j < 4)%nat) by lia.
  cbn [length] in Hlen. rewrite stripNewlines_cons.
  destruct (inAlphabet c) eqn:Hc.
  { destruct (inAlphabet_plain c Hc) as (Hnl & _). rewrite Hnl.
    cbn [decodeQuantumFrom]. destruct (Nat.leb_spec 4 j); [lia|].
    rewrite sextet_valid, Hc. cbn [negb]. apply IH; lia. }
  destruct (isNewline c) eqn:Hnl.
  { cbn [decodeQuantumFrom]. destruct (Nat.leb_spec 4 j); [lia|].
    rewrite sextet_valid, Hc, Hnl. cbn [negb]. apply IH; lia. }
  cbn [decodeQuantumFrom]. destruct (Nat.leb_spec 4 j); [lia|].
  rewrite sextet_valid, Hc, Hnl. cbn [negb].
  destruct (Byte.eqb c StdPadding) eqn:Hp; cbn [negb]; [|reflexivity].
  destruct j as [|[|[|[|j]]]]; try lia; try reflexivity.
  + pose proof (skipNewlines_strip src (si + 1)) as Hstrip.
    pose proof (skipNewlines_head src (si + 1)) as Hhead.
    destruct (skipNewlines src (si + 1)) as [src2 si2]. cbn [fst] in *.
    destruct (skipNewlines (stripNewlines src) (si' + 1)) as [src2' si2'] eqn:E'.
    pose proof (skipNewlines_stripped src (si' + 1)) as Hsame. rewrite E' in Hsame.
    cbn [fst] in Hsame. subst src2'. rewrite <- Hstrip.
    destruct src2 as [|c2 src3]; [reflexivity|].
    rewrite stripNewlines_cons, (Hhead _ _ eq_refl).
    destruct (Byte.eqb c2 StdPadding); cbn [negb]; [|reflexivity].
    rewrite !afterPadding_decoded. reflexivity.
  + rewrite !afterPadding_decoded. reflexivity.
Qed.

Lemma DecodeFrom_strip fuel : forall n n' src si si',
(length src <= fuel)%nat ->
fst (DecodeFrom enc fuel n src si)
= fst (DecodeFrom enc fuel n' (stripNewlines src) si').
Proof.
induction fuel as [|fuel IH]; intros n n' src si si' Hlen.
- destruct src; [reflexivity | cbn in Hlen; lia].
- destruct src as [|c src]; [reflexivity|].
  rewrite fst_DecodeFrom_step. unfold decodeQuantum.
  rewrite (decodeQuantumFrom_strip fuel n n' (IH n n') (c :: src) si si' 0 [])
    by (auto; lia).
  destruct (stripNewlines (c :: src)) as [|c' rest].
  + destruct fuel; reflexivity.
  + rewrite fst_DecodeFrom_step. reflexivity.
Qed.

End DecodeNewlines.

Lemma stripNewlines_twice text : stripNewlines (stripNewlines text) = stripNewlines text.
Proof. apply filter_all, forallb_filter. Qed.

(** X30. [fromI2PBase64] does not see carriage returns and line feeds:
    with them or without them the text gives the same bytes, and an error
    in the one case exactly when in the other. *)
Theorem fromI2PBase64_ignores_newlines (text : gostring) :
  fst (fromI2PBase64 text) = fst (fromI2PBase64 (stripNewlines text))
  /\ (snd (fromI2PBase64 text) = None <-> snd (fromI2PBase64 (stripNewlines text)) = None).
Proof.
  split.
  - unfold fromI2PBase64, base64.DecodeString.
    rewrite (DecodeFrom_fuel i2pB64Encoding _ (length (stripNewlines text)) (length text))
      by (try reflexivity; apply filter_length).
    apply (DecodeFrom_strip i2pB64Encoding i2p_sextet_valid). reflexivity.
  - rewrite !fromI2PBase64_succeeds, stripNewlines_twice. reflexivity.
Qed.
